(** * TremorSense: signal processing, trend analysis, settings and recording

    A shallow embedding of the analysis pipeline of the TremorSense
    application (utils/signalProcessing, utils/analysis, utils/storage,
    hooks/useSensors and hooks/useRecording), with the properties its
    specification states about it.

    Numbers.  A JavaScript [number] is modelled twice.

    - Exactly, by [num]: a rational or one of the three non-finite values
      [Infinity], [-Infinity], [NaN].  Arithmetic is exact (the rounding
      of IEEE doubles is not modelled) and zero carries no sign.  Values
      read back from persisted sessions are finite (JSON has neither
      [NaN] nor [Infinity]), so the fields of a loaded session are
      rationals, and [Math.sqrt] on finite non-negative numbers is an
      argument [sqrt].  This model serves the properties that rounding
      does not touch: which elements are selected, sorted, grouped or
      stored, the lengths of the results, what is thrown and what is
      written.

    - As doubles, by the primitive [float] of the standard library (IEEE
      binary64, round to nearest): modules [Float64], [SignalProcessing64]
      and [Analysis64].  Wherever a comparison of computed numbers or a
      rounding to an integer decides the result ([classifyStability],
      [detectTrend], the score and the correlations of
      [generateTrendAnalysis], [detectAnomalies]) the property is stated
      and proved on this model.  [Math.sqrt], [Math.pow] and the exponent
      notation of [Number::toString] are arguments.

    Timestamps are integers (milliseconds) in both, and [Date.now()] is
    an argument [now], read once per call.

    Effects.  A call that may throw returns a [completion].  The storage
    utilities pass their module-level state ([Store]) explicitly, with the
    outcome of [AsyncStorage.getItem] and [JSON.parse] as arguments.  The
    two React hooks are one record of state ([Hooks]); [stopRecording] is
    split at its [await], and the render that a change of [isRecording]
    causes is a step of its own.

    Layout: the program ([JS], [Types], [SignalProcessing], [Analysis],
    [Storage], [Recording], [Grouping], [SessionStore], then [Float64],
    [SignalProcessing64], [Analysis64]), the notions of the specification
    ([Spec], [Notions], [Notions64]), concrete inputs ([Examples],
    [StoreExamples], [Examples64]), then the properties. *)

From Stdlib Require Import String Ascii DecimalString.
From Stdlib Require Import QArith Qround Qabs ZArith Bool List.
From Stdlib Require Import Lia Lqa Permutation Sorted.
From Stdlib Require Floats.
Import ListNotations.

(* A decimal literal denotes the nearest double, as it does in JavaScript. *)
Set Warnings "-inexact-float".

Set Implicit Arguments.

(* ================================================================= *)
(** ** JavaScript numbers *)

Module JS.

Inductive num : Type :=
| Fin (q : Q)
| PInf
| NInf
| NaN.

Definition Qltb (a b : Q) : bool := negb (Qle_bool b a).

Definition of_nat (n : nat) : num := Fin (inject_Z (Z.of_nat n)).
Definition of_Z (z : Z) : num := Fin (inject_Z z).

(** [a + b] *)
Definition nadd (a b : num) : num :=
  match a, b with
  | NaN, _ | _, NaN => NaN
  | Fin x, Fin y => Fin (x + y)
  | PInf, NInf | NInf, PInf => NaN
  | PInf, _ | _, PInf => PInf
  | NInf, _ | _, NInf => NInf
  end.

(** [-a] *)
Definition nneg (a : num) : num :=
  match a with
  | Fin x => Fin (- x)
  | PInf => NInf
  | NInf => PInf
  | NaN => NaN
  end.

(** [a - b] *)
Definition nsub (a b : num) : num := nadd a (nneg b).

(** The infinity with the sign of [x] times the sign of [pos]; [NaN] at [x = 0]. *)
Definition inf_times (pos : bool) (x : Q) : num :=
  if Qeq_bool x 0 then NaN
  else if Bool.eqb pos (Qltb 0 x) then PInf else NInf.

(** [a * b] *)
Definition nmul (a b : num) : num :=
  match a, b with
  | NaN, _ | _, NaN => NaN
  | Fin x, Fin y => Fin (x * y)
  | Fin x, PInf | PInf, Fin x => inf_times true x
  | Fin x, NInf | NInf, Fin x => inf_times false x
  | PInf, PInf | NInf, NInf => PInf
  | PInf, NInf | NInf, PInf => NInf
  end.

(** [a / b]; a finite number over zero is an infinity or, at [0 / 0], [NaN]. *)
Definition ndiv (a b : num) : num :=
  match a, b with
  | NaN, _ | _, NaN => NaN
  | Fin x, Fin y =>
      if Qeq_bool y 0
      then (if Qeq_bool x 0 then NaN else if Qltb 0 x then PInf else NInf)
      else Fin (x / y)
  | Fin _, PInf | Fin _, NInf => Fin 0
  | PInf, Fin y => if Qltb y 0 then NInf else PInf
  | NInf, Fin y => if Qltb y 0 then PInf else NInf
  | _, _ => NaN
  end.

(** [a < b]: false as soon as one side is [NaN]. *)
Definition nlt (a b : num) : bool :=
  match a, b with
  | NaN, _ | _, NaN => false
  | Fin x, Fin y => Qltb x y
  | _, NInf => false
  | NInf, _ => true
  | PInf, _ => false
  | _, PInf => true
  end.

(** [a > b] *)
Definition ngt (a b : num) : bool := nlt b a.

(** [Math.abs] *)
Definition nabs (a : num) : num :=
  match a with
  | Fin x => Fin (Qabs x)
  | PInf | NInf => PInf
  | NaN => NaN
  end.

(** [Math.max(a, b)] *)
Definition nmax (a b : num) : num :=
  match a, b with
  | NaN, _ | _, NaN => NaN
  | _, _ => if nlt a b then b else a
  end.

(** [Math.min(a, b)] *)
Definition nmin (a b : num) : num :=
  match a, b with
  | NaN, _ | _, NaN => NaN
  | _, _ => if nlt b a then b else a
  end.

(** [Math.round]: the nearest integer, a tie going up. *)
Definition Qround_half_up (x : Q) : Z := Qfloor (x + (1 # 2)).

Definition nround (a : num) : num :=
  match a with
  | Fin x => of_Z (Qround_half_up x)
  | _ => a
  end.

(** [Math.sqrt], from the square root [sqrt] of the non-negative rationals. *)
Definition nsqrt (sqrt : Q -> Q) (a : num) : num :=
  match a with
  | Fin x => if Qltb x 0 then NaN else Fin (sqrt x)
  | PInf => PInf
  | NInf | NaN => NaN
  end.

(** Truthiness of a number: [0] and [NaN] are falsy. *)
Definition truthy (a : num) : bool :=
  match a with
  | Fin x => negb (Qeq_bool x 0)
  | PInf | NInf => true
  | NaN => false
  end.

(** [a || b] on numbers *)
Definition nor (a b : num) : num := if truthy a then a else b.

(** Decimal digits of a natural number. *)
Definition digits (n : N) : string := NilZero.string_of_uint (N.to_uint n).

(** [x.toFixed(0)], for numbers below [1e21] in absolute value (above,
    JavaScript switches to exponent notation, which is not modelled). *)
Definition toFixed0 (a : num) : string :=
  match a with
  | Fin x =>
      if Qltb x 0
      then ("-" ++ digits (Z.to_N (Qround_half_up (- x))))%string
      else digits (Z.to_N (Qround_half_up x))
  | PInf => "Infinity"%string
  | NInf => "-Infinity"%string
  | NaN => "NaN"%string
  end.

(** Equality of numbers up to the representation of the rational. *)
Definition neq (a b : num) : Prop :=
  match a, b with
  | Fin x, Fin y => x == y
  | PInf, PInf | NInf, NInf | NaN, NaN => True
  | _, _ => False
  end.

(** *** Arrays *)

(** An index argument of [slice], made relative to the length. *)
Definition rel_index (len k : Z) : Z :=
  if (k <? 0)%Z then Z.max (len + k) 0 else Z.min k len.

(** [l.slice(start, stop)] *)
Definition slice {A : Type} (l : list A) (start stop : Z) : list A :=
  let len := Z.of_nat (length l) in
  let s := rel_index len start in
  let e := rel_index len stop in
  firstn (Z.to_nat (e - s)) (skipn (Z.to_nat s) l).

(** [l.slice(start)] *)
Definition slice_from {A : Type} (l : list A) (start : Z) : list A :=
  slice l start (Z.of_nat (length l)).

(** [l.sort(cmp)]: the sort is stable, and a stable sort has one result
    for a comparator that is a total preorder, here by insertion from the
    right.  [cmp a b > 0] puts [b] first. *)
Fixpoint sort_insert {A : Type} (cmp : A -> A -> num) (x : A) (l : list A) : list A :=
  match l with
  | [] => [x]
  | y :: l' => if ngt (cmp x y) (Fin 0) then y :: sort_insert cmp x l' else x :: l
  end.

Fixpoint sort {A : Type} (cmp : A -> A -> num) (l : list A) : list A :=
  match l with
  | [] => []
  | x :: l' => sort_insert cmp x (sort cmp l')
  end.

(** [l.reduce((sum, v) => sum + f(v), 0)] *)
Definition reduce_sum {A : Type} (f : A -> num) (l : list A) : num :=
  fold_left (fun sum v => nadd sum (f v)) l (Fin 0).

(** A thrown exception or a returned value. *)
Inductive completion (A : Type) : Type :=
| Return (a : A)
| Throw (error : string).
Arguments Return {A} a.
Arguments Throw {A} error.

End JS.

Import JS.

(* ================================================================= *)
(** ** Data types (types/index.ts) *)

(** The records that hold numbers take the type [N] of those numbers: [Q]
    for a session loaded from storage, [num] for one just computed. *)

Module Types.

Inductive SamplingRate : Type := low | medium | high.

Record SensorData (N : Type) : Type := {
  x : list N;
  y : list N;
  z : list N
}.

Record RecordingContext : Type := {
  caffeine : option bool;
  sleepDeprived : option bool;
  stress : option bool;
  notes : option string
}.

Record RecordingStats (N : Type) : Type := {
  meanAmplitude : N;
  variability : N;
  peakAmplitude : N
}.

Record RecordingSession (N : Type) : Type := {
  id : string;
  timestamp : Z;
  duration : N;
  accelerometer : SensorData N;
  gyroscope : SensorData N;
  magnitude : list N;
  stats : RecordingStats N;
  context : option RecordingContext
}.

Inductive StabilityType : Type := stable | variable | increasing | irregular.

Record StabilityClassification : Type := {
  type : StabilityType;
  confidence : Q
}.

Inductive Impact : Type := positive | negative | neutral.

Record Correlation : Type := {
  correlation_context : string;
  impact : Impact;
  description : string
}.

Record TrendAnalysis : Type := {
  stabilityScore : num;
  classification : StabilityClassification;
  summary : string;
  anomalies : list string;
  correlations : list Correlation
}.

(** The result type of [detectTrend]. *)
Inductive Trend : Type := trend_stable | trend_increasing | trend_decreasing.

End Types.

Import Types.

(* ================================================================= *)
(** ** Signal processing (utils/signalProcessing.ts) *)

Module SignalProcessing.

Section WithSqrt.

Variable sqrt : Q -> Q.

Definition calculateMagnitude (x y z : num) : num :=
  nsqrt sqrt (nadd (nadd (nmul x x) (nmul y y)) (nmul z z)).

Definition calculateMagnitudeArray (data : SensorData num) : list num :=
  let length := Nat.min (Nat.min (length (x data)) (length (y data))) (length (z data)) in
  map (fun i => calculateMagnitude (nth i (x data) NaN) (nth i (y data) NaN) (nth i (z data) NaN))
      (seq 0 length).

Definition mean_of (magnitude : list num) : num :=
  ndiv (reduce_sum (fun val => val) magnitude) (of_nat (length magnitude)).

Definition calculateTremorAmplitude (magnitude : list num) : num :=
  if Nat.eqb (length magnitude) 0 then Fin 0
  else
    let mean := mean_of magnitude in
    let deviations := map (fun val => nabs (nsub val mean)) magnitude in
    ndiv (reduce_sum (fun val => val) deviations) (of_nat (length deviations)).

Definition calculateVariability (magnitude : list num) : num :=
  if Nat.eqb (length magnitude) 0 then Fin 0
  else
    let mean := mean_of magnitude in
    let variance :=
      ndiv (reduce_sum (fun val => nmul (nsub val mean) (nsub val mean)) magnitude)
           (of_nat (length magnitude)) in
    nsqrt sqrt variance.

(** [Math.max(...deviations)] is the maximum from [-Infinity]; the limit
    that an engine puts on the number of spread arguments is not
    modelled. *)
Definition calculatePeakAmplitude (magnitude : list num) : num :=
  if Nat.eqb (length magnitude) 0 then Fin 0
  else
    let mean := mean_of magnitude in
    let deviations := map (fun val => nabs (nsub val mean)) magnitude in
    fold_left nmax deviations NInf.

Definition calculateStats (magnitude : list num) : RecordingStats num :=
  {| meanAmplitude := calculateTremorAmplitude magnitude;
     variability := calculateVariability magnitude;
     peakAmplitude := calculatePeakAmplitude magnitude |}.

(** The z-score of [val] in [detectAnomalies]. *)
Definition zScore (mean stdDev val : num) : num :=
  nabs (ndiv (nsub val mean) stdDev).

(** The [forEach] of [detectAnomalies], from index [index] on. *)
Fixpoint anomalies_from (mean stdDev threshold : num) (magnitude : list num) (index : nat)
  : list nat :=
  match magnitude with
  | [] => []
  | val :: rest =>
      if ngt (zScore mean stdDev val) threshold
      then index :: anomalies_from mean stdDev threshold rest (S index)
      else anomalies_from mean stdDev threshold rest (S index)
  end.

Definition detectAnomalies (magnitude : list num) (threshold : num) : list nat :=
  if Nat.eqb (length magnitude) 0 then []
  else
    let mean := mean_of magnitude in
    let stdDev := calculateVariability magnitude in
    anomalies_from mean stdDev threshold magnitude 0.

End WithSqrt.

(** The average of the window of [smoothData] around index [i]. *)
Definition window_average (data : list num) (halfWindow : Z) (i : nat) : num :=
  let start := Z.max 0 (Z.of_nat i - halfWindow) in
  let end_ := Z.min (Z.of_nat (length data)) (Z.of_nat i + halfWindow + 1) in
  let window := slice data start end_ in
  ndiv (reduce_sum (fun val => val) window) (of_nat (length window)).

Definition smoothData (data : list num) (windowSize : Q) : list num :=
  if Nat.eqb (length data) 0 then []
  else if Qle_bool (inject_Z (Z.of_nat (length data))) windowSize then data
  else
    let halfWindow := Qfloor (windowSize / 2) in
    map (window_average data halfWindow) (seq 0 (length data)).

End SignalProcessing.

Import SignalProcessing.

(* ================================================================= *)
(** ** Trend analysis (utils/analysis.ts) *)

Module Analysis.

(** A session as [loadAllSessions] yields it. *)
#[warnings="-notation-for-abbreviation"] Notation Session := (RecordingSession Q).

Definition Trend_eqb (a b : Trend) : bool :=
  match a, b with
  | trend_stable, trend_stable
  | trend_increasing, trend_increasing
  | trend_decreasing, trend_decreasing => true
  | _, _ => false
  end.

Definition classifyStability (currentVariability baselineVariability : num) (trend : Trend)
  : StabilityClassification :=
  let ratio := ndiv currentVariability (nor baselineVariability (Fin 1)) in
  if nlt ratio (Fin 1.1) && Trend_eqb trend trend_stable then
    {| type := stable; confidence := 0.9 |}
  else if ngt ratio (Fin 1.5) || Trend_eqb trend trend_increasing then
    {| type := increasing; confidence := 0.8 |}
  else if ngt ratio (Fin 1.2) then
    {| type := variable; confidence := 0.7 |}
  else
    {| type := irregular; confidence := 0.6 |}.

(** [s.stats.variability] *)
Definition variability_of (s : Session) : num := Fin (variability (stats s)).

Definition calculateBaseline (sessions : list Session) : num :=
  if Nat.eqb (length sessions) 0 then Fin 0
  else
    let variabilities := map variability_of sessions in
    let sorted := sort (fun a b => nsub a b) variabilities in
    let medianIndex := Nat.div (length sorted) 2 in
    if Nat.eqb (Nat.modulo (length sorted) 2) 0
    then ndiv (nadd (nth (medianIndex - 1) sorted NaN) (nth medianIndex sorted NaN)) (Fin 2)
    else nth medianIndex sorted NaN.

(** [Date.now() - days * 24 * 60 * 60 * 1000] *)
Definition cutoff_of (now days : Z) : Z := (now - days * 24 * 60 * 60 * 1000)%Z.

(** [sessions.filter(s => s.timestamp >= cutoff)] *)
Definition since (cutoff : Z) (sessions : list Session) : list Session :=
  filter (fun s => (cutoff <=? timestamp s)%Z) sessions.

(** The comparators [(a, b) => a.timestamp - b.timestamp] and
    [(a, b) => b.timestamp - a.timestamp]. *)
Definition by_time_asc (a b : Session) : num := of_Z (timestamp a - timestamp b).
Definition by_time_desc (a b : Session) : num := of_Z (timestamp b - timestamp a).

(** [l.reduce((sum, v) => sum + v, 0) / l.length] *)
Definition average (l : list num) : num :=
  ndiv (reduce_sum (fun v => v) l) (of_nat (length l)).

Definition detectTrend (now : Z) (sessions : list Session) (days : Z) : Trend :=
  if Nat.ltb (length sessions) 3 then trend_stable
  else
    let cutoff := cutoff_of now days in
    let recent := sort by_time_asc (since cutoff sessions) in
    if Nat.ltb (length recent) 3 then trend_stable
    else
      let variabilities := map variability_of recent in
      let firstHalf := slice variabilities 0 (Z.of_nat (Nat.div (length variabilities) 2)) in
      let secondHalf := slice_from variabilities (Z.of_nat (Nat.div (length variabilities) 2)) in
      let firstAvg := average firstHalf in
      let secondAvg := average secondHalf in
      let change := ndiv (nsub secondAvg firstAvg) firstAvg in
      if ngt change (Fin 0.15) then trend_increasing
      else if nlt change (Fin (- 0.15)) then trend_decreasing
      else trend_stable.

(** [s.context?.flag], as a condition. *)
Definition flagged (flag : RecordingContext -> option bool) (s : Session) : bool :=
  match context s with
  | Some c => match flag c with Some true => true | _ => false end
  | None => false
  end.

(** [sessions.reduce((sum, s) => sum + s.stats.variability, 0) / sessions.length] *)
Definition average_variability (sessions : list Session) : num :=
  ndiv (reduce_sum variability_of sessions) (of_nat (length sessions)).

(** The relative difference [(a - b) / b]. *)
Definition relative_difference (a b : num) : num := ndiv (nsub a b) b.

(** One of the two correlation blocks of [generateTrendAnalysis]: the
    entries pushed for the flag [flag], named [name] in the entry and
    introduced by [subject] in the description. *)
Definition correlation_of (flag : RecordingContext -> option bool) (name subject : string)
    (sessions : list Session) : list Correlation :=
  let flagSessions := filter (fun s => flagged flag s) sessions in
  let noFlagSessions := filter (fun s => negb (flagged flag s)) sessions in
  if Nat.ltb 2 (length flagSessions) && Nat.ltb 2 (length noFlagSessions) then
    let flagAvg := average_variability flagSessions in
    let noFlagAvg := average_variability noFlagSessions in
    let diff := relative_difference flagAvg noFlagAvg in
    if ngt (nabs diff) (Fin 0.1) then
      [ {| correlation_context := name;
           impact := if ngt diff (Fin 0) then negative else positive;
           description :=
             (subject ++ " show " ++ toFixed0 (nabs (nmul diff (Fin 100))) ++ "% "
              ++ (if ngt diff (Fin 0) then "higher" else "lower") ++ " variability.")%string |} ]
    else []
  else [].

Definition no_data_summary : string :=
  "No data available yet. Start recording to see insights.".

Section WithSqrt.

Variable sqrt : Q -> Q.

Definition generateTrendAnalysis (now : Z) (sessions : list Session)
  : completion TrendAnalysis :=
  if Nat.eqb (length sessions) 0 then
    Return {| stabilityScore := Fin 50;
              classification := {| type := stable; confidence := 0.5 |};
              summary := no_data_summary;
              anomalies := [];
              correlations := [] |}
  else
    let baseline := calculateBaseline sessions in
    let recentSessions := sort by_time_desc (since (cutoff_of now 7) sessions) in
    let trend := detectTrend now sessions 7 in
    (* [latest = recentSessions[0]]; reading [latest.stats] of [undefined] throws *)
    match nth_error recentSessions 0 with
    | None => Throw "TypeError"
    | Some latest =>
        let classification := classifyStability (variability_of latest) baseline trend in
        let variabilityRatio := ndiv (variability_of latest) (nor baseline (Fin 1)) in
        let stabilityScore :=
          nmax (Fin 0)
               (nmin (Fin 100)
                     (nsub (Fin 100) (nmul (nsub variabilityRatio (Fin 1)) (Fin 50)))) in
        let magnitude := map Fin (magnitude latest) in
        let anomalyIndices := detectAnomalies sqrt magnitude (Fin 2) in
        let anomalies :=
          if ngt (of_nat (length anomalyIndices)) (nmul (of_nat (length magnitude)) (Fin 0.1))
          then ["Unusual motion patterns detected in recent recording"%string]
          else [] in
        let summaries1 :=
          match trend with
          | trend_increasing =>
              ["Your motion variability has increased slightly over the past week."%string]
          | trend_decreasing =>
              ["Your motion variability has decreased, showing improved stability."%string]
          | trend_stable =>
              ["Your motion patterns have remained relatively stable."%string]
          end in
        let summaries2 :=
          if Nat.ltb 0 (length recentSessions) then
            let avgVariability := average_variability recentSessions in
            if ngt avgVariability (nmul baseline (Fin 1.2))
            then ["Recent recordings show higher variability compared to your baseline."%string]
            else []
          else [] in
        let correlations :=
          correlation_of caffeine "Caffeine" "Sessions with caffeine" sessions
          ++ correlation_of stress "Stress" "Sessions marked as stressful" sessions in
        Return {| stabilityScore := nround stabilityScore;
                  classification := classification;
                  summary := String.concat " " (summaries1 ++ summaries2);
                  anomalies := anomalies;
                  correlations := correlations |}
    end.

End WithSqrt.

End Analysis.

Import Analysis.

(* ================================================================= *)
(** ** Settings storage (utils/storage.ts) *)

Module Storage.

(** A JSON value.  The members of an object are kept in the order of the
    text; a repeated key takes its last value. *)
#[warnings="-register-all"] Inductive json : Type :=
| JNull
| JBool (b : bool)
| JNum (q : Q)
| JStr (s : string)
| JArr (items : list json)
| JObj (members : list (string * json)).

(** A JavaScript object used as a record: its own enumerable properties as
    an association list in which the last binding of a key is the current
    one. *)
Definition object (V : Type) : Type := list (string * V).

Fixpoint obj_get {V : Type} (k : string) (o : object V) : option V :=
  match o with
  | [] => None
  | (k', v) :: rest =>
      match obj_get k rest with
      | Some v' => Some v'
      | None => if String.eqb k k' then Some v else None
      end
  end.

(** [Object.keys]-style numbering of the elements of an array or string. *)
Fixpoint indexed {V : Type} (from : N) (l : list V) : object V :=
  match l with
  | [] => []
  | v :: rest => (digits from, v) :: indexed (N.succ from) rest
  end.

Fixpoint chars (s : string) : list json :=
  match s with
  | EmptyString => []
  | String c rest => JStr (String c EmptyString) :: chars rest
  end.

(** The own enumerable properties that a spread [...v] copies. *)
Definition own_properties (v : json) : object json :=
  match v with
  | JObj members => members
  | JArr items => indexed 0 items
  | JStr s => indexed 0 (chars s)
  | JNull | JBool _ | JNum _ => []
  end.

(** [{ ...a, ...b }] *)
Definition spread (a : object json) (b : json) : object json := a ++ own_properties b.

(** [v.k], for a key [k] that is an own property or absent. *)
Definition property (k : string) (v : json) : option json := obj_get k (own_properties v).

Definition SETTINGS_KEY : string := "@tremorsense:settings".

Definition DEFAULT_SETTINGS : object json :=
  [ ("samplingRate"%string, JStr "medium");
    ("recordingDuration"%string, JNum 10);
    ("theme"%string, JStr "dark") ].

(** The module-level state of the storage utilities. *)
Record Store : Type := {
  isAsyncStorageAvailable : bool;
  memoryStorage : object string
}.

(** [s || null] for a string or [undefined]: the empty string is falsy. *)
Definition or_null (s : option string) : option string :=
  match s with
  | Some EmptyString => None
  | _ => s
  end.

Section WithEnvironment.

(** The outcome of awaiting [AsyncStorage.getItem(key)], and [JSON.parse]. *)
Variable AsyncStorage_getItem : string -> completion (option string).
Variable JSON_parse : string -> completion json.

(** The read that opens [loadSettings]: the stored text, with the
    in-memory fallback when the primary store fails. *)
Definition read_item (key : string) (st : Store) : option string * Store :=
  if isAsyncStorageAvailable st then
    match AsyncStorage_getItem key with
    | Return data => (data, st)
    | Throw _ =>
        (or_null (obj_get key (memoryStorage st)),
         {| isAsyncStorageAvailable := false; memoryStorage := memoryStorage st |})
    end
  else (or_null (obj_get key (memoryStorage st)), st).

Definition loadSettings (st : Store) : object json * Store :=
  let (data, st') := read_item SETTINGS_KEY st in
  match or_null data with
  | None => (DEFAULT_SETTINGS, st')
  | Some text =>
      match JSON_parse text with
      | Return settings => (spread DEFAULT_SETTINGS settings, st')
      | Throw _ => (DEFAULT_SETTINGS, st')
      end
  end.

End WithEnvironment.

(** The values the type [AppSettings] admits for a field. *)
Definition recognized (k : string) (v : json) : bool :=
  if String.eqb k "samplingRate" then
    match v with
    | JStr s => String.eqb s "low" || String.eqb s "medium" || String.eqb s "high"
    | _ => false
    end
  else if String.eqb k "recordingDuration" then
    match v with JNum _ => true | _ => false end
  else if String.eqb k "theme" then
    match v with
    | JStr s => String.eqb s "light" || String.eqb s "dark" || String.eqb s "auto"
    | _ => false
    end
  else false.

Definition settings_field (k : string) : Prop :=
  k = "samplingRate"%string \/ k = "recordingDuration"%string \/ k = "theme"%string.

End Storage.

(* ================================================================= *)
(** ** Recording (hooks/useSensors.ts, hooks/useRecording.ts) *)

Module Recording.

Record Vec3 : Type := { vx : num; vy : num; vz : num }.

Record SensorReading : Type := {
  reading_accelerometer : Vec3;
  reading_gyroscope : Vec3;
  reading_timestamp : Z
}.

(** The state of [useRecording] and of the [useSensors] it calls.
    [isRecording] is the React state as last set; [enabled] is the value
    of [isRecording] that the effects of [useSensors] last ran with. *)
Record Hooks : Type := {
  isRecording : bool;
  enabled : bool;
  progress : num;
  error : option string;
  readingsRef : list SensorReading;
  readings : list SensorReading;
  startTimeRef : option Z;
  progressIntervalRef : bool
}.

(** [clearReadings] of [useSensors] *)
Definition clearReadings (h : Hooks) : Hooks :=
  {| isRecording := isRecording h; enabled := enabled h; progress := progress h;
     error := error h; readingsRef := []; readings := [];
     startTimeRef := startTimeRef h; progressIntervalRef := progressIntervalRef h |}.

(** [getReadings] of [useSensors] *)
Definition getReadings (h : Hooks) : list SensorReading := readingsRef h.

(** The render that follows a change of state: [useSensors] is called with
    [enabled = isRecording], and its second effect, whose dependencies
    hold [enabled], runs again when that value changed; with [enabled]
    false it empties the buffer. *)
Definition render (h : Hooks) : Hooks :=
  if Bool.eqb (enabled h) (isRecording h) then h
  else if negb (isRecording h) then
    {| isRecording := isRecording h; enabled := isRecording h; progress := progress h;
       error := error h; readingsRef := []; readings := [];
       startTimeRef := startTimeRef h; progressIntervalRef := progressIntervalRef h |}
  else
    {| isRecording := isRecording h; enabled := isRecording h; progress := progress h;
       error := error h; readingsRef := readingsRef h; readings := readings h;
       startTimeRef := startTimeRef h; progressIntervalRef := progressIntervalRef h |}.

Section WithEnvironment.

Variable sqrt : Q -> Q.
Variable duration : num.
Variable context : option RecordingContext.

(** [stopRecording] up to its [await]: the hook state, and the session
    handed to [saveSession], or [None] when [null] is returned at once. *)
Definition stopRecording_begin (now : Z) (random : string) (h : Hooks)
  : Hooks * option (RecordingSession num) :=
  let h1 :=
    {| isRecording := false; enabled := enabled h; progress := Fin 0;
       error := error h; readingsRef := readingsRef h; readings := readings h;
       startTimeRef := startTimeRef h; progressIntervalRef := false |} in
  let allReadings := getReadings h1 in
  if Nat.eqb (length allReadings) 0 then
    ({| isRecording := isRecording h1; enabled := enabled h1; progress := progress h1;
        error := Some "No data collected"%string;
        readingsRef := readingsRef h1; readings := readings h1;
        startTimeRef := startTimeRef h1; progressIntervalRef := progressIntervalRef h1 |},
     None)
  else
    let accelerometer :=
      {| x := map (fun r => vx (reading_accelerometer r)) allReadings;
         y := map (fun r => vy (reading_accelerometer r)) allReadings;
         z := map (fun r => vz (reading_accelerometer r)) allReadings |} in
    let gyroscope :=
      {| x := map (fun r => vx (reading_gyroscope r)) allReadings;
         y := map (fun r => vy (reading_gyroscope r)) allReadings;
         z := map (fun r => vz (reading_gyroscope r)) allReadings |} in
    let magnitude := calculateMagnitudeArray sqrt accelerometer in
    let stats := calculateStats sqrt magnitude in
    let session :=
      {| id := ("session_" ++ digits (Z.to_N now) ++ "_" ++ random)%string;
         timestamp := match startTimeRef h1 with
                      | Some t => if (t =? 0)%Z then now else t
                      | None => now
                      end;
         Types.duration := duration;
         Types.accelerometer := accelerometer;
         Types.gyroscope := gyroscope;
         Types.magnitude := magnitude;
         Types.stats := stats;
         Types.context := context |} in
    (h1, Some session).

(** [stopRecording] after its [await], [saved] telling whether
    [saveSession] resolved: the hook state and the value returned. *)
Definition stopRecording_end (saved : bool) (session : RecordingSession num) (h : Hooks)
  : Hooks * option (RecordingSession num) :=
  if saved then
    let h1 := clearReadings h in
    ({| isRecording := isRecording h1; enabled := enabled h1; progress := progress h1;
        error := error h1; readingsRef := readingsRef h1; readings := readings h1;
        startTimeRef := None; progressIntervalRef := progressIntervalRef h1 |},
     Some session)
  else
    ({| isRecording := isRecording h; enabled := enabled h; progress := progress h;
        error := Some "Failed to save session"%string;
        readingsRef := readingsRef h; readings := readings h;
        startTimeRef := startTimeRef h; progressIntervalRef := progressIntervalRef h |},
     None).

(** A whole call of [stopRecording] together with the render that its
    [setIsRecording(false)] causes, which happens before the save settles
    ([render_first]) or after it. *)
Definition stopRecording (render_first saved : bool) (now : Z) (random : string) (h : Hooks)
  : Hooks * option (RecordingSession num) :=
  match stopRecording_begin now random h with
  | (h1, None) => (render h1, None)
  | (h1, Some session) =>
      if render_first then stopRecording_end saved session (render h1)
      else
        let (h2, result) := stopRecording_end saved session h1 in
        (render h2, result)
  end.

End WithEnvironment.

End Recording.

(* ================================================================= *)
(** ** Grouping by day and rolling average (utils/analysis.ts) *)

Module Grouping.

(** A [Map<string, RecordingSession[]>]: its entries in insertion order,
    the keys distinct. *)
Definition DayMap : Type := list (string * list (RecordingSession Q)).

Fixpoint map_has (k : string) (m : DayMap) : bool :=
  match m with
  | [] => false
  | (k', _) :: rest => String.eqb k k' || map_has k rest
  end.

Fixpoint map_get (k : string) (m : DayMap) : option (list (RecordingSession Q)) :=
  match m with
  | [] => None
  | (k', l) :: rest => if String.eqb k k' then Some l else map_get k rest
  end.

(** [m.set(k, [])] for a key that [m] does not have. *)
Definition map_set_empty (k : string) (m : DayMap) : DayMap := m ++ [(k, [])].

(** [m.get(k)!.push(s)] *)
Fixpoint map_push (k : string) (s : RecordingSession Q) (m : DayMap) : DayMap :=
  match m with
  | [] => []
  | (k', l) :: rest =>
      if String.eqb k k' then (k', l ++ [s]) :: rest else (k', l) :: map_push k s rest
  end.

(** [Array.from(m.keys())] *)
Definition map_keys (m : DayMap) : list string := map fst m.

(** The comparison of the default [sort()], on strings. *)
Definition string_compare (a b : string) : num :=
  match String.compare a b with
  | Lt => Fin (-1)
  | Eq => Fin 0
  | Gt => Fin 1
  end.

Section WithCalendar.

(** [dayKey t] is the key that [groupSessionsByDay] builds from
    [new Date(t)]: the local year, month and day as [YYYY-MM-DD]. *)
Variable dayKey : Z -> string.

Definition groupSessionsByDay (sessions : list (RecordingSession Q)) : DayMap :=
  fold_left
    (fun grouped session =>
       let key := dayKey (timestamp session) in
       let grouped' := if map_has key grouped then grouped else map_set_empty key grouped in
       map_push key session grouped')
    sessions [].

(** One turn of the loop of [calculateRollingAverage]: the entries pushed
    for the index [i]. *)
Definition rolling_entry (grouped : DayMap) (sortedDays : list string) (windowDays : Z)
    (i : nat) : list (string * num) :=
  let windowStart :=
    if (windowDays <=? Z.of_nat i)%Z then (Z.of_nat i - windowDays + 1)%Z else 0%Z in
  let windowDaysList := slice sortedDays windowStart (Z.of_nat i + 1) in
  let windowSessions :=
    flat_map (fun day => match map_get day grouped with Some l => l | None => [] end)
             windowDaysList in
  if Nat.ltb 0 (length windowSessions) then
    [(nth i sortedDays EmptyString, Analysis.average_variability windowSessions)]
  else [].

Definition calculateRollingAverage (sessions : list (RecordingSession Q)) (windowDays : Z)
  : list (string * num) :=
  let grouped := groupSessionsByDay sessions in
  let sortedDays := sort string_compare (map_keys grouped) in
  flat_map (rolling_entry grouped sortedDays windowDays) (seq 0 (length sortedDays)).

End WithCalendar.

End Grouping.

(* ================================================================= *)
(** ** Session storage (utils/storage.ts) *)

Module SessionStore.

Import Storage.

Definition SESSIONS_KEY : string := "@tremorsense:sessions".

(** Truthiness of a JSON value. *)
Definition truthy_json (v : json) : bool :=
  match v with
  | JNull => false
  | JBool b => b
  | JNum q => negb (Qeq_bool q 0)
  | JStr s => negb (String.eqb s "")
  | JArr _ | JObj _ => true
  end.

(** Truthiness of [v.k], [undefined] when the property is absent. *)
Definition has_truthy (k : string) (v : json) : bool :=
  match property k v with
  | Some field => truthy_json field
  | None => false
  end.

(** The validation callback of [loadAllSessions]; reading a property of
    [null] throws. *)
Definition valid_session (session : json) : completion bool :=
  match session with
  | JNull => Throw "TypeError"
  | _ =>
      Return (has_truthy "id" session && has_truthy "timestamp" session
              && has_truthy "accelerometer" session && has_truthy "gyroscope" session
              && has_truthy "magnitude" session)
  end.

(** [items.filter(valid_session)] *)
Fixpoint filter_valid (items : list json) : completion (list json) :=
  match items with
  | [] => Return []
  | item :: rest =>
      match valid_session item with
      | Throw e => Throw e
      | Return keep =>
          match filter_valid rest with
          | Throw e => Throw e
          | Return kept => Return (if keep then item :: kept else kept)
          end
      end
  end.

(** [s.id === sessionId] *)
Definition has_id (sessionId : string) (s : json) : bool :=
  match property "id" s with
  | Some (JStr i) => String.eqb i sessionId
  | _ => false
  end.

(** [sessionIds.includes(s.id)] *)
Definition id_among (sessionIds : list string) (s : json) : bool :=
  existsb (fun i => has_id i s) sessionIds.

(** [memoryStorage[key] = data] and [delete memoryStorage[key]] *)
Definition memory_set (key data : string) (st : Store) : Store :=
  {| isAsyncStorageAvailable := isAsyncStorageAvailable st;
     memoryStorage := memoryStorage st ++ [(key, data)] |}.

Definition memory_delete (key : string) (st : Store) : Store :=
  {| isAsyncStorageAvailable := isAsyncStorageAvailable st;
     memoryStorage := filter (fun kv => negb (String.eqb key (fst kv))) (memoryStorage st) |}.

Definition unavailable (st : Store) : Store :=
  {| isAsyncStorageAvailable := false; memoryStorage := memoryStorage st |}.

Section WithEnvironment.

(** The primary store: its state [P] and the outcome of awaiting its
    three calls, a rejected call leaving the state as it was.
    [JSON.stringify] and [JSON.parse] are arguments too. *)
Variable P : Type.
Variable getItem : P -> string -> completion (option string).
Variable setItem : P -> string -> string -> completion P.
Variable removeItem : P -> string -> completion P.
Variable JSON_stringify : json -> completion string.
Variable JSON_parse : string -> completion json.

Definition loadAllSessions (st : Store) (p : P) : list json * Store :=
  let (data, st') := read_item (getItem p) SESSIONS_KEY st in
  match or_null data with
  | None => ([], st')
  | Some text =>
      match JSON_parse text with
      | Return (JArr items) =>
          match filter_valid items with
          | Return sessions => (sessions, st')
          | Throw _ => ([], st')
          end
      | Return _ => ([], st')
      | Throw _ => ([], st')
      end
  end.

(** The fallback of [saveSession], entered with the error caught. *)
Definition saveSession_fallback (error : string) (session : json) (st : Store) (p : P)
  : completion unit * Store * P :=
  let (sessions, st') := loadAllSessions st p in
  match JSON_stringify (JArr (sessions ++ [session])) with
  | Return data => (Return tt, memory_set SESSIONS_KEY data st', p)
  | Throw _ => (Throw error, st', p)
  end.

Definition saveSession (session : json) (st : Store) (p : P) : completion unit * Store * P :=
  let (sessions, st') := loadAllSessions st p in
  match JSON_stringify (JArr (sessions ++ [session])) with
  | Return data =>
      if isAsyncStorageAvailable st' then
        match setItem p SESSIONS_KEY data with
        | Return p' => (Return tt, st', p')
        | Throw error => saveSession_fallback error session st' p
        end
      else (Return tt, memory_set SESSIONS_KEY data st', p)
  | Throw error => saveSession_fallback error session st' p
  end.

(** The write shared by [deleteSession], [deleteSessions] and
    [saveSettings]: to the primary store, or to memory when it is not
    available or rejects the write. *)
Definition write_item (key data : string) (st : Store) (p : P) : Store * P :=
  if isAsyncStorageAvailable st then
    match setItem p key data with
    | Return p' => (st, p')
    | Throw _ => (memory_set key data (unavailable st), p)
    end
  else (memory_set key data st, p).

Definition deleteSession (sessionId : string) (st : Store) (p : P)
  : completion unit * Store * P :=
  let (sessions, st') := loadAllSessions st p in
  let filtered := filter (fun s => negb (has_id sessionId s)) sessions in
  match JSON_stringify (JArr filtered) with
  | Return data => let (st'', p') := write_item SESSIONS_KEY data st' p in (Return tt, st'', p')
  | Throw error => (Throw error, st', p)
  end.

Definition deleteSessions (sessionIds : list string) (st : Store) (p : P)
  : completion unit * Store * P :=
  let (sessions, st') := loadAllSessions st p in
  let filtered := filter (fun s => negb (id_among sessionIds s)) sessions in
  match JSON_stringify (JArr filtered) with
  | Return data => let (st'', p') := write_item SESSIONS_KEY data st' p in (Return tt, st'', p')
  | Throw error => (Throw error, st', p)
  end.

Definition clearAllSessions (st : Store) (p : P) : completion unit * Store * P :=
  if isAsyncStorageAvailable st then
    match removeItem p SESSIONS_KEY with
    | Return p' => (Return tt, st, p')
    | Throw _ => (Return tt, memory_delete SESSIONS_KEY (unavailable st), p)
    end
  else (Return tt, memory_delete SESSIONS_KEY st, p).

Definition saveSettings (settings : json) (st : Store) (p : P) : completion unit * Store * P :=
  match JSON_stringify settings with
  | Return data => let (st', p') := write_item SETTINGS_KEY data st p in (Return tt, st', p')
  | Throw error => (Throw error, st, p)
  end.

End WithEnvironment.

End SessionStore.

(* ================================================================= *)
(** ** Numbers as IEEE doubles *)

(** The JavaScript [number] itself: a binary64 with its rounding, its two
    zeros, its infinities and [NaN].  [+], [-], [*], [/], [<] and
    [Math.abs] are the primitive operations of [PrimFloat] (round to
    nearest, ties to even), and a decimal literal denotes the nearest
    double, as in JavaScript. *)

Module Float64.

Import PrimFloat SpecFloat FloatOps.
#[local] Open Scope float_scope.

(** [a > b] *)
Definition gtb (a b : float) : bool := b <? a.

(** Truthiness of a number: [0], [-0] and [NaN] are falsy. *)
Definition truthy (a : float) : bool := negb (is_zero a || is_nan a).

(** [a || b] on numbers *)
Definition or_else (a b : float) : float := if truthy a then a else b.

(** The double nearest to an integer: the integer itself up to [2^53]. *)
Definition of_Z (z : Z) : float := SF2Prim (binary_normalize prec emax z 0 false).
Definition of_nat (n : nat) : float := of_Z (Z.of_nat n).

(** [Math.max(a, b)] and [Math.min(a, b)]: [NaN] as soon as one argument
    is [NaN], and [-0] below [+0]. *)
Definition Math_max (a b : float) : float :=
  if is_nan a || is_nan b then nan
  else if a <? b then b
  else if b <? a then a
  else if get_sign a then b else a.

Definition Math_min (a b : float) : float :=
  if is_nan a || is_nan b then nan
  else if a <? b then a
  else if b <? a then b
  else if get_sign a then a else b.

(** The integer [floor(m * 2^e + 1/2)], for [e < 0]. *)
Definition round_half_up (m e : Z) : Z := ((2 * m + 2 ^ (- e)) / 2 ^ (1 - e))%Z.

(** [Math.round]: the nearest integer, a tie going up, computed on the
    exact value [m * 2^e] of the double; a negative number that rounds to
    zero gives [-0]. *)
Definition Math_round (x : float) : float :=
  match Prim2SF x with
  | S754_finite s m e =>
      if (0 <=? e)%Z then x
      else SF2Prim (binary_normalize prec emax
                      (round_half_up (if s then Z.neg m else Z.pos m) e) 0 s)
  | _ => x
  end.

Section WithToString.

(** [Number::toString], which [toFixed] falls back on from [1e21] on. *)
Variable Number_toString : float -> string.

(** [x.toFixed(0)]: the digits of the integer nearest to the exact value
    of [|x|], a tie going up, after the sign of [x]. *)
Definition toFixed0 (x : float) : string :=
  match Prim2SF x with
  | S754_nan => "NaN"%string
  | S754_infinity s => if s then "-Infinity"%string else "Infinity"%string
  | S754_zero _ => "0"%string
  | S754_finite s m e =>
      if 1e21 <=? abs x then Number_toString x
      else
        let n := if (0 <=? e)%Z then (Z.pos m * 2 ^ e)%Z else round_half_up (Z.pos m) e in
        ((if s then "-" else "") ++ digits (Z.to_N n))%string
  end.

End WithToString.

(** [l.sort(cmp)] for a comparator on doubles: the stable insertion of
    [JS.sort]. *)
Fixpoint sort_insert {A : Type} (cmp : A -> A -> float) (x : A) (l : list A) : list A :=
  match l with
  | [] => [x]
  | y :: l' => if gtb (cmp x y) 0 then y :: sort_insert cmp x l' else x :: l
  end.

Fixpoint sort {A : Type} (cmp : A -> A -> float) (l : list A) : list A :=
  match l with
  | [] => []
  | x :: l' => sort_insert cmp x (sort cmp l')
  end.

(** [l.reduce((sum, v) => sum + f(v), 0)] *)
Definition reduce_sum {A : Type} (f : A -> float) (l : list A) : float :=
  fold_left (fun sum v => sum + f v) l 0.

End Float64.

(* ================================================================= *)
(** ** Signal processing over doubles (utils/signalProcessing.ts) *)

Module SignalProcessing64.

Import PrimFloat Float64.
#[local] Open Scope float_scope.

Section WithMath.

(** [Math.sqrt] and [Math.pow], whose results the language leaves to the
    implementation. *)
Variable Math_sqrt : float -> float.
Variable Math_pow : float -> float -> float.

Definition mean_of (magnitude : list float) : float :=
  reduce_sum (fun val => val) magnitude / of_nat (length magnitude).

Definition calculateVariability (magnitude : list float) : float :=
  if Nat.eqb (length magnitude) 0 then 0
  else
    let mean := mean_of magnitude in
    let variance :=
      reduce_sum (fun val => Math_pow (val - mean) 2) magnitude / of_nat (length magnitude) in
    Math_sqrt variance.

(** The z-score of [val] in [detectAnomalies]. *)
Definition zScore (mean stdDev val : float) : float := abs ((val - mean) / stdDev).

(** The [forEach] of [detectAnomalies], from index [index] on. *)
Fixpoint anomalies_from (mean stdDev threshold : float) (magnitude : list float) (index : nat)
  : list nat :=
  match magnitude with
  | [] => []
  | val :: rest =>
      if gtb (zScore mean stdDev val) threshold
      then index :: anomalies_from mean stdDev threshold rest (S index)
      else anomalies_from mean stdDev threshold rest (S index)
  end.

Definition detectAnomalies (magnitude : list float) (threshold : float) : list nat :=
  if Nat.eqb (length magnitude) 0 then []
  else
    let mean := mean_of magnitude in
    let stdDev := calculateVariability magnitude in
    anomalies_from mean stdDev threshold magnitude 0.

End WithMath.

End SignalProcessing64.

(* ================================================================= *)
(** ** Trend analysis over doubles (utils/analysis.ts) *)

Module Analysis64.

Import PrimFloat Float64 SignalProcessing64.
#[local] Open Scope float_scope.

(** A session whose numbers are doubles. *)
#[warnings="-notation-for-abbreviation"] Notation Session := (RecordingSession float).

(** The report, its score a double. *)
Record TrendAnalysis : Type := {
  stabilityScore : float;
  classification : StabilityClassification;
  summary : string;
  anomalies : list string;
  correlations : list Correlation
}.

Definition classifyStability (currentVariability baselineVariability : float) (trend : Trend)
  : StabilityClassification :=
  let ratio := currentVariability / or_else baselineVariability 1 in
  if (ratio <? 1.1) && Analysis.Trend_eqb trend trend_stable then
    {| type := stable; confidence := 0.9 |}
  else if gtb ratio 1.5 || Analysis.Trend_eqb trend trend_increasing then
    {| type := increasing; confidence := 0.8 |}
  else if gtb ratio 1.2 then
    {| type := variable; confidence := 0.7 |}
  else
    {| type := irregular; confidence := 0.6 |}.

(** [s.stats.variability] *)
Definition variability_of (s : Session) : float := variability (stats s).

Definition calculateBaseline (sessions : list Session) : float :=
  if Nat.eqb (length sessions) 0 then 0
  else
    let variabilities := map variability_of sessions in
    let sorted := sort (fun a b => a - b) variabilities in
    let medianIndex := Nat.div (length sorted) 2 in
    if Nat.eqb (Nat.modulo (length sorted) 2) 0
    then (nth (medianIndex - 1) sorted nan + nth medianIndex sorted nan) / 2
    else nth medianIndex sorted nan.

(** [sessions.filter(s => s.timestamp >= cutoff)] *)
Definition since (cutoff : Z) (sessions : list Session) : list Session :=
  filter (fun s => (cutoff <=? timestamp s)%Z) sessions.

(** The comparators [(a, b) => a.timestamp - b.timestamp] and
    [(a, b) => b.timestamp - a.timestamp].  Timestamps are integers of
    milliseconds, on which the arithmetic of doubles is exact: they and
    their differences stay integers. *)
Definition by_time_asc (a b : Session) : num := JS.of_Z (timestamp a - timestamp b).
Definition by_time_desc (a b : Session) : num := JS.of_Z (timestamp b - timestamp a).

Definition detectTrend (now : Z) (sessions : list Session) (days : Z) : Trend :=
  if Nat.ltb (length sessions) 3 then trend_stable
  else
    let cutoff := Analysis.cutoff_of now days in
    let recent := JS.sort by_time_asc (since cutoff sessions) in
    if Nat.ltb (length recent) 3 then trend_stable
    else
      let variabilities := map variability_of recent in
      let firstHalf := slice variabilities 0 (Z.of_nat (Nat.div (length variabilities) 2)) in
      let secondHalf := slice_from variabilities (Z.of_nat (Nat.div (length variabilities) 2)) in
      let firstAvg := reduce_sum (fun v => v) firstHalf / of_nat (length firstHalf) in
      let secondAvg := reduce_sum (fun v => v) secondHalf / of_nat (length secondHalf) in
      let change := (secondAvg - firstAvg) / firstAvg in
      if gtb change 0.15 then trend_increasing
      else if change <? -0.15 then trend_decreasing
      else trend_stable.

(** [s.context?.flag], as a condition. *)
Definition flagged (flag : RecordingContext -> option bool) (s : Session) : bool :=
  match context s with
  | Some c => match flag c with Some true => true | _ => false end
  | None => false
  end.

(** [sessions.reduce((sum, s) => sum + s.stats.variability, 0) / sessions.length] *)
Definition average_variability (sessions : list Session) : float :=
  reduce_sum variability_of sessions / of_nat (length sessions).

Section WithMath.

Variable Math_sqrt : float -> float.
Variable Math_pow : float -> float -> float.
Variable Number_toString : float -> string.

(** One of the two correlation blocks of [generateTrendAnalysis]: the
    entries pushed for the flag [flag], named [name] in the entry and
    introduced by [subject] in the description. *)
Definition correlation_of (flag : RecordingContext -> option bool) (name subject : string)
    (sessions : list Session) : list Correlation :=
  let flagSessions := filter (fun s => flagged flag s) sessions in
  let noFlagSessions := filter (fun s => negb (flagged flag s)) sessions in
  if Nat.ltb 2 (length flagSessions) && Nat.ltb 2 (length noFlagSessions) then
    let flagAvg := average_variability flagSessions in
    let noFlagAvg := average_variability noFlagSessions in
    let diff := (flagAvg - noFlagAvg) / noFlagAvg in
    if gtb (abs diff) 0.1 then
      [ {| correlation_context := name;
           impact := if gtb diff 0 then negative else positive;
           description :=
             (subject ++ " show " ++ toFixed0 Number_toString (abs (diff * 100)) ++ "% "
              ++ (if gtb diff 0 then "higher" else "lower") ++ " variability.")%string |} ]
    else []
  else [].

Definition generateTrendAnalysis (now : Z) (sessions : list Session)
  : completion TrendAnalysis :=
  if Nat.eqb (length sessions) 0 then
    Return {| stabilityScore := 50;
              classification := {| type := stable; confidence := 0.5 |};
              summary := Analysis.no_data_summary;
              anomalies := [];
              correlations := [] |}
  else
    let baseline := calculateBaseline sessions in
    let recentSessions := JS.sort by_time_desc (since (Analysis.cutoff_of now 7) sessions) in
    let trend := detectTrend now sessions 7 in
    (* [latest = recentSessions[0]]; reading [latest.stats] of [undefined] throws *)
    match nth_error recentSessions 0 with
    | None => Throw "TypeError"
    | Some latest =>
        let classification := classifyStability (variability_of latest) baseline trend in
        let variabilityRatio := variability_of latest / or_else baseline 1 in
        let stabilityScore :=
          Math_max 0 (Math_min 100 (100 - (variabilityRatio - 1) * 50)) in
        let anomalyIndices := detectAnomalies Math_sqrt Math_pow (magnitude latest) 2 in
        let anomalies :=
          if gtb (of_nat (length anomalyIndices)) (of_nat (length (magnitude latest)) * 0.1)
          then ["Unusual motion patterns detected in recent recording"%string]
          else [] in
        let summaries1 :=
          match trend with
          | trend_increasing =>
              ["Your motion variability has increased slightly over the past week."%string]
          | trend_decreasing =>
              ["Your motion variability has decreased, showing improved stability."%string]
          | trend_stable =>
              ["Your motion patterns have remained relatively stable."%string]
          end in
        let summaries2 :=
          if Nat.ltb 0 (length recentSessions) then
            let avgVariability := average_variability recentSessions in
            if gtb avgVariability (baseline * 1.2)
            then ["Recent recordings show higher variability compared to your baseline."%string]
            else []
          else [] in
        let correlations :=
          correlation_of caffeine "Caffeine" "Sessions with caffeine" sessions
          ++ correlation_of stress "Stress" "Sessions marked as stressful" sessions in
        Return {| stabilityScore := Math_round stabilityScore;
                  classification := classification;
                  summary := String.concat " " (summaries1 ++ summaries2);
                  anomalies := anomalies;
                  correlations := correlations |}
    end.

End WithMath.

End Analysis64.

(* ================================================================= *)
(** ** The notions of the specification *)

Module Spec.

Import Storage.

(** The sum of a list of rationals, added from the left as [reduce] does. *)
Definition Qsum (l : list Q) : Q := fold_left Qplus l 0.

(** The ascending numeric sort of rationals. *)
Definition Qsort (l : list Q) : list Q := sort (fun a b => nsub (Fin a) (Fin b)) l.

(** The baseline as a function of the variabilities alone. *)
Definition median (variabilities : list Q) : Q :=
  let sorted := Qsort variabilities in
  let n := length variabilities in
  if Nat.even n
  then (nth (n / 2 - 1) sorted 0 + nth (n / 2) sorted 0) / 2
  else nth (n / 2) sorted 0.

(** The average of a non-empty list of finite numbers. *)
Definition Qaverage (l : list Q) : Q := Qsum l / inject_Z (Z.of_nat (length l)).

(** The sessions of the last 7 days, most recent first. *)
Definition recentSessions (now : Z) (sessions : list Session) : list Session :=
  sort by_time_desc (filter (fun s => (now - 604800000 <=? timestamp s)%Z) sessions).

(** The score computed from the ratio, before rounding. *)
Definition raw_score (variabilityRatio : num) : num :=
  nmax (Fin 0)
       (nmin (Fin 100) (nsub (Fin 100) (nmul (nsub variabilityRatio (Fin 1)) (Fin 50)))).

(** The score of the specification: [clamp(lo, hi, x)] and its rounding. *)
Definition clamp (lo hi x : Q) : Q :=
  if Qlt_le_dec x lo then lo else if Qlt_le_dec hi x then hi else x.

(** The average variability of a group of sessions. *)
Definition group_average (group : list Session) : Q :=
  Qaverage (map (fun s => variability (stats s)) group).

(** The mean of the elements of [data] at the indices [lo], ..., [hi]. *)
Definition mean_between (data : list num) (lo hi : Z) : num :=
  let count := Z.to_nat (hi - lo + 1) in
  ndiv (fold_left nadd (map (fun j => nth j data NaN) (seq (Z.to_nat lo) count)) (Fin 0))
       (of_nat count).

(** The claim about one field as the specification words it: the stored
    value when it is present and recognized, the default otherwise. *)
Definition validated_field (k : string) (stored : json) (result : object json) : Prop :=
  match property k stored with
  | Some v =>
      if recognized k v then obj_get k result = Some v
      else obj_get k result = obj_get k DEFAULT_SETTINGS
  | None => obj_get k result = obj_get k DEFAULT_SETTINGS
  end.

(** The claim that every field is validated on load. *)
Definition loadSettings_validates : Prop :=
  forall (AsyncStorage_getItem : string -> completion (option string))
         (JSON_parse : string -> completion json) (st : Store) (text : string) (stored : json),
    or_null (fst (read_item AsyncStorage_getItem SETTINGS_KEY st)) = Some text ->
    JSON_parse text = Return stored ->
    forall k, settings_field k ->
      validated_field k stored (fst (loadSettings AsyncStorage_getItem JSON_parse st)).

End Spec.

Import Spec.

(* ================================================================= *)
(** ** Further notions used by the properties *)

Module Notions.

Import Storage SessionStore Grouping.

(** The confidence that goes with a type. *)
Definition confidence_of (t : StabilityType) : Q :=
  match t with
  | stable => 0.9
  | increasing => 0.8
  | variable => 0.7
  | irregular => 0.6
  end.

(** A record that passes the validation of [loadAllSessions]. *)
Definition is_valid (session : json) : bool :=
  match valid_session session with
  | Return true => true
  | _ => false
  end.

Section WithCalendar.

Variable dayKey : Z -> string.

(** The sessions of [l] that fall on the day [k]. *)
Definition on_day (k : string) (l : list Session) : list Session :=
  filter (fun s => String.eqb (dayKey (timestamp s)) k) l.

(** One turn of the loop of [groupSessionsByDay]. *)
Definition group_step (grouped : DayMap) (session : Session) : DayMap :=
  let key := dayKey (timestamp session) in
  map_push key session (if map_has key grouped then grouped else map_set_empty key grouped).

End WithCalendar.

Section WithPrimaryStore.

Variable P : Type.
Variable getItem : P -> string -> completion (option string).

(** The text that a read of [key] sees, [None] for nothing or the empty
    text. *)
Definition seen (key : string) (st : Store) (p : P) : option string :=
  or_null (fst (read_item (getItem p) key st)).

End WithPrimaryStore.

End Notions.

Import Notions.

(* ================================================================= *)
(** ** Notions of the specification, over doubles *)

Module Notions64.

Import PrimFloat SpecFloat Float64 SignalProcessing64 Analysis64.
#[local] Open Scope float_scope.

(** Zero of either sign, or [NaN]. *)
Definition zero_or_nan (x : float) : bool := is_zero x || is_nan x.

Definition SFzero_or_nan (x : spec_float) : bool :=
  match x with
  | S754_zero _ | S754_nan => true
  | _ => false
  end.

(** The sign of a number that is neither a zero nor [NaN]. *)
Definition sign_class (x : spec_float) : option bool :=
  match x with
  | S754_zero _ | S754_nan => None
  | S754_infinity s | S754_finite s _ _ => Some s
  end.

(** Equal as numbers, [NaN] being equal to itself: the equality of
    [Array.prototype.includes]. *)
Definition same_value (a b : float) : bool := (a =? b) || (is_nan a && is_nan b).

(** The sum of a list of doubles, added from the left as [reduce] does. *)
Definition sum (l : list float) : float := fold_left add l 0.

(** [clamp(lo, hi, x)] *)
Definition clamp (lo hi x : float) : float := Math_max lo (Math_min hi x).

(** The sessions of the last 7 days, most recent first. *)
Definition recentSessions (now : Z) (sessions : list Session) : list Session :=
  JS.sort by_time_desc (filter (fun s => (now - 604800000 <=? timestamp s)%Z) sessions).

(** The average variability of a group of sessions. *)
Definition group_average (group : list Session) : float :=
  sum (map (fun s => variability (stats s)) group) / of_nat (length group).

Section WithToString.

Variable Number_toString : float -> string.

(** The claim about one tracked flag: an entry named [name] is in the
    report exactly when both groups hold more than 2 sessions and the
    relative difference of their averages exceeds 10% in absolute value;
    its impact is "negative" with "higher" in the description when the
    difference is positive, "positive" with "lower" when it is negative,
    and the description cites the percentage rounded to an integer.
    Over a positive unflagged average the difference is positive exactly
    when the flagged average is the higher one, and negative exactly when
    it is the lower one. *)
Definition correlation_claim (flag : RecordingContext -> option bool) (name subject : string)
    (sessions : list Session) (report : TrendAnalysis) : Prop :=
  let flagSessions := filter (fun s => flagged flag s) sessions in
  let noFlagSessions := filter (fun s => negb (flagged flag s)) sessions in
  let f := group_average flagSessions in
  let u := group_average noFlagSessions in
  let difference := (f - u) / u in
  let percentage := toFixed0 Number_toString (abs (difference * 100)) in
  ((exists e, In e (correlations report) /\ correlation_context e = name) <->
   ((2 < length flagSessions)%nat /\ (2 < length noFlagSessions)%nat /\
    (0.1 <? abs difference) = true)) /\
  (forall e, In e (correlations report) -> correlation_context e = name ->
     ((0 <? difference) = true ->
      impact e = negative /\
      description e = (subject ++ " show " ++ percentage ++ "% higher variability.")%string) /\
     ((difference <? 0) = true ->
      impact e = positive /\
      description e = (subject ++ " show " ++ percentage ++ "% lower variability.")%string) /\
     ((0 <? u) = true ->
      (0 <? difference) = (u <? f) /\ (difference <? 0) = (f <? u))).

End WithToString.

End Notions64.

(* ================================================================= *)
(** ** Concrete histories, settings and recordings *)

Module Examples.

Import Storage Recording.

(** A square root to three decimals, for running the functions. *)
Definition sqrt_approx (q : Q) : Q := inject_Z (Z.sqrt (Qfloor (q * 1000000))) / 1000.

Definition no_axes : SensorData Q := {| x := []; y := []; z := [] |}.

Definition session_at (t : Z) (v : Q) (coffee : option bool) (samples : list Q) : Session :=
  {| id := "session";
     timestamp := t;
     duration := 10;
     accelerometer := no_axes;
     gyroscope := no_axes;
     magnitude := samples;
     stats := {| meanAmplitude := 0; variability := v; peakAmplitude := 0 |};
     context := Some {| caffeine := coffee; sleepDeprived := None;
                        stress := None; notes := None |} |}.

Definition day : Z := 86400000.
Definition today : Z := 20000 * day.

(** One session recorded 30 days ago. *)
Definition stale_history : list Session :=
  [session_at (today - 30 * day) 3 None [1; 2; 3]].

(** One session recorded today. *)
Definition fresh_history : list Session :=
  [session_at today 10 None [1; 2; 3]].

(** Four sessions with variabilities 1, 2, 3 and 4. *)
Definition four_sessions : list Session :=
  [session_at today 1 None []; session_at today 2 None [];
   session_at today 3 None []; session_at today 4 None []].

(** Five sessions with caffeine at variability 15, five without at 10. *)
Definition caffeine_history : list Session :=
  [session_at today 15 (Some true) [1]; session_at today 15 (Some true) [1];
   session_at today 15 (Some true) [1]; session_at today 15 (Some true) [1];
   session_at today 15 (Some true) [1];
   session_at today 10 (Some false) [1]; session_at today 10 None [1];
   session_at today 10 (Some false) [1]; session_at today 10 None [1];
   session_at today 10 (Some false) [1]].

Definition caffeine_report : TrendAnalysis :=
  {| stabilityScore := Fin 90;
     classification := {| type := irregular; confidence := 0.6 |};
     summary := "Your motion variability has decreased, showing improved stability.";
     anomalies := [];
     correlations :=
       [ {| correlation_context := "Caffeine"; impact := negative;
            description := "Sessions with caffeine show 50% higher variability." |} ] |}.

(** A store whose primary backend answers every read with the same text,
    and a parser that reads that text as an object with a theme that the
    application does not know. *)
Definition primary_store : Store :=
  {| isAsyncStorageAvailable := true; memoryStorage := [] |}.
Definition stored_text : string := "{theme: purple}".
Definition getItem_text (key : string) : completion (option string) :=
  Return (Some stored_text).
Definition getItem_nothing (key : string) : completion (option string) :=
  Return None.
Definition purple_settings : json := JObj [("theme"%string, JStr "purple")].
Definition parse_purple (text : string) : completion json := Return purple_settings.

(** A recording in progress with one reading in the buffer. *)
Definition one_reading : SensorReading :=
  {| reading_accelerometer := {| vx := Fin 0; vy := Fin 0; vz := Fin 1 |};
     reading_gyroscope := {| vx := Fin 0; vy := Fin 0; vz := Fin 0 |};
     reading_timestamp := today |}.
Definition recording_hooks : Hooks :=
  {| isRecording := true; enabled := true; progress := Fin 50; error := None;
     readingsRef := [one_reading]; readings := [one_reading];
     startTimeRef := Some today; progressIntervalRef := true |}.

End Examples.

(* ================================================================= *)
(** ** A key-value store, stored texts and a calendar to run the storage
       and grouping functions on *)

Module StoreExamples.

Import Storage SessionStore Recording Examples.

(** A primary store that accepts every call, one that rejects writes. *)
Definition kv : Type := object string.
Definition kv_get (p : kv) (key : string) : completion (option string) :=
  Return (obj_get key p).
Definition kv_set (p : kv) (key data : string) : completion kv := Return (p ++ [(key, data)]).
Definition kv_remove (p : kv) (key : string) : completion kv :=
  Return (filter (fun entry => negb (String.eqb key (fst entry))) p).
Definition kv_set_rejected (p : kv) (key data : string) : completion kv :=
  Throw "write rejected".

Definition record (name : string) : json :=
  JObj [("id"%string, JStr name); ("timestamp"%string, JNum 1700000000000);
        ("accelerometer"%string, JObj []); ("gyroscope"%string, JObj []);
        ("magnitude"%string, JArr [JNum 1])].

Definition dark_high : json :=
  JObj [("samplingRate"%string, JStr "high"); ("theme"%string, JStr "light")].

(** [JSON.stringify] and [JSON.parse] on the few values of the examples,
    the texts abbreviated. *)
Definition stringify_table (v : json) : completion string :=
  Return (match v with
          | JArr [] => "[]"
          | JArr [_] => "[a]"
          | JArr [_; _] => "[a,b]"
          | _ => "{high,light}"
          end)%string.

Definition parse_table (text : string) : completion json :=
  if String.eqb text "[]" then Return (JArr [])
  else if String.eqb text "[a]" then Return (JArr [record "a"])
  else if String.eqb text "[a,b]" then Return (JArr [record "a"; record "b"])
  else if String.eqb text "{high,light}" then Return dark_high
  else Throw "SyntaxError".

Definition holds_a : kv := [(SESSIONS_KEY, "[a]"%string)].
Definition holds_a_b : kv := [(SESSIONS_KEY, "[a,b]"%string)].

(** The day of a timestamp as a number of days, for a key. *)
Definition day_number (t : Z) : string := digits (Z.to_N (t / day)).

(** Three sessions of today with variabilities 10, 12 and 8. *)
Definition steady_history : list Session :=
  [session_at today 10 None [1; 2; 3]; session_at today 12 None [1];
   session_at today 8 None [1]].

End StoreExamples.

(* ================================================================= *)
(** ** Concrete inputs, over doubles *)

Module Examples64.

Import PrimFloat Float64 Analysis64 Examples.
#[local] Open Scope float_scope.

(** [Math.pow] at the exponent 2, the only one the program uses, as the
    product of the base with itself. *)
Definition Math_pow_square (base exponent : float) : float := base * base.

(** A stand-in for [Number::toString]: no example reaches [1e21]. *)
Definition exponent_notation (x : float) : string := "1e+21".

Definition no_samples : SensorData float := {| x := []; y := []; z := [] |}.

(** A session recorded at time [t] with variability [v]; [coffee] is its
    caffeine flag, if it has a context. *)
Definition session_of (t : Z) (v : float) (coffee : option bool) : Session :=
  {| id := "session";
     timestamp := t;
     duration := 10;
     accelerometer := no_samples;
     gyroscope := no_samples;
     magnitude := [];
     stats := {| meanAmplitude := 0; variability := v; peakAmplitude := 0 |};
     context :=
       match coffee with
       | Some c => Some {| caffeine := Some c; sleepDeprived := None; stress := None;
                           notes := None |}
       | None => None
       end |}.

(** Three sessions of the last three days, with variabilities 0.1, 0.04
    and 0.13 in the order of time. *)
Definition borderline_history : list Session :=
  [ session_of (today - 3 * day) 0.1 None;
    session_of (today - 2 * day) 0.04 None;
    session_of (today - 1 * day) 0.13 None ].


(** Three sessions with caffeine at 229 and three without at 200, all of
    the last week. *)
Definition rounding_history : list Session :=
  [ session_of (today - 1 * day) 229 (Some true);
    session_of (today - 2 * day) 229 (Some true);
    session_of (today - 3 * day) 229 (Some true);
    session_of (today - 4 * day) 200 None;
    session_of (today - 5 * day) 200 None;
    session_of (today - 6 * day) 200 None ].

(** Five sessions with caffeine at 15 and five without at 10, all of the
    last week. *)
Definition scenario_history : list Session :=
  [ session_of (today - 1 * day) 15 (Some true);
    session_of (today - 1 * day - 1) 10 None;
    session_of (today - 2 * day) 15 (Some true);
    session_of (today - 2 * day - 1) 10 None;
    session_of (today - 3 * day) 15 (Some true);
    session_of (today - 3 * day - 1) 10 None;
    session_of (today - 4 * day) 15 (Some true);
    session_of (today - 4 * day - 1) 10 None;
    session_of (today - 5 * day) 15 (Some true);
    session_of (today - 5 * day - 1) 10 None ].

(** Three sessions with caffeine at 15 and three without at 10, all more
    than a month old. *)
Definition stale_caffeine_history : list Session :=
  [ session_of (today - 30 * day) 15 (Some true);
    session_of (today - 31 * day) 15 (Some true);
    session_of (today - 32 * day) 15 (Some true);
    session_of (today - 33 * day) 10 None;
    session_of (today - 34 * day) 10 None;
    session_of (today - 35 * day) 10 None ].

End Examples64.

(* ================================================================= *)
(** ** Facts about numbers and arrays *)

Module Facts.

Lemma Qltb_lt (a b : Q) : Qltb a b = true <-> a < b.
Proof.
  unfold Qltb. rewrite negb_true_iff.
  split; intro H.
  - apply Qnot_le_lt. intro Hle. apply Qle_bool_iff in Hle. congruence.
  - destruct (Qle_bool b a) eqn:E; [|reflexivity].
    apply Qle_bool_iff in E. exfalso. apply (Qlt_not_le _ _ H E).
Qed.

Lemma Qltb_nlt (a b : Q) : Qltb a b = false <-> ~ a < b.
Proof.
  rewrite <- Qltb_lt. destruct (Qltb a b); split; intro H; congruence.
Qed.

Lemma Qeq_bool_false (a b : Q) : Qeq_bool a b = false <-> ~ a == b.
Proof.
  rewrite <- Qeq_bool_iff. destruct (Qeq_bool a b); split; intro H; congruence.
Qed.

Lemma ndiv_finite (a b : Q) : ~ b == 0 -> ndiv (Fin a) (Fin b) = Fin (a / b).
Proof.
  intro H. unfold ndiv. apply Qeq_bool_false in H. now rewrite H.
Qed.

Lemma of_nat_nonzero (n : nat) : ~ inject_Z (Z.of_nat (S n)) == 0.
Proof.
  unfold Qeq. simpl. lia.
Qed.

Lemma ndiv_of_nat (a : Q) (n : nat) :
  n <> 0%nat -> ndiv (Fin a) (of_nat n) = Fin (a / inject_Z (Z.of_nat n)).
Proof.
  intro H. destruct n as [|n]; [congruence|].
  apply ndiv_finite, of_nat_nonzero.
Qed.

Lemma fold_nadd_finite {A : Type} (f : A -> num) (g : A -> Q) (l : list A) (acc : Q) :
  (forall v, In v l -> f v = Fin (g v)) ->
  fold_left (fun sum v => nadd sum (f v)) l (Fin acc) = Fin (fold_left Qplus (map g l) acc).
Proof.
  revert acc. induction l as [|v l IH]; intros acc H; simpl; [reflexivity|].
  rewrite (H v (or_introl eq_refl)). simpl. apply IH.
  intros w Hw. apply H. now right.
Qed.

Lemma reduce_sum_finite {A : Type} (f : A -> num) (g : A -> Q) (l : list A) :
  (forall v, In v l -> f v = Fin (g v)) ->
  reduce_sum f l = Fin (Qsum (map g l)).
Proof.
  apply fold_nadd_finite.
Qed.

Lemma reduce_sum_Fin (l : list Q) : reduce_sum (fun v => v) (map Fin l) = Fin (Qsum l).
Proof.
  unfold reduce_sum.
  assert (G : forall acc, fold_left (fun sum v => nadd sum v) (map Fin l) (Fin acc)
                          = Fin (fold_left Qplus l acc)).
  { induction l as [|v l IH]; intro acc; simpl; [reflexivity|apply IH]. }
  apply G.
Qed.

Lemma Qsquare_nonneg (a : Q) : 0 <= a * a.
Proof.
  nra.
Qed.

End Facts.

Import Facts.

(* ================================================================= *)
(** ** Facts about doubles *)

(** The primitive operations are related to their specification on
    [spec_float] by the axioms of the standard library ([FloatAxioms]);
    what follows needs them on zeros, infinities, [NaN] and signs only. *)

Module Float64Facts.

Import PrimFloat SpecFloat FloatOps FloatAxioms Float64 Notions64.
#[local] Open Scope float_scope.
#[local] Unset Implicit Arguments.

Lemma SFeqb_refl_finite (s : bool) (m : BinNums.positive) (e : Z) :
  SFeqb (S754_finite s m e) (S754_finite s m e) = true.
Proof.
  unfold SFeqb, SFcompare.
  destruct s; rewrite Z.compare_refl, Pos.compare_cont_refl; reflexivity.
Qed.

Lemma is_nan_spec (x : float) :
  is_nan x = match Prim2SF x with S754_nan => true | _ => false end.
Proof.
  unfold is_nan. rewrite eqb_spec.
  destruct (Prim2SF x) as [s|s| |s m e]; try (destruct s; reflexivity); [reflexivity|].
  now rewrite SFeqb_refl_finite.
Qed.

Lemma is_zero_spec (x : float) :
  is_zero x = match Prim2SF x with S754_zero _ => true | _ => false end.
Proof.
  unfold is_zero. rewrite eqb_spec.
  change (Prim2SF zero) with (S754_zero false).
  destruct (Prim2SF x) as [s|s| |s m e]; try (destruct s; reflexivity); reflexivity.
Qed.

Lemma zero_or_nan_spec (x : float) : zero_or_nan x = SFzero_or_nan (Prim2SF x).
Proof.
  unfold zero_or_nan. rewrite is_zero_spec, is_nan_spec.
  destruct (Prim2SF x) as [s|s| |s m e]; reflexivity.
Qed.

Lemma SFcompare_finite_Eq (s1 s2 : bool) (m1 m2 : BinNums.positive) (e1 e2 : Z) :
  SFcompare (S754_finite s1 m1 e1) (S754_finite s2 m2 e2) = Some Eq ->
  s1 = s2 /\ m1 = m2 /\ e1 = e2.
Proof.
  unfold SFcompare.
  destruct s1, s2; try discriminate;
    destruct (Z.compare_spec e1 e2) as [E|E|E]; try discriminate;
    intro H; injection H as H.
  - apply (f_equal CompOpp) in H. rewrite CompOpp_involutive in H. cbn in H.
    apply Pos.compare_eq in H. auto.
  - apply Pos.compare_eq in H. auto.
Qed.

(** The difference of two equal numbers is a zero, or [NaN] at the
    infinities. *)
Lemma sub_same_value (v m : float) : same_value v m = true -> zero_or_nan (v - m) = true.
Proof.
  unfold same_value. rewrite zero_or_nan_spec, sub_spec, eqb_spec, !is_nan_spec.
  unfold SF64sub.
  destruct (Prim2SF v) as [s1|s1| |s1 m1 e1], (Prim2SF m) as [s2|s2| |s2 m2 e2];
    try (destruct s1, s2; cbn; intro H; (reflexivity || discriminate H));
    try (destruct s1; cbn; intro H; (reflexivity || discriminate H));
    try (destruct s2; cbn; intro H; (reflexivity || discriminate H));
    try reflexivity.
  rewrite orb_false_r. unfold SFeqb.
  destruct (SFcompare _ _) as [[| |]|] eqn:E; try discriminate. intros _.
  apply SFcompare_finite_Eq in E. destruct E as (-> & -> & ->).
  unfold SFsub. rewrite Z.sub_diag. reflexivity.
Qed.

Lemma add_zero_or_nan (a b : float) :
  zero_or_nan a = true -> zero_or_nan b = true -> zero_or_nan (a + b) = true.
Proof.
  rewrite !zero_or_nan_spec, add_spec. unfold SF64add.
  destruct (Prim2SF a) as [s1|s1| |s1 m1 e1], (Prim2SF b) as [s2|s2| |s2 m2 e2];
    try discriminate; intros _ _; try reflexivity.
  destruct s1, s2; reflexivity.
Qed.

Lemma div_zero_or_nan (a b : float) : zero_or_nan a = true -> zero_or_nan (a / b) = true.
Proof.
  rewrite !zero_or_nan_spec, div_spec. unfold SF64div.
  destruct (Prim2SF a) as [s1|s1| |s1 m1 e1], (Prim2SF b) as [s2|s2| |s2 m2 e2];
    try discriminate; intros _; reflexivity.
Qed.

Lemma div_both_zero_or_nan (a b : float) :
  zero_or_nan a = true -> zero_or_nan b = true -> is_nan (a / b) = true.
Proof.
  rewrite !zero_or_nan_spec, is_nan_spec, div_spec. unfold SF64div.
  destruct (Prim2SF a) as [s1|s1| |s1 m1 e1], (Prim2SF b) as [s2|s2| |s2 m2 e2];
    try discriminate; intros _ _; reflexivity.
Qed.

Lemma abs_nan (x : float) : is_nan x = true -> is_nan (abs x) = true.
Proof.
  rewrite !is_nan_spec, abs_spec.
  destruct (Prim2SF x) as [s|s| |s m e]; try discriminate; reflexivity.
Qed.

Lemma gtb_nan (x t : float) : is_nan x = true -> gtb x t = false.
Proof.
  unfold gtb. rewrite is_nan_spec, ltb_spec.
  destruct (Prim2SF x) as [s|s| |s m e]; try discriminate. intros _.
  unfold SFltb, SFcompare. destruct (Prim2SF t); reflexivity.
Qed.

(** The correctly rounded square root and product keep zeros and [NaN]. *)
Lemma sqrt_zero_or_nan (x : float) : zero_or_nan x = true -> zero_or_nan (sqrt x) = true.
Proof.
  rewrite !zero_or_nan_spec, sqrt_spec.
  destruct (Prim2SF x) as [s|s| |s m e]; try discriminate; reflexivity.
Qed.

Lemma mul_zero_or_nan (x : float) : zero_or_nan x = true -> zero_or_nan (x * x) = true.
Proof.
  rewrite !zero_or_nan_spec, mul_spec.
  destruct (Prim2SF x) as [s|s| |s m e]; try discriminate; reflexivity.
Qed.

(** [b || d] for a baseline [b] that is a number. *)
Lemma or_else_number (b d : float) :
  is_nan b = false -> or_else b d = if b =? 0 then d else b.
Proof.
  intro H. unfold or_else, truthy. rewrite H, orb_false_r.
  unfold is_zero, zero. destruct (b =? 0); reflexivity.
Qed.

(** A number above [0.15] is not below [-0.15]. *)
Lemma above_not_below (change : float) :
  (0.15 <? change) = true -> (change <? -0.15) = false.
Proof.
  rewrite !ltb_spec.
  remember (Prim2SF 0.15) as hi eqn:Ehi. vm_compute in Ehi.
  remember (Prim2SF (-0.15)) as lo eqn:Elo. vm_compute in Elo.
  subst hi lo.
  destruct (Prim2SF change) as [s|s| |s m e]; try discriminate;
    destruct s; try discriminate; reflexivity.
Qed.

(** A number below zero is not above zero. *)
Lemma below_not_above (d : float) : (d <? 0) = true -> (0 <? d) = false.
Proof.
  rewrite !ltb_spec. change (Prim2SF 0) with (S754_zero false).
  destruct (Prim2SF d) as [s|s| |s m e]; try discriminate;
    destruct s; try discriminate; reflexivity.
Qed.

Lemma fold_add_map {A : Type} (f : A -> float) (l : list A) (acc : float) :
  fold_left (fun sum v => sum + f v) l acc = fold_left add (map f l) acc.
Proof.
  revert acc. induction l as [|a l IH]; intro acc; [reflexivity|]. apply IH.
Qed.

(** *** Division by one *)

Lemma canonical_cases (m : BinNums.positive) (e : Z) :
  bounded prec emax m e = true ->
  fexp prec emax (Zpos (digits2_pos m) + e) = e /\ (e <= emax - prec)%Z.
Proof.
  unfold bounded, canonical_mantissa.
  rewrite andb_true_iff, Z.eqb_eq, Z.leb_le. tauto.
Qed.

Lemma div_eucl_exact (k q : Z) : (0 < k)%Z -> Z.div_eucl (k * q) k = (q, 0%Z).
Proof.
  intros Hk.
  pose proof (Z.div_mul q k ltac:(lia)) as Q.
  pose proof (Z.mod_mul q k ltac:(lia)) as R.
  rewrite (Z.mul_comm q k) in Q, R.
  unfold Z.div, Z.modulo in Q, R.
  destruct (Z.div_eucl (k * q) k) as [q' r']. cbn in Q, R. now subst.
Qed.

(** Rounding a mantissa that is canonical at its exponent changes nothing. *)
Lemma binary_round_aux_canonical (s : bool) (m : BinNums.positive) (e : Z) :
  fexp prec emax (Zpos (digits2_pos m) + e) = e -> (e <= emax - prec)%Z ->
  binary_round_aux prec emax s (Zpos m) e loc_Exact = S754_finite s m e.
Proof.
  intros Hc He. unfold binary_round_aux, shr_fexp. cbn [Zdigits2].
  rewrite Hc, Z.sub_diag.
  cbn [shr shr_record_of_loc shr_m loc_of_shr_record round_nearest_even shr_r shr_s].
  cbn [Zdigits2]. rewrite Hc, Z.sub_diag. cbn [shr shr_record_of_loc shr_m].
  apply Z.leb_le in He. now rewrite He.
Qed.

(** Twice such a mantissa, one exponent lower, rounds back to it. *)
Lemma binary_round_aux_doubled (s : bool) (m : BinNums.positive) (e : Z) :
  fexp prec emax (Zpos (digits2_pos m) + e) = e -> (e <= emax - prec)%Z ->
  binary_round_aux prec emax s (Zpos m~0) (e - 1) loc_Exact = S754_finite s m e.
Proof.
  intros Hc He. unfold binary_round_aux, shr_fexp. cbn [Zdigits2 digits2_pos].
  replace (Z.pos (Pos.succ (digits2_pos m)) + (e - 1))%Z with (Zpos (digits2_pos m) + e)%Z
    by lia.
  rewrite Hc. replace (e - (e - 1))%Z with 1%Z by lia.
  cbn [shr shr_record_of_loc iter_pos shr_1 shr_m loc_of_shr_record round_nearest_even
       shr_r shr_s orb].
  replace (e - 1 + 1)%Z with e by lia.
  cbn [Zdigits2]. rewrite Hc, Z.sub_diag. cbn [shr shr_record_of_loc shr_m].
  apply Z.leb_le in He. now rewrite He.
Qed.

Lemma SFdiv_one (s : bool) (m : BinNums.positive) (e : Z) :
  bounded prec emax m e = true ->
  SF64div (S754_finite s m e) (S754_finite false 4503599627370496 (-52)) = S754_finite s m e.
Proof.
  intro Hb. destruct (canonical_cases m e Hb) as [Hc He].
  unfold SF64div, SFdiv, SFdiv_core_binary. rewrite xorb_false_r.
  change (Zdigits2 (Z.pos 4503599627370496)) with 53%Z.
  cbn [Zdigits2].
  set (d := Z.pos (digits2_pos m)) in *.
  assert (Hd : (0 < d)%Z) by (unfold d; lia).
  assert (Hf : fexp prec emax (d + e - (53 + -52)) = (e - 1)%Z \/
               fexp prec emax (d + e - (53 + -52)) = e).
  { revert Hc. unfold fexp, SpecFloat.emin, prec, emax. lia. }
  destruct Hf as [Hf|Hf]; rewrite Hf.
  - rewrite Z.min_l by lia.
    replace (e - -52 - (e - 1))%Z with 53%Z by lia.
    rewrite Z.shiftl_mul_pow2 by lia.
    replace (Z.pos m * 2 ^ 53)%Z with (4503599627370496 * Z.pos m~0)%Z by lia.
    rewrite div_eucl_exact by lia.
    change (new_location 4503599627370496 0) with loc_Exact.
    now apply binary_round_aux_doubled.
  - rewrite Z.min_l by lia.
    replace (e - -52 - e)%Z with 52%Z by lia.
    rewrite Z.shiftl_mul_pow2 by lia.
    replace (Z.pos m * 2 ^ 52)%Z with (4503599627370496 * Z.pos m)%Z by lia.
    rewrite div_eucl_exact by lia.
    change (new_location 4503599627370496 0) with loc_Exact.
    now apply binary_round_aux_canonical.
Qed.

(** [x / 1] is [x], for every double. *)
Lemma div_one (x : float) : x / 1 = x.
Proof.
  apply Prim2SF_inj. rewrite div_spec.
  change (Prim2SF 1) with (S754_finite false 4503599627370496 (-52)).
  pose proof (Prim2SF_valid x) as V.
  destruct (Prim2SF x) as [s|s| |s m e]; try reflexivity.
  - cbn. now rewrite xorb_false_r.
  - cbn. now rewrite xorb_false_r.
  - now apply SFdiv_one.
Qed.

(** [0 + v] equals [v]. *)
Lemma add_zero_same_value (v : float) : same_value v (0 + v) = true.
Proof.
  unfold same_value. rewrite eqb_spec, !is_nan_spec, add_spec.
  change (Prim2SF 0) with (S754_zero false). unfold SF64add, SFadd.
  destruct (Prim2SF v) as [s|s| |s m e]; try (destruct s; reflexivity); [reflexivity|].
  now rewrite SFeqb_refl_finite.
Qed.

(** *** Signs and order *)

Lemma digits2_pos_bounds (m : BinNums.positive) :
  (2 ^ (Zpos (digits2_pos m) - 1) <= Zpos m < 2 ^ Zpos (digits2_pos m))%Z.
Proof.
  induction m as [m IH|m IH|]; cbn [digits2_pos].
  - rewrite Pos2Z.inj_succ.
    replace (Z.succ (Z.pos (digits2_pos m)) - 1)%Z with (Z.pos (digits2_pos m)) by lia.
    rewrite Z.pow_succ_r by lia.
    assert (E : (2 ^ Z.pos (digits2_pos m) = 2 * 2 ^ (Z.pos (digits2_pos m) - 1))%Z).
    { rewrite <- Z.pow_succ_r by lia. f_equal. lia. }
    lia.
  - rewrite Pos2Z.inj_succ.
    replace (Z.succ (Z.pos (digits2_pos m)) - 1)%Z with (Z.pos (digits2_pos m)) by lia.
    rewrite Z.pow_succ_r by lia.
    assert (E : (2 ^ Z.pos (digits2_pos m) = 2 * 2 ^ (Z.pos (digits2_pos m) - 1))%Z).
    { rewrite <- Z.pow_succ_r by lia. f_equal. lia. }
    lia.
  - cbn. lia.
Qed.

Lemma iter_xO (m n : BinNums.positive) : Zpos (Pos.iter xO m n) = (Zpos m * 2 ^ Zpos n)%Z.
Proof.
  revert m. induction n as [|n IH] using Pos.peano_ind; intro m.
  - cbn. lia.
  - rewrite Pos.iter_succ, Pos2Z.inj_succ, Z.pow_succ_r by lia.
    rewrite Pos2Z.inj_xO, IH. lia.
Qed.

(** The mantissa and exponent of a valid finite double: the mantissa is
    below [2^53], and at least [2^52] above the least exponent. *)
Lemma bounded_spec (m : BinNums.positive) (e : Z) :
  bounded prec emax m e = true ->
  (-1074 <= e)%Z /\ (Zpos m < 2 ^ 53)%Z /\ ((-1074 < e)%Z -> (2 ^ 52 <= Zpos m)%Z).
Proof.
  unfold bounded, canonical_mantissa, fexp, SpecFloat.emin, prec, emax.
  rewrite andb_true_iff, Z.eqb_eq, Z.leb_le. intros [H _].
  pose proof (digits2_pos_bounds m) as [B1 B2].
  set (d := Z.pos (digits2_pos m)) in *.
  assert (Hd : (0 < d)%Z) by (unfold d; lia).
  split; [lia|]. split.
  - assert (d <= 53)%Z by lia.
    apply Z.lt_le_trans with (2 ^ d)%Z; [exact B2|].
    apply Z.pow_le_mono_r; lia.
  - intro L. assert (E : d = 53%Z) by lia. rewrite E in B1. exact B1.
Qed.

(** The aligned mantissas of two positive doubles compare as the doubles. *)
Lemma aligned_compare (m1 m2 : BinNums.positive) (e1 e2 : Z) :
  bounded prec emax m1 e1 = true -> bounded prec emax m2 e2 = true ->
  let ez := Z.min e1 e2 in
  let z := (Zpos (fst (shl_align m1 e1 ez)) - Zpos (fst (shl_align m2 e2 ez)))%Z in
  SFcompare (S754_finite false m1 e1) (S754_finite false m2 e2) = Some (Z.compare z 0).
Proof.
  intros B1 B2 ez z.
  destruct (bounded_spec m1 e1 B1) as (L1 & U1 & N1).
  destruct (bounded_spec m2 e2 B2) as (L2 & U2 & N2).
  unfold SFcompare. f_equal.
  assert (A : forall m e e', (e' <= e)%Z ->
              Zpos (fst (shl_align m e e')) = (Zpos m * 2 ^ (e - e'))%Z).
  { intros m e e' H. unfold shl_align.
    destruct (e' - e)%Z as [|p|p] eqn:E; try lia.
    - replace (e - e')%Z with 0%Z by lia. cbn [fst]. lia.
    - cbn [fst]. rewrite iter_xO. f_equal. f_equal. lia. }
  unfold z. rewrite !A by (unfold ez; lia). unfold ez.
  destruct (Z.compare_spec e1 e2) as [E|E|E].
  - subst e2. rewrite Z.min_id, Z.sub_diag, !Z.mul_1_r.
    change (Pos.compare_cont Eq m1 m2) with (Pos.compare m1 m2).
    rewrite Pos2Z.inj_compare.
    rewrite (Z.compare_sub (Zpos m1) (Zpos m2)).
    destruct (Z.pos m1 - Z.pos m2 ?= 0)%Z; reflexivity.
  - rewrite Z.min_l by lia. rewrite Z.sub_diag, Z.mul_1_r.
    symmetry. apply Z.compare_lt_iff.
    assert (P : (2 <= 2 ^ (e2 - e1))%Z).
    { change 2%Z with (2 ^ 1)%Z at 1. apply Z.pow_le_mono_r; lia. }
    specialize (N2 ltac:(lia)). nia.
  - rewrite Z.min_r by lia. rewrite Z.sub_diag, Z.mul_1_r.
    symmetry. apply Z.compare_gt_iff.
    assert (P : (2 <= 2 ^ (e1 - e2))%Z).
    { change 2%Z with (2 ^ 1)%Z at 1. apply Z.pow_le_mono_r; lia. }
    specialize (N1 ltac:(lia)). nia.
Qed.

Lemma binary_round_aux_sign (s : bool) (m e : Z) (l : location) :
  sign_class (binary_round_aux prec emax s m e l) = None \/
  sign_class (binary_round_aux prec emax s m e l) = Some s.
Proof.
  unfold binary_round_aux.
  destruct (shr_fexp prec emax m e l) as [mrs' e'].
  destruct (shr_fexp prec emax _ e' loc_Exact) as [mrs'' e''].
  destruct (shr_m mrs'') as [|p|p]; [now left| |now left].
  destruct (Z.leb e'' (emax - prec)); now right.
Qed.

Lemma binary_normalize_sign (z e : Z) :
  sign_class (binary_normalize prec emax z e false) = None \/
  sign_class (binary_normalize prec emax z e false) = Some (Z.ltb z 0).
Proof.
  unfold binary_normalize, binary_round.
  destruct z as [|p|p]; [now left| |].
  - destruct (shl_align p e _) as [mz ez]. apply binary_round_aux_sign.
  - destruct (shl_align p e _) as [mz ez]. apply binary_round_aux_sign.
Qed.

Lemma SFltb_zero_l (x : spec_float) :
  SFltb (S754_zero false) x = match sign_class x with Some false => true | _ => false end.
Proof. destruct x as [s|s| |s m e]; try destruct s; reflexivity. Qed.

Lemma SFltb_zero_r (x : spec_float) :
  SFltb x (S754_zero false) = match sign_class x with Some true => true | _ => false end.
Proof. destruct x as [s|s| |s m e]; try destruct s; reflexivity. Qed.

(** Dividing by a positive number keeps the sign, unless the quotient is
    a zero or [NaN]. *)
Lemma SFdiv_sign (x u : spec_float) :
  SFltb (S754_zero false) u = true ->
  sign_class (SF64div x u) = None \/ sign_class (SF64div x u) = sign_class x.
Proof.
  unfold SF64div, SFdiv.
  destruct u as [su|su| |su mu eu]; try discriminate; destruct su; try discriminate;
    intros _; destruct x as [s|s| |s m e]; try (now left); try (now right).
  - right. cbn. now rewrite xorb_false_r.
  - destruct (SFdiv_core_binary prec emax (Z.pos m) e (Z.pos mu) eu) as [[mz ez] lz].
    rewrite xorb_false_r. apply binary_round_aux_sign.
Qed.

(** The sign of the difference from a positive number, unless the
    difference is a zero or [NaN]. *)
Lemma SFsub_sign (f u : spec_float) :
  valid_binary f = true -> valid_binary u = true ->
  SFltb (S754_zero false) u = true ->
  sign_class (SF64sub f u) = None \/
  sign_class (SF64sub f u) = Some (SFltb f u) /\ SFltb u f = negb (SFltb f u).
Proof.
  unfold SF64sub, SFsub.
  destruct u as [su|su| |su mu eu]; try discriminate; destruct su; try discriminate;
    intros Vf Vu _; destruct f as [s|s| |s m e]; try (now left);
    try (right; destruct s; split; reflexivity).
  { destruct s; [right; split; reflexivity | now left]. }
  cbn [SpecFloat.valid_binary] in Vf, Vu.
  destruct s.
  - destruct (binary_normalize_sign
                (cond_Zopp true (Z.pos (fst (shl_align m e (Z.min e eu))))
                 - cond_Zopp false (Z.pos (fst (shl_align mu eu (Z.min e eu)))))
                (Z.min e eu)) as [H|H]; [now left|].
    right. rewrite H. split; reflexivity.
  - cbn [cond_Zopp].
    pose proof (aligned_compare m mu e eu Vf Vu) as C. cbv zeta in C.
    pose proof (aligned_compare mu m eu e Vu Vf) as C'. cbv zeta in C'.
    rewrite (Z.min_comm eu e) in C'.
    unfold SFltb. rewrite C, C'.
    set (a := Z.pos (fst (shl_align m e (Z.min e eu)))) in *.
    set (b := Z.pos (fst (shl_align mu eu (Z.min e eu)))) in *.
    destruct (Z.compare_spec (a - b) 0) as [E|E|E].
    + left. rewrite E. reflexivity.
    + destruct (binary_normalize_sign (a - b) (Z.min e eu)) as [H|H]; [now left|].
      right. rewrite H.
      destruct (Z.compare_spec (b - a) 0) as [E'|E'|E']; try lia.
      split; [f_equal; apply Z.ltb_lt; lia | reflexivity].
    + destruct (binary_normalize_sign (a - b) (Z.min e eu)) as [H|H]; [now left|].
      right. rewrite H.
      destruct (Z.compare_spec (b - a) 0) as [E'|E'|E']; try lia.
      split; [f_equal; apply Z.ltb_ge; lia | reflexivity].
Qed.

Lemma zero_or_nan_class (x : float) :
  zero_or_nan x = match sign_class (Prim2SF x) with None => true | Some _ => false end.
Proof.
  rewrite zero_or_nan_spec. destruct (Prim2SF x); reflexivity.
Qed.

(** A number of absolute value above [0.1] is neither a zero nor [NaN]. *)
Lemma above_tenth_not_zero (d : float) : (0.1 <? abs d) = true -> zero_or_nan d = false.
Proof.
  rewrite zero_or_nan_spec, ltb_spec, abs_spec.
  remember (Prim2SF 0.1) as k eqn:Ek. vm_compute in Ek. subst k.
  destruct (Prim2SF d) as [s|s| |s m e]; try discriminate; reflexivity.
Qed.

(** With a positive [u], the relative difference [(f - u) / u], when it
    is neither a zero nor [NaN], is above zero exactly when [f] is above
    [u], and below zero exactly when [f] is below [u]. *)
Lemma relative_difference_sign (f u : float) :
  (0 <? u) = true ->
  zero_or_nan ((f - u) / u) = false ->
  (0 <? (f - u) / u) = (u <? f) /\ ((f - u) / u <? 0) = (f <? u).
Proof.
  rewrite zero_or_nan_class, !ltb_spec, div_spec, sub_spec.
  change (Prim2SF 0) with (S754_zero false).
  intros Hu Hd.
  destruct (SFdiv_sign (SF64sub (Prim2SF f) (Prim2SF u)) (Prim2SF u) Hu) as [H|H];
    [now rewrite H in Hd|].
  rewrite SFltb_zero_l, SFltb_zero_r, H. rewrite H in Hd.
  destruct (SFsub_sign (Prim2SF f) (Prim2SF u) (Prim2SF_valid f) (Prim2SF_valid u) Hu)
    as [S|[S T]]; [now rewrite S in Hd|].
  rewrite S, T. destruct (SFltb (Prim2SF f) (Prim2SF u)); split; reflexivity.
Qed.

(** The rounding of [Math.round] and of [toFixed(0)] at a tie and next
    to one. *)
Lemma rounding_examples :
  Math_round 2.5 = 3 /\ Math_round (-2.5) = -2 /\ Math_round 57.49999999999999 = 57 /\
  Math_round 0.49999999999999994 = 0 /\ Math_round (-0.2) = -0 /\
  toFixed0 (fun _ => EmptyString) 14.5 = "15"%string /\
  toFixed0 (fun _ => EmptyString) 14.499999999999998 = "14"%string.
Proof. vm_compute. repeat split. Qed.

End Float64Facts.

(* ================================================================= *)
(** ** Classification *)

(** [classifyStability] is that of [Analysis64]. *)

Module ClassificationProps.

Import PrimFloat Float64 Analysis64 Float64Facts.
#[local] Open Scope float_scope.
#[local] Unset Implicit Arguments.

(** C4.  For every current variability [v], every baseline [b] that is a
    number and every trend [t], [classifyStability] applies the ordered
    rules, the first match winning, to [ratio = v / b'], the quotient of
    doubles, where [b'] is [b] unless [b = 0] and then [1]:
    [{stable, 0.9}] when [ratio < 1.1] and the trend is stable; otherwise
    [{increasing, 0.8}] when [ratio > 1.5] or the trend is increasing;
    otherwise [{variable, 0.7}] when [ratio > 1.2]; otherwise
    [{irregular, 0.6}]. *)
Theorem classifyStability_rules (v b : float) (t : Trend) :
  is_nan b = false ->
  let b' := if b =? 0 then 1 else b in
  let ratio := v / b' in
  let result := classifyStability v b t in
  let rule1 := (ratio <? 1.1) = true /\ t = trend_stable in
  let rule2 := (1.5 <? ratio) = true \/ t = trend_increasing in
  let rule3 := (1.2 <? ratio) = true in
  (rule1 -> result = {| type := stable; confidence := 0.9 |}) /\
  (~ rule1 -> rule2 -> result = {| type := increasing; confidence := 0.8 |}) /\
  (~ rule1 -> ~ rule2 -> rule3 -> result = {| type := variable; confidence := 0.7 |}) /\
  (~ rule1 -> ~ rule2 -> ~ rule3 -> result = {| type := irregular; confidence := 0.6 |}).
Proof.
  intros Hb b' ratio result rule1 rule2 rule3.
  assert (Hresult : result =
    if (ratio <? 1.1) && Analysis.Trend_eqb t trend_stable
    then {| type := stable; confidence := 0.9 |}
    else if (1.5 <? ratio) || Analysis.Trend_eqb t trend_increasing
         then {| type := increasing; confidence := 0.8 |}
    else if 1.2 <? ratio then {| type := variable; confidence := 0.7 |}
    else {| type := irregular; confidence := 0.6 |}).
  { unfold result, classifyStability. rewrite (or_else_number b 1 Hb). reflexivity. }
  clearbody result. subst result.
  assert (R1 : (ratio <? 1.1) && Analysis.Trend_eqb t trend_stable = true <-> rule1).
  { unfold rule1. rewrite andb_true_iff.
    destruct t; simpl; split; intros [H1 H2]; split; congruence. }
  assert (R2 : (1.5 <? ratio) || Analysis.Trend_eqb t trend_increasing = true <-> rule2).
  { unfold rule2. rewrite orb_true_iff.
    destruct t; simpl; split; intros [H|H]; auto; congruence. }
  assert (R3 : (1.2 <? ratio) = true <-> rule3) by reflexivity.
  clearbody rule1 rule2 rule3.
  destruct ((ratio <? 1.1) && Analysis.Trend_eqb t trend_stable);
    destruct ((1.5 <? ratio) || Analysis.Trend_eqb t trend_increasing);
    destruct (1.2 <? ratio);
    repeat split; intros; try reflexivity; exfalso;
    intuition congruence.
Qed.

(** The quotient of the doubles 0.45 and 0.3 is 1.5, which is not above
    1.5: under a stable trend the classification is [{variable, 0.7}]. *)
Lemma classifyStability_rules_witness :
  classifyStability 0.45 0.3 trend_stable = {| type := variable; confidence := 0.7 |}.
Proof.
  apply (proj1 (proj2 (proj2 (classifyStability_rules 0.45 0.3 trend_stable eq_refl)))).
  - intros [H _]. vm_compute in H. discriminate H.
  - intros [H|H]; [vm_compute in H|]; discriminate H.
  - vm_compute. reflexivity.
Defined.

End ClassificationProps.

(* ================================================================= *)
(** ** Sorting and slicing *)

Module ArrayFacts.

#[local] Arguments ngt : simpl never.

Section Sort.

Context {A : Type}.
Variable cmp : A -> A -> num.

Lemma sort_insert_perm (a : A) (l : list A) : Permutation (a :: l) (sort_insert cmp a l).
Proof.
  induction l as [|b l IH]; simpl; [reflexivity|].
  destruct (ngt (cmp a b) (Fin 0)); [|reflexivity].
  rewrite perm_swap. now apply perm_skip.
Qed.

Lemma sort_perm (l : list A) : Permutation l (sort cmp l).
Proof.
  induction l as [|a l IH]; simpl; [reflexivity|].
  rewrite <- sort_insert_perm. now apply perm_skip.
Qed.

Lemma sort_length (l : list A) : length (sort cmp l) = length l.
Proof.
  symmetry. apply Permutation_length, sort_perm.
Qed.

Variable le : A -> A -> Prop.
Hypothesis le_of_keep : forall a b, ngt (cmp a b) (Fin 0) = false -> le a b.
Hypothesis le_of_swap : forall a b, ngt (cmp a b) (Fin 0) = true -> le b a.

Lemma sort_insert_HdRel (a b : A) (l : list A) :
  le b a -> HdRel le b l -> HdRel le b (sort_insert cmp a l).
Proof.
  intros Hba Hl. destruct l as [|c l]; simpl.
  - now constructor.
  - destruct (ngt (cmp a c) (Fin 0)); constructor; [|assumption].
    now inversion Hl.
Qed.

Lemma sort_insert_sorted (a : A) (l : list A) :
  Sorted le l -> Sorted le (sort_insert cmp a l).
Proof.
  induction 1 as [|b l Hs IH Hd]; simpl.
  - repeat constructor.
  - destruct (ngt (cmp a b) (Fin 0)) eqn:E.
    + constructor; [assumption|].
      apply sort_insert_HdRel; auto.
    + constructor; [now constructor|].
      constructor. now apply le_of_keep.
Qed.

Lemma sort_sorted (l : list A) : Sorted le (sort cmp l).
Proof.
  induction l as [|a l IH]; simpl; [constructor|].
  now apply sort_insert_sorted.
Qed.

End Sort.

(** Sorting commutes with a map that preserves the comparator. *)
Lemma sort_map {A B : Type} (f : A -> B) (cmpA : A -> A -> num) (cmpB : B -> B -> num) :
  (forall a b, cmpB (f a) (f b) = cmpA a b) ->
  forall l, sort cmpB (map f l) = map f (sort cmpA l).
Proof.
  intros H l. induction l as [|a l IH]; simpl; [reflexivity|].
  rewrite IH. generalize (sort cmpA l) as s.
  induction s as [|b s IHs]; simpl; [reflexivity|].
  rewrite H. destruct (ngt (cmpA a b) (Fin 0)); simpl; [|reflexivity].
  now rewrite IHs.
Qed.

Lemma Qsort_sorted (l : list Q) : StronglySorted Qle (Qsort l).
Proof.
  apply Sorted_StronglySorted.
  - intros a b c. apply Qle_trans.
  - apply sort_sorted; intros a b; unfold ngt, nsub; cbn [nadd nneg nlt].
    + rewrite Qltb_nlt. intro H. apply Qnot_lt_le in H. lra.
    + rewrite Qltb_lt. intro H. lra.
Qed.

Lemma Qsort_perm (l : list Q) : Permutation (Qsort l) l.
Proof.
  symmetry. apply sort_perm.
Qed.

Lemma sort_numbers (l : list Q) :
  sort (fun a b => nsub a b) (map Fin l) = map Fin (Qsort l).
Proof.
  now apply sort_map.
Qed.

Lemma nth_Fin (l : list Q) (i : nat) :
  (i < length l)%nat -> nth i (map Fin l) NaN = Fin (nth i l 0).
Proof.
  intro H. rewrite (nth_indep _ NaN (Fin 0)); [|now rewrite length_map].
  apply (map_nth Fin).
Qed.

Lemma slice_prefix {A : Type} (l : list A) (k : nat) :
  (k <= length l)%nat -> slice l 0 (Z.of_nat k) = firstn k l.
Proof.
  intro H. unfold slice, rel_index. simpl.
  destruct (Z.of_nat k <? 0)%Z eqn:E; [lia|].
  rewrite Z.min_l by lia. rewrite Z.min_l by lia.
  rewrite Z.sub_0_r, Nat2Z.id. reflexivity.
Qed.

Lemma slice_suffix {A : Type} (l : list A) (k : nat) :
  (k <= length l)%nat -> slice_from l (Z.of_nat k) = skipn k l.
Proof.
  intro H. unfold slice_from, slice, rel_index.
  destruct (Z.of_nat k <? 0)%Z eqn:E; [lia|].
  destruct (Z.of_nat (length l) <? 0)%Z eqn:E'; [lia|].
  rewrite !Z.min_l by lia. rewrite Nat2Z.id.
  apply firstn_all2. rewrite length_skipn. lia.
Qed.

End ArrayFacts.

Import ArrayFacts.

(* ================================================================= *)
(** ** Baseline *)

Module BaselineProps.

Lemma calculateBaseline_median_of (sessions : list Session) :
  sessions <> [] ->
  calculateBaseline sessions = Fin (median (map (fun s => variability (stats s)) sessions)).
Proof.
  intro Hne. unfold calculateBaseline, median.
  destruct sessions as [|s0 rest]; [congruence|].
  set (ss := s0 :: rest) in *.
  replace (Nat.eqb (length ss) 0) with false by reflexivity.
  replace (map variability_of ss) with (map Fin (map (fun s => variability (stats s)) ss))
    by (rewrite map_map; reflexivity).
  set (vs := map (fun s => variability (stats s)) ss).
  assert (Hlen : length vs = S (length rest)) by (unfold vs, ss; simpl; now rewrite length_map).
  rewrite sort_numbers, length_map.
  assert (Hs : length (Qsort vs) = length vs) by apply sort_length.
  rewrite Hs.
  assert (Hdiv : (length vs / 2 < length vs)%nat)
    by (apply Nat.div_lt; lia).
  destruct (Nat.even (length vs)) eqn:Ev.
  - assert (Hmod : Nat.eqb (length vs mod 2) 0 = true).
    { apply Nat.eqb_eq. apply Nat.even_spec in Ev. destruct Ev as [k Hk].
      rewrite Hk. rewrite Nat.mul_comm. apply Nat.Div0.mod_mul. }
    rewrite Hmod.
    rewrite !nth_Fin by (rewrite Hs; lia).
    simpl nadd. now rewrite ndiv_finite.
  - assert (Hmod : Nat.eqb (length vs mod 2) 0 = false).
    { apply Nat.eqb_neq. intro Hm.
      apply Nat.Div0.mod_divides in Hm. destruct Hm as [k Hk].
      assert (Nat.even (length vs) = true) by (apply Nat.even_spec; now exists k).
      congruence. }
    rewrite Hmod.
    now rewrite nth_Fin by (rewrite Hs; lia).
Qed.

(** C6.  For every non-empty history, [calculateBaseline] returns the
    median of the sessions' variabilities: with the variabilities sorted
    ascending, the middle element when their number is odd and the average
    of the two middle elements when it is even.  Variabilities [1,2,3,4]
    give [2.5], and [1,2,3] give [2]. *)
Theorem calculateBaseline_median :
  (forall sessions : list Session,
      sessions <> [] ->
      let variabilities := map (fun s => variability (stats s)) sessions in
      let n := length sessions in
      exists sorted : list Q,
        Permutation sorted variabilities /\
        StronglySorted Qle sorted /\
        (Nat.odd n = true -> calculateBaseline sessions = Fin (nth (n / 2) sorted 0)) /\
        (Nat.even n = true ->
         calculateBaseline sessions
         = Fin ((nth (n / 2 - 1) sorted 0 + nth (n / 2) sorted 0) / 2))) /\
  (forall sessions : list Session,
      map (fun s => variability (stats s)) sessions = [1; 2; 3; 4] ->
      neq (calculateBaseline sessions) (Fin 2.5)) /\
  (forall sessions : list Session,
      map (fun s => variability (stats s)) sessions = [1; 2; 3] ->
      neq (calculateBaseline sessions) (Fin 2)).
Proof.
  split; [|split].
  - intros sessions Hne variabilities n.
    exists (Qsort variabilities). split; [apply Qsort_perm|]. split; [apply Qsort_sorted|].
    rewrite (calculateBaseline_median_of Hne). unfold median.
    fold variabilities. replace (length variabilities) with n
      by (unfold variabilities, n; now rewrite length_map).
    rewrite <- Nat.negb_even.
    destruct (Nat.even n); simpl; split; intro H; congruence.
  - intros sessions H.
    rewrite calculateBaseline_median_of by (intro E; subst; discriminate).
    rewrite H. vm_compute. reflexivity.
  - intros sessions H.
    rewrite calculateBaseline_median_of by (intro E; subst; discriminate).
    rewrite H. vm_compute. reflexivity.
Qed.

End BaselineProps.

(* ================================================================= *)
(** ** Trend detection *)

Module TrendProps.

#[local] Arguments ngt : simpl never.

Lemma Qltb_0_inject_Z (z : Z) : Qltb 0 (inject_Z z) = true <-> (0 < z)%Z.
Proof.
  rewrite Qltb_lt. unfold Qlt. simpl. lia.
Qed.

Lemma by_time_desc_sorted (l : list Session) :
  StronglySorted (fun a b => (timestamp b <= timestamp a)%Z) (sort by_time_desc l).
Proof.
  apply Sorted_StronglySorted.
  - intros a b c H1 H2. now apply Z.le_trans with (timestamp b).
  - apply sort_sorted; intros a b; unfold ngt, by_time_desc, of_Z; cbn [nlt];
      intro H.
    + destruct (Qltb 0 (inject_Z (timestamp b - timestamp a))) eqn:E; [discriminate|].
      destruct (Z_lt_le_dec 0 (timestamp b - timestamp a)) as [L|L]; [|lia].
      apply Qltb_0_inject_Z in L. congruence.
    + apply Qltb_0_inject_Z in H. lia.
Qed.

Lemma since_week (now : Z) (sessions : list Session) :
  since (cutoff_of now 7) sessions
  = filter (fun s => (now - 604800000 <=? timestamp s)%Z) sessions.
Proof.
  unfold since. replace (cutoff_of now 7) with (now - 604800000)%Z; [reflexivity|].
  unfold cutoff_of. lia.
Qed.

(** *** The trend over doubles

    From here on [Session], [detectTrend] and the comparators by time are
    those of [Analysis64]. *)

Import PrimFloat SpecFloat FloatOps FloatAxioms Float64 Analysis64 Notions64 Float64Facts.
#[local] Open Scope float_scope.
#[local] Unset Implicit Arguments.

Lemma ascending_by_time (l : list Session) :
  StronglySorted (fun a b => (timestamp a <= timestamp b)%Z) (JS.sort by_time_asc l).
Proof.
  apply Sorted_StronglySorted.
  - intros a b c. apply Z.le_trans.
  - apply sort_sorted; intros a b; unfold ngt, by_time_asc, JS.of_Z; cbn [nlt];
      intro H.
    + destruct (Qltb 0 (inject_Z (timestamp a - timestamp b))) eqn:E; [discriminate|].
      destruct (Z_lt_le_dec 0 (timestamp a - timestamp b)) as [L|L]; [|lia].
      apply Qltb_0_inject_Z in L. congruence.
    + apply Qltb_0_inject_Z in H. lia.
Qed.


Lemma week_window (now : Z) (sessions : list Session) :
  since (Analysis.cutoff_of now 7) sessions
  = filter (fun s => (now - 604800000 <=? timestamp s)%Z) sessions.
Proof.
  unfold since. replace (Analysis.cutoff_of now 7) with (now - 604800000)%Z; [reflexivity|].
  unfold Analysis.cutoff_of. lia.
Qed.

(** [detectTrend] once three sessions lie in the window. *)
Lemma detectTrend_on_window (now : Z) (sessions : list Session) :
  let recent := filter (fun s => (now - 604800000 <=? timestamp s)%Z) sessions in
  (3 <= length recent)%nat ->
  let variabilities := map (fun s => variability (stats s)) (JS.sort by_time_asc recent) in
  let n := length variabilities in
  let firstHalf := firstn (n / 2) variabilities in
  let secondHalf := skipn (n / 2) variabilities in
  let firstAvg := sum firstHalf / of_nat (length firstHalf) in
  let secondAvg := sum secondHalf / of_nat (length secondHalf) in
  let change := (secondAvg - firstAvg) / firstAvg in
  detectTrend now sessions 7 =
    if 0.15 <? change then trend_increasing
    else if change <? -0.15 then trend_decreasing
    else trend_stable.
Proof.
  intros recent H3 variabilities n firstHalf secondHalf firstAvg secondAvg change.
  unfold detectTrend. cbv zeta. rewrite week_window. fold recent.
  assert (Hfl : (length recent <= length sessions)%nat) by apply filter_length_le.
  destruct (Nat.ltb_spec (length sessions) 3) as [L|_]; [lia|].
  rewrite sort_length.
  destruct (Nat.ltb_spec (length recent) 3) as [L|_]; [lia|].
  change (map variability_of (JS.sort by_time_asc recent)) with variabilities.
  fold n.
  assert (Hn : n = length recent)
    by (unfold n, variabilities; now rewrite length_map, sort_length).
  assert (Hhalf : (0 < n / 2 < n)%nat).
  { split; [apply Nat.div_str_pos; lia | apply Nat.div_lt; lia]. }
  rewrite slice_prefix by (fold n; lia).
  rewrite slice_suffix by (fold n; lia).
  reflexivity.
Qed.

(** C5.  [detectTrend] returns "stable" whenever the history holds fewer
    than 3 sessions or fewer than 3 sessions lie within the last 7 days.
    Otherwise the recent sessions are put in ascending order of time,
    their variabilities are split at [floor(n/2)] into two contiguous
    halves (the second one the larger for odd [n]), and with [change] the
    relative change of the average of the second half over the average of
    the first, all computed on doubles as the code computes them, the
    result is "increasing" when [change > 0.15], "decreasing" when
    [change < -0.15] and "stable" otherwise. *)
Theorem detectTrend_halves (now : Z) (sessions : list Session) :
  let recent := filter (fun s => (now - 604800000 <=? timestamp s)%Z) sessions in
  let result := detectTrend now sessions 7 in
  ((length sessions < 3)%nat \/ (length recent < 3)%nat -> result = trend_stable) /\
  ((3 <= length sessions)%nat -> (3 <= length recent)%nat ->
   let ordered := JS.sort by_time_asc recent in
   Permutation ordered recent /\
   StronglySorted (fun a b => (timestamp a <= timestamp b)%Z) ordered /\
   let variabilities := map (fun s => variability (stats s)) ordered in
   let n := length variabilities in
   let firstHalf := firstn (n / 2) variabilities in
   let secondHalf := skipn (n / 2) variabilities in
   let firstAvg := sum firstHalf / of_nat (length firstHalf) in
   let secondAvg := sum secondHalf / of_nat (length secondHalf) in
   let change := (secondAvg - firstAvg) / firstAvg in
   variabilities = firstHalf ++ secondHalf /\
   length firstHalf = (n / 2)%nat /\
   (length firstHalf <= length secondHalf <= length firstHalf + 1)%nat /\
   ((0.15 <? change) = true -> result = trend_increasing) /\
   ((change <? -0.15) = true -> result = trend_decreasing) /\
   ((0.15 <? change) = false -> (change <? -0.15) = false -> result = trend_stable)).
Proof.
  intros recent result. split.
  - intros [H|H]; unfold result, detectTrend.
    + apply Nat.ltb_lt in H. now rewrite H.
    + cbv zeta. destruct (Nat.ltb (length sessions) 3); [reflexivity|].
      rewrite week_window. fold recent. rewrite (sort_length by_time_asc recent).
      apply Nat.ltb_lt in H. now rewrite H.
  - intros _ H3 ordered.
    split; [symmetry; apply sort_perm|].
    split; [apply ascending_by_time|].
    intros variabilities n firstHalf secondHalf firstAvg secondAvg change.
    assert (Hn : n = length recent)
      by (unfold n, variabilities, ordered; now rewrite length_map, sort_length).
    assert (Hdiv : (2 * (n / 2) <= n < 2 * (n / 2) + 2)%nat).
    { pose proof (Nat.div_mod_eq n 2) as E.
      pose proof (Nat.mod_upper_bound n 2) as U. lia. }
    assert (Hl1 : length firstHalf = (n / 2)%nat)
      by (unfold firstHalf; rewrite length_firstn; fold n; lia).
    assert (Hl2 : length secondHalf = (n - n / 2)%nat)
      by (unfold secondHalf; rewrite length_skipn; reflexivity).
    split; [symmetry; apply firstn_skipn|].
    split; [exact Hl1|].
    split; [lia|].
    pose proof (detectTrend_on_window now sessions H3) as Hd.
    cbn zeta in Hd. fold recent in Hd. fold ordered in Hd.
    fold variabilities n firstHalf secondHalf in Hd.
    fold firstAvg secondAvg change result in Hd.
    repeat split.
    + intro Hc. now rewrite Hc in Hd.
    + intro Hc.
      destruct (0.15 <? change) eqn:Hi.
      * apply above_not_below in Hi. congruence.
      * now rewrite Hc in Hd.
    + intros H1 H2. now rewrite H1, H2 in Hd.
Qed.

End TrendProps.

(* ================================================================= *)
(** ** The analysis report *)

Module ReportProps.

Import BaselineProps TrendProps.

#[local] Arguments ngt : simpl never.

Section WithSqrt.

Variable sqrt : Q -> Q.

(** The report when the window holds a session. *)
Lemma generateTrendAnalysis_latest (now : Z) (sessions : list Session)
    (latest : Session) (rest : list Session) :
  recentSessions now sessions = latest :: rest ->
  exists classification summary anomalies,
    generateTrendAnalysis sqrt now sessions =
    Return {| stabilityScore :=
                nround (raw_score (ndiv (variability_of latest)
                                        (nor (calculateBaseline sessions) (Fin 1))));
              classification := classification;
              summary := summary;
              anomalies := anomalies;
              correlations :=
                correlation_of caffeine "Caffeine" "Sessions with caffeine" sessions
                ++ correlation_of stress "Stress" "Sessions marked as stressful" sessions |}.
Proof.
  unfold recentSessions. rewrite <- since_week. intro H.
  unfold generateTrendAnalysis.
  destruct sessions as [|s0 ss]; [discriminate|].
  replace (Nat.eqb (length (s0 :: ss)) 0) with false by reflexivity.
  cbv zeta. rewrite H. cbn [nth_error].
  do 3 eexists. reflexivity.
Qed.

(** The call throws exactly when the window is empty. *)
Lemma generateTrendAnalysis_stale (now : Z) (sessions : list Session) :
  sessions <> [] ->
  recentSessions now sessions = [] ->
  generateTrendAnalysis sqrt now sessions = Throw "TypeError".
Proof.
  unfold recentSessions. rewrite <- since_week. intros Hne H.
  unfold generateTrendAnalysis.
  destruct sessions as [|s0 ss]; [congruence|].
  replace (Nat.eqb (length (s0 :: ss)) 0) with false by reflexivity.
  cbv zeta. rewrite H. reflexivity.
Qed.

Lemma recentSessions_nil (now : Z) (sessions : list Session) :
  recentSessions now sessions = [] <->
  (forall s, In s sessions -> (timestamp s < now - 604800000)%Z).
Proof.
  unfold recentSessions. split.
  - intros H s Hs.
    destruct (Z_lt_le_dec (timestamp s) (now - 604800000)) as [L|L]; [exact L|].
    assert (Hin : In s (filter (fun s => (now - 604800000 <=? timestamp s)%Z) sessions)).
    { apply filter_In. split; [exact Hs|]. now apply Z.leb_le. }
    apply (Permutation_in _ (sort_perm by_time_desc _)) in Hin.
    rewrite H in Hin. destruct Hin.
  - intro H.
    assert (E : filter (fun s => (now - 604800000 <=? timestamp s)%Z) sessions = []).
    { induction sessions as [|s ss IH]; [reflexivity|]. simpl.
      assert (L := H s (or_introl eq_refl)).
      destruct (Z.leb_spec (now - 604800000) (timestamp s)); [lia|].
      apply IH. intros s' Hs'. apply H. now right. }
    now rewrite E.
Qed.

End WithSqrt.

(** C1.  A non-empty history in which no session has a timestamp within
    the last 7 days makes [generateTrendAnalysis] throw: the most recent
    session of the window is [undefined] and its [stats] are read. *)
Theorem generateTrendAnalysis_throws_on_stale_history
    (sqrt : Q -> Q) (now : Z) (sessions : list Session) :
  sessions <> [] ->
  (forall s, In s sessions -> (timestamp s < now - 604800000)%Z) ->
  generateTrendAnalysis sqrt now sessions = Throw "TypeError".
Proof.
  intros Hne Hold. apply generateTrendAnalysis_stale; [exact Hne|].
  now apply recentSessions_nil.
Qed.

Lemma raw_score_clamp (ratio : Q) :
  exists y, raw_score (Fin ratio) = Fin y /\ y == clamp 0 100 (100 - (ratio - 1) * 50).
Proof.
  unfold raw_score, nsub. cbn [nneg nadd nmul].
  set (x := 100 + - ((ratio + - (1)) * 50)).
  assert (Hx : x == 100 - (ratio - 1) * 50) by (unfold x; lra).
  unfold clamp.
  unfold nmin, nmax, nlt.
  destruct (Qltb x 100) eqn:E1.
  - apply Qltb_lt in E1.
    destruct (Qltb 0 x) eqn:E2.
    + apply Qltb_lt in E2. exists x. split; [reflexivity|].
      destruct (Qlt_le_dec _ 0); [lra|]. destruct (Qlt_le_dec 100 _); lra.
    + apply Qltb_nlt in E2. exists 0. split; [reflexivity|].
      destruct (Qlt_le_dec _ 0); [lra|]. destruct (Qlt_le_dec 100 _); lra.
  - apply Qltb_nlt in E1.
    exists 100. split; [reflexivity|].
    destruct (Qlt_le_dec _ 0); [lra|]. destruct (Qlt_le_dec 100 _); lra.
Qed.

Lemma Qround_half_up_comp (a b : Q) : a == b -> Qround_half_up a = Qround_half_up b.
Proof.
  intro H. unfold Qround_half_up. apply Qfloor_comp. now rewrite H.
Qed.

Lemma latest_is_most_recent (now : Z) (sessions : list Session)
    (latest : Session) (rest : list Session) :
  recentSessions now sessions = latest :: rest ->
  let recent := filter (fun s => (now - 604800000 <=? timestamp s)%Z) sessions in
  In latest recent /\ (forall s, In s recent -> (timestamp s <= timestamp latest)%Z).
Proof.
  unfold recentSessions. intro H.
  set (recent := filter (fun s => (now - 604800000 <=? timestamp s)%Z) sessions) in *.
  pose proof (sort_perm by_time_desc recent) as P. rewrite H in P.
  pose proof (by_time_desc_sorted recent) as S. rewrite H in S.
  split.
  - apply (Permutation_in _ (Permutation_sym P)). now left.
  - intros s Hs. apply (Permutation_in _ P) in Hs.
    destruct Hs as [->|Hs]; [lia|].
    inversion S as [|? ? ? Hall]; subst.
    rewrite Forall_forall in Hall. now apply Hall.
Qed.

(** *** The score over doubles

    From here on [Session], [TrendAnalysis], [generateTrendAnalysis] and
    what they use are those of [Analysis64], and [recentSessions] and
    [clamp] those of [Notions64]. *)

Import PrimFloat SpecFloat FloatOps FloatAxioms.
Import Float64 SignalProcessing64 Analysis64 Notions64 Float64Facts.
#[local] Open Scope float_scope.
#[local] Unset Implicit Arguments.

Section WithMath.

Variable Math_sqrt : float -> float.
Variable Math_pow : float -> float -> float.
Variable Number_toString : float -> string.

(** The report when the window holds a session. *)
Lemma report_of_latest (now : Z) (sessions : list Session)
    (latest : Session) (rest : list Session) :
  recentSessions now sessions = latest :: rest ->
  exists classification summary anomalies,
    generateTrendAnalysis Math_sqrt Math_pow Number_toString now sessions =
    Return {| stabilityScore :=
                Math_round (clamp 0 100
                  (100 - (variability (stats latest) / or_else (calculateBaseline sessions) 1 - 1)
                         * 50));
              classification := classification;
              summary := summary;
              anomalies := anomalies;
              correlations :=
                correlation_of Number_toString caffeine "Caffeine" "Sessions with caffeine"
                               sessions
                ++ correlation_of Number_toString stress "Stress"
                                  "Sessions marked as stressful" sessions |}.
Proof.
  unfold recentSessions. rewrite <- week_window. intro H.
  unfold generateTrendAnalysis.
  destruct sessions as [|s0 ss]; [discriminate|].
  replace (Nat.eqb (length (s0 :: ss)) 0) with false by reflexivity.
  cbv zeta. rewrite H. cbn [nth_error].
  do 3 eexists. reflexivity.
Qed.

(** The call throws when the window of a non-empty history is empty. *)
Lemma report_of_empty_window (now : Z) (sessions : list Session) :
  sessions <> [] ->
  recentSessions now sessions = [] ->
  generateTrendAnalysis Math_sqrt Math_pow Number_toString now sessions = Throw "TypeError".
Proof.
  unfold recentSessions. rewrite <- week_window. intros Hne H.
  unfold generateTrendAnalysis.
  destruct sessions as [|s0 ss]; [congruence|].
  replace (Nat.eqb (length (s0 :: ss)) 0) with false by reflexivity.
  cbv zeta. rewrite H. reflexivity.
Qed.

End WithMath.

Lemma empty_window_iff (now : Z) (sessions : list Session) :
  recentSessions now sessions = [] <->
  (forall s, In s sessions -> (timestamp s < now - 604800000)%Z).
Proof.
  unfold recentSessions. split.
  - intros H s Hs.
    destruct (Z_lt_le_dec (timestamp s) (now - 604800000)) as [L|L]; [exact L|].
    assert (Hin : In s (filter (fun s => (now - 604800000 <=? timestamp s)%Z) sessions)).
    { apply filter_In. split; [exact Hs|]. now apply Z.leb_le. }
    apply (Permutation_in _ (sort_perm by_time_desc _)) in Hin.
    rewrite H in Hin. destruct Hin.
  - intro H.
    assert (E : filter (fun s => (now - 604800000 <=? timestamp s)%Z) sessions = []).
    { induction sessions as [|s ss IH]; [reflexivity|]. simpl.
      assert (L := H s (or_introl eq_refl)).
      destruct (Z.leb_spec (now - 604800000) (timestamp s)); [lia|].
      apply IH. intros s' Hs'. apply H. now right. }
    now rewrite E.
Qed.



End ReportProps.

(* ================================================================= *)
(** ** Context correlations *)

Module CorrelationProps.

Import TrendProps ReportProps.

#[local] Arguments ngt : simpl never.

Lemma average_variability_finite (group : list Session) :
  group <> [] -> average_variability group = Fin (group_average group).
Proof.
  intro H. unfold average_variability, group_average, Qaverage.
  rewrite (reduce_sum_finite variability_of (fun s => variability (stats s)))
    by reflexivity.
  rewrite length_map. apply ndiv_of_nat. destruct group; simpl; congruence.
Qed.

Lemma correlations_of_report (sqrt : Q -> Q) (now : Z) (sessions : list Session)
    (report : TrendAnalysis) :
  generateTrendAnalysis sqrt now sessions = Return report ->
  correlations report =
  correlation_of caffeine "Caffeine" "Sessions with caffeine" sessions
  ++ correlation_of stress "Stress" "Sessions marked as stressful" sessions.
Proof.
  intro H. destruct sessions as [|s0 ss].
  - cbv in H. injection H as <-. reflexivity.
  - destruct (recentSessions now (s0 :: ss)) as [|latest rest] eqn:Hrec.
    + rewrite (generateTrendAnalysis_stale sqrt now) in H; [discriminate|discriminate|exact Hrec].
    + destruct (generateTrendAnalysis_latest sqrt now (s0 :: ss) Hrec) as (c & su & an & E).
      rewrite E in H. injection H as <-. reflexivity.
Qed.

(** *** The correlations over doubles

    From here on [Session], [correlation_of], [generateTrendAnalysis] and
    what they use are those of [Analysis64], and [group_average] and
    [correlation_claim] those of [Notions64]. *)

Import PrimFloat SpecFloat FloatOps FloatAxioms.
Import Float64 SignalProcessing64 Analysis64 Notions64 Float64Facts.
#[local] Open Scope float_scope.
#[local] Unset Implicit Arguments.

Lemma average_variability_as_group (group : list Session) :
  average_variability group = group_average group.
Proof.
  unfold average_variability, group_average, reduce_sum, sum, variability_of.
  now rewrite fold_add_map.
Qed.

Section OneFlag.

Variable Number_toString : float -> string.
Variable flag : RecordingContext -> option bool.
Variable name subject : string.
Variable sessions : list Session.

Let flagSessions := filter (fun s => flagged flag s) sessions.
Let noFlagSessions := filter (fun s => negb (flagged flag s)) sessions.
Let f := group_average flagSessions.
Let u := group_average noFlagSessions.
Let difference := (f - u) / u.

#[local, warnings="-notation-for-abbreviation"] Notation block := (correlation_of Number_toString flag name subject sessions).

Lemma correlation_block_few :
  ~ ((2 < length flagSessions)%nat /\ (2 < length noFlagSessions)%nat) -> block = [].
Proof.
  intro H. unfold correlation_of. cbv zeta. fold flagSessions noFlagSessions.
  destruct (Nat.ltb_spec 2 (length flagSessions));
    destruct (Nat.ltb_spec 2 (length noFlagSessions)); simpl; try reflexivity.
  exfalso. apply H. split; assumption.
Qed.

Lemma correlation_block_enough :
  (2 < length flagSessions)%nat -> (2 < length noFlagSessions)%nat ->
  block =
  if 0.1 <? abs difference then
    [ {| correlation_context := name;
         impact := if 0 <? difference then negative else positive;
         description :=
           (subject ++ " show " ++ toFixed0 Number_toString (abs (difference * 100)%float)
            ++ "% " ++ (if (0 <? difference)%float then "higher" else "lower")
            ++ " variability.")%string |} ]
  else [].
Proof.
  intros H1 H2. unfold correlation_of. cbv zeta. fold flagSessions noFlagSessions.
  destruct (Nat.ltb_spec 2 (length flagSessions)); [|lia].
  destruct (Nat.ltb_spec 2 (length noFlagSessions)); [|lia].
  cbn [andb]. rewrite !average_variability_as_group. reflexivity.
Qed.

Lemma correlation_block_context (e : Correlation) :
  In e block -> correlation_context e = name.
Proof.
  unfold correlation_of. cbv zeta.
  destruct (_ && _); [|intros []].
  destruct (gtb _ _); [|intros []].
  intros [<-|[]]. reflexivity.
Qed.

(** What the correlation block of one flag does. *)
Lemma correlation_block_spec :
  ((exists e, In e block) <->
   ((2 < length flagSessions)%nat /\ (2 < length noFlagSessions)%nat /\
    (0.1 <? abs difference) = true)) /\
  (forall e, In e block ->
     ((0 <? difference) = true ->
      impact e = negative /\
      description e
      = (subject ++ " show " ++ toFixed0 Number_toString (abs (difference * 100)%float)
         ++ "% higher variability.")%string) /\
     ((difference <? 0) = true ->
      impact e = positive /\
      description e
      = (subject ++ " show " ++ toFixed0 Number_toString (abs (difference * 100)%float)
         ++ "% lower variability.")%string) /\
     ((0 <? u) = true ->
      (0 <? difference) = (u <? f) /\ (difference <? 0) = (f <? u))).
Proof.
  destruct (Nat.ltb_spec 2 (length flagSessions)) as [H1|H1];
    [destruct (Nat.ltb_spec 2 (length noFlagSessions)) as [H2|H2]|].
  2,3: rewrite correlation_block_few by lia; split;
       [split; [intros (e & []) | intros (? & ? & ?); lia] | intros e []].
  rewrite (correlation_block_enough H1 H2).
  destruct (0.1 <? abs difference) eqn:E.
  - split.
    + split; [intros _; auto | intros _; eexists; now left].
    + intros e [<-|[]]. cbn [impact description]. split; [|split].
      * intro L. rewrite L. split; reflexivity.
      * intro L. rewrite (below_not_above _ L). split; reflexivity.
      * intro Hu. apply relative_difference_sign; [exact Hu|].
        now apply above_tenth_not_zero.
  - split; [|intros e []].
    split; [intros (e & []) | intros (_ & _ & A); discriminate A].
Qed.

End OneFlag.

Section WithMath.

Variable Math_sqrt : float -> float.
Variable Math_pow : float -> float -> float.
Variable Number_toString : float -> string.

Lemma report_correlations (now : Z) (sessions : list Session) (report : TrendAnalysis) :
  generateTrendAnalysis Math_sqrt Math_pow Number_toString now sessions = Return report ->
  correlations report =
  correlation_of Number_toString caffeine "Caffeine" "Sessions with caffeine" sessions
  ++ correlation_of Number_toString stress "Stress" "Sessions marked as stressful" sessions.
Proof.
  intro H. destruct sessions as [|s0 ss].
  - cbv in H. injection H as <-. reflexivity.
  - destruct (recentSessions now (s0 :: ss)) as [|latest rest] eqn:Hrec.
    + rewrite (report_of_empty_window Math_sqrt Math_pow Number_toString now) in H;
        [discriminate|discriminate|exact Hrec].
    + destruct (report_of_latest Math_sqrt Math_pow Number_toString now
                  (s0 :: ss) latest rest Hrec) as (c & su & an & E).
      rewrite E in H. injection H as <-. reflexivity.
Qed.

Lemma claim_of_blocks (flag : RecordingContext -> option bool)
    (name subject : string) (sessions : list Session) (report : TrendAnalysis)
    (before after : list Correlation) :
  correlations report
  = before ++ correlation_of Number_toString flag name subject sessions ++ after ->
  (forall e, In e before -> correlation_context e <> name) ->
  (forall e, In e after -> correlation_context e <> name) ->
  correlation_claim Number_toString flag name subject sessions report.
Proof.
  intros Hc Hb Ha.
  destruct (correlation_block_spec Number_toString flag name subject sessions)
    as [Hiff Hentry].
  assert (Hin : forall e, In e (correlations report) /\ correlation_context e = name <->
                          In e (correlation_of Number_toString flag name subject sessions)).
  { intro e. rewrite Hc. rewrite !in_app_iff. split.
    - intros [[H|[H|H]] Hn]; [now apply Hb in H | exact H | now apply Ha in H].
    - intro H. split; [tauto|]. now apply correlation_block_context in H. }
  unfold correlation_claim. cbv zeta. split.
  - rewrite <- Hiff. split; intros (e & He); exists e; now apply Hin.
  - intros e He Hn. apply Hentry. apply Hin. now split.
Qed.

End WithMath.

(** C7.  Whenever [generateTrendAnalysis] returns a report, the report
    holds, for each of the two tracked flags, caffeine and stress, a
    correlation entry if and only if the flagged and the unflagged group
    both contain more than 2 sessions and the relative difference of
    their average variabilities exceeds 10% in absolute value; the impact
    is "negative" when the difference is positive (the flagged average
    higher) and "positive" when it is negative, and the description cites
    the percentage rounded to an integer, all computed on doubles as the
    code computes them.  Five caffeine sessions averaging 15 against five
    others averaging 10 give a "negative" entry citing 50% higher
    variability.  But on a non-empty history with no session in the last
    7 days the call throws, and no entry is reported whatever the groups
    are. *)
Theorem correlations_spec (Math_sqrt : float -> float) (Math_pow : float -> float -> float)
    (Number_toString : float -> string) (now : Z) (sessions : list Session) :
  (forall report,
     generateTrendAnalysis Math_sqrt Math_pow Number_toString now sessions = Return report ->
     correlation_claim Number_toString caffeine "Caffeine" "Sessions with caffeine"
                       sessions report /\
     correlation_claim Number_toString stress "Stress" "Sessions marked as stressful"
                       sessions report /\
     (let caffeineSessions := filter (fun s => flagged caffeine s) sessions in
      let noCaffeineSessions := filter (fun s => negb (flagged caffeine s)) sessions in
      length caffeineSessions = 5%nat -> group_average caffeineSessions = 15 ->
      length noCaffeineSessions = 5%nat -> group_average noCaffeineSessions = 10 ->
      In {| correlation_context := "Caffeine"; impact := negative;
            description := "Sessions with caffeine show 50% higher variability." |}
         (correlations report))) /\
  (sessions <> [] ->
   (forall s, In s sessions -> (timestamp s < now - 604800000)%Z) ->
   generateTrendAnalysis Math_sqrt Math_pow Number_toString now sessions = Throw "TypeError").
Proof.
  split.
  - intros report Hret.
    pose proof (report_correlations _ _ _ _ _ _ Hret) as Hc.
    assert (C1 : correlation_claim Number_toString caffeine "Caffeine"
                   "Sessions with caffeine" sessions report).
    { apply claim_of_blocks with (before := [])
        (after := correlation_of Number_toString stress "Stress"
                    "Sessions marked as stressful" sessions);
        [exact Hc|intros e []|].
      intros e He. apply correlation_block_context in He. rewrite He. discriminate. }
    assert (C2 : correlation_claim Number_toString stress "Stress"
                   "Sessions marked as stressful" sessions report).
    { apply claim_of_blocks
        with (before := correlation_of Number_toString caffeine "Caffeine"
                          "Sessions with caffeine" sessions)
             (after := []);
        [now rewrite app_nil_r| |intros e []].
      intros e He. apply correlation_block_context in He. rewrite He. discriminate. }
    split; [exact C1|]. split; [exact C2|].
    intros caffeineSessions noCaffeineSessions L1 A1 L2 A2.
    destruct C1 as [Hiff Hentry]. cbv zeta in Hiff, Hentry.
    fold caffeineSessions noCaffeineSessions in Hiff, Hentry.
    rewrite A1, A2 in Hiff, Hentry.
    destruct Hiff as [_ Hex].
    destruct Hex as (e & He & Hn).
    { rewrite L1, L2. repeat split; try lia. }
    destruct (Hentry e He Hn) as (Hhigh & _).
    destruct Hhigh as [Hi Hdesc]; [vm_compute; reflexivity|].
    assert (Hp : toFixed0 Number_toString (abs ((15 - 10) / 10 * 100)) = "50"%string)
      by (vm_compute; reflexivity).
    rewrite Hp in Hdesc.
    destruct e as [c i d]. cbn in Hn, Hi, Hdesc. subst c i d. exact He.
  - intros Hne Hold. apply report_of_empty_window; [exact Hne|].
    now apply empty_window_iff.
Qed.

End CorrelationProps.

(* ================================================================= *)
(** ** Smoothing *)

Module SmoothingProps.

Lemma firstn_seq {A : Type} (d : A) (l : list A) (c : nat) :
  (c <= length l)%nat -> firstn c l = map (fun j => nth j l d) (seq 0 c).
Proof.
  revert c. induction l as [|a l IH]; intros c H.
  - simpl in H. assert (c = 0%nat) by lia. subst c. reflexivity.
  - destruct c as [|c]; [reflexivity|].
    cbn [firstn seq map nth]. f_equal.
    rewrite <- seq_shift, map_map. apply IH. simpl in H. lia.
Qed.

Lemma firstn_skipn_seq {A : Type} (d : A) (l : list A) (s c : nat) :
  (s + c <= length l)%nat ->
  firstn c (skipn s l) = map (fun j => nth j l d) (seq s c).
Proof.
  revert l. induction s as [|s IH]; intros l H.
  - apply firstn_seq. simpl in H. lia.
  - destruct l as [|a l]; [simpl in H; lia|].
    cbn [skipn]. rewrite <- seq_shift, map_map. cbn [nth].
    apply IH. simpl in H. lia.
Qed.

Lemma slice_seq {A : Type} (d : A) (l : list A) (lo hi : Z) :
  (0 <= lo)%Z -> (lo <= hi + 1)%Z -> (hi < Z.of_nat (length l))%Z ->
  slice l lo (hi + 1)
  = map (fun j => nth j l d) (seq (Z.to_nat lo) (Z.to_nat (hi - lo + 1))).
Proof.
  intros H0 H1 H2. unfold slice, rel_index.
  destruct (lo <? 0)%Z eqn:E1; [lia|].
  destruct (hi + 1 <? 0)%Z eqn:E2; [lia|].
  rewrite !Z.min_l by lia.
  replace (hi + 1 - lo)%Z with (hi - lo + 1)%Z by lia.
  apply firstn_skipn_seq. lia.
Qed.

Lemma half_window_nonneg (w : Q) : 1 <= w -> (0 <= Qfloor (w / 2))%Z.
Proof.
  intro H. change 0%Z with (Qfloor 0). apply Qfloor_resp_le.
  apply Qle_shift_div_l; lra.
Qed.

Lemma window_average_mean (data : list num) (h : Z) (i : nat) :
  (0 <= h)%Z -> (i < length data)%nat ->
  let lo := Z.max 0 (Z.of_nat i - h) in
  let hi := Z.min (Z.of_nat (length data) - 1) (Z.of_nat i + h) in
  window_average data h i = mean_between data lo hi.
Proof.
  intros Hh Hi lo hi. unfold window_average, mean_between. cbv zeta.
  fold lo.
  replace (Z.min (Z.of_nat (length data)) (Z.of_nat i + h + 1)) with (hi + 1)%Z
    by (unfold hi; lia).
  rewrite (slice_seq NaN) by (unfold lo, hi; lia).
  rewrite length_map, length_seq. reflexivity.
Qed.

(** On a series of finite numbers the mean is the rational one. *)
Lemma mean_between_finite (qs : list Q) (lo hi : Z) :
  (0 <= lo <= hi)%Z -> (hi < Z.of_nat (length qs))%Z ->
  mean_between (map Fin qs) lo hi
  = Fin (Qsum (map (fun j => nth j qs 0) (seq (Z.to_nat lo) (Z.to_nat (hi - lo + 1))))
         / inject_Z (hi - lo + 1)).
Proof.
  intros Hlo Hhi. unfold mean_between. cbv zeta.
  set (count := Z.to_nat (hi - lo + 1)).
  assert (Hc : (Z.to_nat lo + count <= length qs)%nat) by (unfold count; lia).
  replace (map (fun j => nth j (map Fin qs) NaN) (seq (Z.to_nat lo) count))
    with (map Fin (map (fun j => nth j qs 0) (seq (Z.to_nat lo) count))).
  - change (fold_left nadd ?l (Fin 0)) with (reduce_sum (fun v => v) l).
    rewrite reduce_sum_Fin.
    replace (inject_Z (hi - lo + 1)) with (inject_Z (Z.of_nat count))
      by (unfold count; now rewrite Z2Nat.id by lia).
    apply ndiv_of_nat. unfold count. lia.
  - rewrite map_map. apply map_ext_in. intros j Hj. apply in_seq in Hj.
    symmetry. apply nth_Fin. lia.
Qed.

(** C9.  For every series and every window size [w >= 1]: [smoothData]
    returns the input unchanged when [w] is at least the length of the
    series; otherwise the element at every index [i] is the mean of the
    input elements at the indices [max(0, i - floor(w/2))] through
    [min(length - 1, i + floor(w/2))], the sum divided by the number of
    those indices; and the output is as long as the input. *)
Theorem smoothData_spec (data : list num) (w : Q) :
  1 <= w ->
  (inject_Z (Z.of_nat (length data)) <= w -> smoothData data w = data) /\
  length (smoothData data w) = length data /\
  (w < inject_Z (Z.of_nat (length data)) ->
   forall i : nat, (i < length data)%nat ->
     let half := Qfloor (w / 2) in
     let lo := Z.max 0 (Z.of_nat i - half) in
     let hi := Z.min (Z.of_nat (length data) - 1) (Z.of_nat i + half) in
     (0 <= lo <= Z.of_nat i)%Z /\ (Z.of_nat i <= hi < Z.of_nat (length data))%Z /\
     nth i (smoothData data w) NaN = mean_between data lo hi /\
     (forall qs : list Q, data = map Fin qs ->
        nth i (smoothData data w) NaN
        = Fin (Qsum (map (fun j => nth j qs 0) (seq (Z.to_nat lo) (Z.to_nat (hi - lo + 1))))
               / inject_Z (hi - lo + 1)))).
Proof.
  intro Hw.
  assert (Hh := half_window_nonneg Hw).
  unfold smoothData.
  destruct data as [|a data']; [cbn; repeat split; intros; try reflexivity; lia|].
  set (data := a :: data') in *.
  replace (Nat.eqb (length data) 0) with false by reflexivity.
  destruct (Qle_bool (inject_Z (Z.of_nat (length data))) w) eqn:E.
  - apply Qle_bool_iff in E. repeat split; try reflexivity; intros; lra.
  - assert (E' : ~ inject_Z (Z.of_nat (length data)) <= w).
    { intro L. apply Qle_bool_iff in L. congruence. }
    split; [intro; contradiction|].
    split; [now rewrite length_map, length_seq|].
    intros _ i Hi. cbv zeta. set (half := Qfloor (w / 2)) in *.
    split; [lia|]. split; [lia|].
    assert (Hnth : nth i (map (window_average data half) (seq 0 (length data))) NaN
                   = mean_between data (Z.max 0 (Z.of_nat i - half))
                       (Z.min (Z.of_nat (length data) - 1) (Z.of_nat i + half))).
    { rewrite (nth_indep _ NaN (window_average data half 0))
        by (now rewrite length_map, length_seq).
      rewrite (map_nth (window_average data half)), seq_nth by exact Hi.
      now apply window_average_mean. }
    split; [exact Hnth|].
    intros qs Hqs. rewrite Hnth, Hqs.
    apply mean_between_finite; rewrite Hqs, length_map in *; lia.
Qed.

End SmoothingProps.

(* ================================================================= *)
(** ** Anomalies of a constant series *)

(** The functions are those of [SignalProcessing64]. *)

Module AnomalyProps.

Import PrimFloat Float64 SignalProcessing64 Notions64 Float64Facts.
#[local] Open Scope float_scope.
#[local] Unset Implicit Arguments.

Lemma fold_zero_or_nan (f : float -> float) (l : list float) (acc : float) :
  zero_or_nan acc = true ->
  (forall v, In v l -> zero_or_nan (f v) = true) ->
  zero_or_nan (fold_left (fun sum v => sum + f v) l acc) = true.
Proof.
  revert acc. induction l as [|v l IH]; intros acc Hacc Hl; [exact Hacc|].
  cbn [fold_left]. apply IH.
  - apply add_zero_or_nan; [exact Hacc|]. apply Hl. now left.
  - intros w Hw. apply Hl. now right.
Qed.

(** No index is flagged when the deviations and the standard deviation
    are zeros or [NaN]: every z-score is [NaN]. *)
Lemma no_anomaly_without_deviation (mean stdDev threshold : float) (l : list float)
    (index : nat) :
  zero_or_nan stdDev = true ->
  (forall v, In v l -> zero_or_nan (v - mean) = true) ->
  anomalies_from mean stdDev threshold l index = [].
Proof.
  intros Hs. revert index. induction l as [|v l IH]; intros index Hl; [reflexivity|].
  cbn [anomalies_from]. unfold zScore.
  rewrite gtb_nan.
  - apply IH. intros w Hw. apply Hl. now right.
  - apply abs_nan, div_both_zero_or_nan; [|exact Hs]. apply Hl. now left.
Qed.

(** The mean computed for a singleton series is its element. *)
Lemma singleton_mean (v : float) : same_value v (mean_of [v]) = true.
Proof.
  unfold mean_of, reduce_sum. cbn [fold_left length].
  replace (of_nat 1) with 1 by (vm_compute; reflexivity).
  rewrite div_one. apply add_zero_same_value.
Qed.

(** C10, as amended.  For every series each of whose values equals the
    mean that the code computes for it (a constant series whose mean is
    computed without rounding error) and for every threshold,
    [detectAnomalies] returns the empty list: when the series is not
    empty, the standard deviation computed is a zero or [NaN] and every
    z-score is [NaN], the value of [0 / 0], so that no comparison with
    the threshold succeeds.  Every singleton series is such a series.
    [Math.sqrt] and [Math.pow] are arguments, of which only the values at
    zeros and [NaN] matter. *)
Theorem detectAnomalies_constant (Math_sqrt : float -> float)
    (Math_pow : float -> float -> float) (magnitude : list float) (threshold : float) :
  (forall x, zero_or_nan x = true -> zero_or_nan (Math_sqrt x) = true) ->
  (forall d, zero_or_nan d = true -> zero_or_nan (Math_pow d 2) = true) ->
  ((forall v, In v magnitude -> same_value v (mean_of magnitude) = true) ->
   detectAnomalies Math_sqrt Math_pow magnitude threshold = [] /\
   (magnitude <> [] ->
    let mean := mean_of magnitude in
    let stdDev := calculateVariability Math_sqrt Math_pow magnitude in
    zero_or_nan stdDev = true /\
    forall v, In v magnitude -> is_nan (zScore mean stdDev v) = true)) /\
  (forall v, detectAnomalies Math_sqrt Math_pow [v] threshold = []).
Proof.
  intros sqrt_zero pow_zero.
  assert (Hs : forall l,
             (forall v, In v l -> zero_or_nan (v - mean_of l) = true) ->
             Nat.eqb (length l) 0 = false ->
             zero_or_nan (calculateVariability Math_sqrt Math_pow l) = true).
  { intros l Hd E. unfold calculateVariability. rewrite E.
    apply sqrt_zero, div_zero_or_nan. unfold reduce_sum.
    apply fold_zero_or_nan; [reflexivity|].
    intros v Hv. now apply pow_zero, Hd. }
  assert (Hnone : forall l,
             (forall v, In v l -> same_value v (mean_of l) = true) ->
             detectAnomalies Math_sqrt Math_pow l threshold = []).
  { intros l H.
    assert (Hd : forall v, In v l -> zero_or_nan (v - mean_of l) = true)
      by (intros v Hv; now apply sub_same_value, H).
    unfold detectAnomalies.
    destruct (Nat.eqb (length l) 0) eqn:E; [reflexivity|].
    apply no_anomaly_without_deviation; [now apply Hs|exact Hd]. }
  split.
  - intro H. split; [now apply Hnone|].
    intros Hne mean stdDev.
    assert (Hd : forall v, In v magnitude -> zero_or_nan (v - mean_of magnitude) = true)
      by (intros v Hv; now apply sub_same_value, H).
    assert (E : Nat.eqb (length magnitude) 0 = false)
      by (destruct magnitude; [contradiction|reflexivity]).
    split; [now apply Hs|].
    intros v Hv. unfold zScore.
    apply abs_nan, div_both_zero_or_nan; [now apply Hd|now apply Hs].
  - intro v. apply Hnone. intros w [<-|[]]. apply singleton_mean.
Qed.

End AnomalyProps.

(* ================================================================= *)
(** ** Loading the settings *)

Module SettingsProps.

Import Storage.

Lemma obj_get_app {V : Type} (k : string) (a b : object V) :
  obj_get k (a ++ b) = match obj_get k b with
                       | Some v => Some v
                       | None => obj_get k a
                       end.
Proof.
  induction a as [|[k' v] a IH]; cbn [app obj_get].
  - now destruct (obj_get k b).
  - rewrite IH. destruct (obj_get k b); [reflexivity|].
    reflexivity.
Qed.

(** C3, as amended.  [loadSettings] returns the three defaults
    (samplingRate medium, recordingDuration 10, theme dark) when nothing
    is stored or the stored text does not parse; otherwise each of
    samplingRate, recordingDuration and theme is the stored value when
    the field is present, whatever that value is, and the default when
    the field is missing. *)
Theorem loadSettings_merge
    (AsyncStorage_getItem : string -> completion (option string))
    (JSON_parse : string -> completion json) (st : Store) :
  let data := or_null (fst (read_item AsyncStorage_getItem SETTINGS_KEY st)) in
  let result := fst (loadSettings AsyncStorage_getItem JSON_parse st) in
  (data = None -> result = DEFAULT_SETTINGS) /\
  (forall text, data = Some text ->
     (forall e, JSON_parse text = Throw e -> result = DEFAULT_SETTINGS) /\
     (forall stored, JSON_parse text = Return stored ->
        forall k, settings_field k ->
          (forall v, property k stored = Some v -> obj_get k result = Some v) /\
          (property k stored = None -> obj_get k result = obj_get k DEFAULT_SETTINGS))) /\
  obj_get "samplingRate" DEFAULT_SETTINGS = Some (JStr "medium") /\
  obj_get "recordingDuration" DEFAULT_SETTINGS = Some (JNum 10) /\
  obj_get "theme" DEFAULT_SETTINGS = Some (JStr "dark").
Proof.
  intros data result. unfold result, loadSettings.
  destruct (read_item AsyncStorage_getItem SETTINGS_KEY st) as [d st'] eqn:R.
  unfold data. cbn [fst].
  split; [|split; [|repeat split]].
  - intro H. now rewrite H.
  - intros text H. rewrite H. split.
    + intros e He. now rewrite He.
    + intros stored Hs k _. rewrite Hs. cbn [fst]. unfold spread, property.
      rewrite obj_get_app. split.
      * intros v Hv. now rewrite Hv.
      * intro Hn. now rewrite Hn.
Qed.

End SettingsProps.

(* ================================================================= *)
(** ** Stopping a recording whose save fails *)

Module RecordingProps.

Import Recording.

(** C2.  When the save of the assembled session fails, [stopRecording]
    reports the failure and returns no session, but the buffer of
    readings does not survive: the render caused by
    [setIsRecording(false)] runs the effect of [useSensors] with
    [enabled] false, which empties the buffer, before or after the save
    settles; a second call then finds no data. *)
Theorem stopRecording_failed_save_loses_readings
    (sqrt : Q -> Q) (duration : num) (context : option RecordingContext)
    (render_first : bool) (now : Z) (random : string) (h : Hooks) :
  isRecording h = true -> enabled h = true -> readingsRef h <> [] ->
  let outcome := stopRecording sqrt duration context render_first false now random h in
  snd outcome = None /\
  error (fst outcome) = Some "Failed to save session"%string /\
  readingsRef (fst outcome) = [] /\
  forall render_first' saved' now' random',
    let retry :=
      stopRecording sqrt duration context render_first' saved' now' random' (fst outcome) in
    snd retry = None /\ error (fst retry) = Some "No data collected"%string.
Proof.
  intros Hrec Hen Hbuf.
  destruct h as [rec en pr er buf rs st pi]. cbn in Hrec, Hen, Hbuf. subst rec en.
  destruct buf as [|r buf]; [congruence|].
  destruct render_first; cbn; repeat split; intros; destruct render_first'; reflexivity.
Qed.

End RecordingProps.

Module Witnesses.

Import Storage Recording Examples.
Import ClassificationProps BaselineProps TrendProps ReportProps CorrelationProps.
Import SmoothingProps AnomalyProps SettingsProps RecordingProps.

(** A month-old single session makes the analysis throw. *)
Lemma generateTrendAnalysis_throws_on_stale_history_witness :
  generateTrendAnalysis sqrt_approx today stale_history = Throw "TypeError".
Proof.
  apply generateTrendAnalysis_throws_on_stale_history.
  - discriminate.
  - intros s [<-|[]]. vm_compute. reflexivity.
Defined.

(** The baseline of variabilities 1, 2, 3, 4 is 2.5. *)
Lemma calculateBaseline_median_witness : neq (calculateBaseline four_sessions) (Fin 2.5).
Proof.
  apply (proj1 (proj2 calculateBaseline_median)). reflexivity.
Defined.

(** A window of 3 over six points keeps six points. *)
Lemma smoothData_spec_witness :
  length (smoothData (map Fin [1; 2; 3; 4; 5; 6]) 3) = length (map Fin [1; 2; 3; 4; 5; 6]).
Proof.
  apply (proj1 (proj2 (@smoothData_spec (map Fin [1; 2; 3; 4; 5; 6]) 3
                         ltac:(vm_compute; discriminate)))).
Defined.

(** With nothing stored the defaults are returned. *)
Lemma loadSettings_merge_witness :
  fst (loadSettings getItem_nothing parse_purple primary_store) = DEFAULT_SETTINGS.
Proof.
  apply (proj1 (@loadSettings_merge getItem_nothing parse_purple primary_store)).
  reflexivity.
Defined.

(** A stored theme that is not one of light, dark and auto is returned as
    it is, not replaced by the default. *)
Lemma loadSettings_keeps_unrecognized_theme :
  or_null (fst (read_item getItem_text SETTINGS_KEY primary_store)) = Some stored_text /\
  parse_purple stored_text = Return purple_settings /\
  property "theme" purple_settings = Some (JStr "purple") /\
  recognized "theme" (JStr "purple") = false /\
  obj_get "theme" (fst (loadSettings getItem_text parse_purple primary_store))
  = Some (JStr "purple") /\
  ~ validated_field "theme" purple_settings
      (fst (loadSettings getItem_text parse_purple primary_store)) /\
  ~ loadSettings_validates.
Proof.
  assert (V : ~ validated_field "theme" purple_settings
                  (fst (loadSettings getItem_text parse_purple primary_store))).
  { intro H. vm_compute in H. discriminate H. }
  repeat split; try reflexivity; try exact V.
  intro H. apply V.
  apply (H getItem_text parse_purple primary_store stored_text purple_settings
           eq_refl eq_refl "theme"%string (or_intror (or_intror eq_refl))).
Qed.

(** A recording with one reading whose save fails. *)
Lemma stopRecording_failed_save_loses_readings_witness :
  readingsRef (fst (stopRecording sqrt_approx (Fin 10) None true false today "k3x9"
                                  recording_hooks)) = [].
Proof.
  apply (@stopRecording_failed_save_loses_readings sqrt_approx (Fin 10) None true today "k3x9"
           recording_hooks eq_refl eq_refl ltac:(discriminate)).
Defined.

(** *** Over doubles

    From here on the functions are those of [SignalProcessing64] and
    [Analysis64], and the inputs those of [Examples64]. *)

Import PrimFloat Float64 SignalProcessing64 Analysis64 Notions64 Float64Facts Examples64.
#[local] Open Scope float_scope.
#[local] Unset Implicit Arguments.

(** Variabilities 0.1, 0.04, 0.13: the halves average 0.1 and 0.085, the
    change computed is -0.15, which is not below -0.15. *)
Lemma detectTrend_halves_witness : detectTrend today borderline_history 7 = trend_stable.
Proof.
  apply (proj2 (detectTrend_halves today borderline_history)).
  - vm_compute. lia.
  - vm_compute. lia.
  - vm_compute. reflexivity.
  - vm_compute. reflexivity.
Defined.


(** A history more than a month old makes the call throw although both
    caffeine groups hold three sessions and their averages, 15 and 10,
    differ by half.  Within the week, five sessions at 15 against five at
    10 are cited as 50% higher, and 229 against 200 as 14%. *)
Lemma correlations_spec_witness :
  generateTrendAnalysis sqrt Math_pow_square exponent_notation today stale_caffeine_history
  = Throw "TypeError" /\
  (exists report,
     generateTrendAnalysis sqrt Math_pow_square exponent_notation today scenario_history
     = Return report /\
     In {| correlation_context := "Caffeine"; impact := negative;
           description := "Sessions with caffeine show 50% higher variability." |}
        (correlations report)) /\
  (exists report,
     generateTrendAnalysis sqrt Math_pow_square exponent_notation today rounding_history
     = Return report /\
     In {| correlation_context := "Caffeine"; impact := negative;
           description := "Sessions with caffeine show 14% higher variability." |}
        (correlations report)).
Proof.
  split; [|split].
  - apply (proj2 (correlations_spec sqrt Math_pow_square exponent_notation today
                    stale_caffeine_history)).
    + discriminate.
    + intros s Hs. simpl in Hs.
      repeat (destruct Hs as [<-|Hs]; [vm_compute; reflexivity|]). destruct Hs.
  - eexists. split; [vm_compute; reflexivity|].
    match goal with
    | |- In _ (correlations ?r) =>
        apply (proj2 (proj2 (proj1 (correlations_spec sqrt Math_pow_square exponent_notation
                                      today scenario_history)
                               r ltac:(vm_compute; reflexivity))))
    end; vm_compute; reflexivity.
  - eexists. split; [vm_compute; reflexivity|].
    match goal with
    | |- In _ (correlations ?r) =>
        destruct (proj1 (correlations_spec sqrt Math_pow_square exponent_notation today
                           rounding_history) r ltac:(vm_compute; reflexivity))
          as ((Hiff & Hentry) & _)
    end.
    destruct (proj2 Hiff) as (e & He & Hn).
    { split; [vm_compute; lia|]. split; vm_compute; [lia|reflexivity]. }
    destruct (proj1 (Hentry e He Hn)) as [Hi Hd]; [vm_compute; reflexivity|].
    vm_compute in Hd.
    destruct e as [c i d]. cbn in Hn, Hi, Hd. subst c i d. exact He.
Defined.

(** The mean computed for 4, 4, 4 is 4: nothing is flagged. *)
Lemma detectAnomalies_constant_witness :
  detectAnomalies sqrt Math_pow_square [4; 4; 4] 2 = [].
Proof.
  apply (proj1 (proj1 (detectAnomalies_constant sqrt Math_pow_square [4; 4; 4] 2
                         sqrt_zero_or_nan (fun d => mul_zero_or_nan d))
                  ltac:(intros v Hv; simpl in Hv;
                        repeat (destruct Hv as [<-|Hv]; [vm_compute; reflexivity|]);
                        destruct Hv))).
Defined.

(** The mean computed for the constant series 0.1, 0.1, 0.1 is
    0.10000000000000002: the deviations are not zero, every z-score is 1,
    and with the threshold 0.5 every index is flagged. *)
Lemma detectAnomalies_flags_constant_series :
  (forall v, In v [0.1; 0.1; 0.1] -> v = 0.1) /\
  (0 <=? 0.5) = true /\
  detectAnomalies sqrt Math_pow_square [0.1; 0.1; 0.1] 0.5 = [0; 1; 2]%nat /\
  detectAnomalies sqrt Math_pow_square [0.1; 0.1; 0.1] 0.5 <> [].
Proof.
  split; [|split; [|split]].
  - intros v Hv. simpl in Hv.
    repeat (destruct Hv as [<-|Hv]; [reflexivity|]). destruct Hv.
  - vm_compute. reflexivity.
  - vm_compute. reflexivity.
  - vm_compute. discriminate.
Qed.

End Witnesses.

(* ================================================================= *)
(** ** Further properties of the signal processing *)

Module SignalProps.

Import AnomalyProps SmoothingProps.

#[local] Arguments ngt : simpl never.

(** *** Magnitudes *)

Lemma Qsum_squares_nonneg (a b c : Q) : 0 <= a * a + b * b + c * c.
Proof.
  pose proof (Qsquare_nonneg a). pose proof (Qsquare_nonneg b).
  pose proof (Qsquare_nonneg c). lra.
Qed.

Lemma calculateMagnitude_finite (sqrt : Q -> Q) (a b c : Q) :
  calculateMagnitude sqrt (Fin a) (Fin b) (Fin c) = Fin (sqrt (a * a + b * b + c * c)).
Proof.
  unfold calculateMagnitude. cbn [nmul nadd nsqrt].
  assert (N : Qltb (a * a + b * b + c * c) 0 = false).
  { apply Qltb_nlt. pose proof (Qsum_squares_nonneg a b c). lra. }
  now rewrite N.
Qed.

(** The magnitude series is as long as the shortest axis, and on finite
    samples each magnitude is the square root of the sum of the squares,
    never [NaN]. *)
Theorem calculateMagnitudeArray_shape (sqrt : Q -> Q) :
  (forall data : SensorData num,
      length (calculateMagnitudeArray sqrt data)
      = Nat.min (Nat.min (length (x data)) (length (y data))) (length (z data))) /\
  (forall (xs ys zs : list Q) (i : nat),
      (i < length xs)%nat -> (i < length ys)%nat -> (i < length zs)%nat ->
      nth i (calculateMagnitudeArray sqrt
               {| x := map Fin xs; y := map Fin ys; z := map Fin zs |}) NaN
      = Fin (sqrt (nth i xs 0 * nth i xs 0 + nth i ys 0 * nth i ys 0
                   + nth i zs 0 * nth i zs 0))).
Proof.
  split.
  - intro data. unfold calculateMagnitudeArray. cbv zeta.
    now rewrite length_map, length_seq.
  - intros xs ys zs i Hx Hy Hz. unfold calculateMagnitudeArray. cbv zeta. cbn [x y z].
    rewrite !length_map.
    set (n := Nat.min (Nat.min (length xs) (length ys)) (length zs)).
    assert (Hi : (i < n)%nat) by (unfold n; lia).
    set (f := fun i0 : nat => calculateMagnitude sqrt (nth i0 (map Fin xs) NaN)
                                (nth i0 (map Fin ys) NaN) (nth i0 (map Fin zs) NaN)).
    rewrite (nth_indep _ NaN (f 0%nat)) by (now rewrite length_map, length_seq).
    rewrite (map_nth f), seq_nth by exact Hi. unfold f. cbn [Nat.add].
    rewrite !nth_Fin by assumption.
    apply calculateMagnitude_finite.
Qed.

(** *** Non-empty series *)

Section Series.

Variable sqrt : Q -> Q.
Variable qs : list Q.
Hypothesis nonempty : qs <> [].

Lemma length_eqb_false : Nat.eqb (length (map Fin qs)) 0 = false.
Proof.
  rewrite length_map. destruct qs; [congruence|reflexivity].
Qed.

End Series.

(** *** Anomalies *)




(** *** Smoothing *)

(** A window size from 0 up to, not including, 2 smooths nothing: the
    output has the values of the input. *)
Theorem smoothData_narrow_window (qs : list Q) (w : Q) :
  0 <= w -> w < 2 ->
  length (smoothData (map Fin qs) w) = length qs /\
  forall i, (i < length qs)%nat ->
    neq (nth i (smoothData (map Fin qs) w) NaN) (Fin (nth i qs 0)).
Proof.
  intros H0 H2.
  assert (Hhalf : Qfloor (w / 2) = 0%Z).
  { assert (L : (0 <= Qfloor (w / 2))%Z).
    { change 0%Z with (Qfloor 0). apply Qfloor_resp_le. apply Qle_shift_div_l; lra. }
    assert (U : (Qfloor (w / 2) < 1)%Z).
    { destruct (Z_lt_le_dec (Qfloor (w / 2)) 1) as [A|A]; [exact A|exfalso].
      pose proof (Qfloor_le (w / 2)) as F.
      rewrite Zle_Qle in A. change (inject_Z 1) with 1 in A.
      assert (w / 2 < 1) by (apply Qlt_shift_div_r; lra). lra. }
    lia. }
  unfold smoothData.
  destruct qs as [|q0 qs'] eqn:E; [split; [reflexivity|cbn; intros; lia]|]. rewrite <- E in *.
  assert (Hne : qs <> []) by (rewrite E; discriminate).
  rewrite (length_eqb_false Hne).
  destruct (Qle_bool _ w).
  - split; [apply length_map|]. intros i Hi. rewrite nth_Fin by exact Hi. cbn. reflexivity.
  - rewrite Hhalf. split; [now rewrite length_map, length_seq, length_map|].
    intros i Hi.
    rewrite (nth_indep _ NaN (window_average (map Fin qs) 0 0))
      by (now rewrite length_map, length_seq, length_map).
    rewrite (map_nth (window_average (map Fin qs) 0)), seq_nth
      by (now rewrite length_map).
    cbn [Nat.add].
    rewrite window_average_mean by (rewrite ?length_map; lia).
    rewrite length_map.
    replace (Z.max 0 (Z.of_nat i - 0)) with (Z.of_nat i) by lia.
    replace (Z.min (Z.of_nat (length qs) - 1) (Z.of_nat i + 0)) with (Z.of_nat i) by lia.
    rewrite mean_between_finite by lia.
    replace (Z.of_nat i - Z.of_nat i + 1)%Z with 1%Z by lia.
    rewrite Nat2Z.id. cbn [Z.to_nat Pos.to_nat Pos.iter_op seq map neq].
    unfold Qsum. cbn [fold_left]. change (inject_Z 1) with 1.
    unfold Qdiv. change (/ 1) with 1. rewrite Qmult_1_r. apply Qplus_0_l.
Qed.

End SignalProps.

(* ================================================================= *)
(** ** Further properties of the trend analysis *)

Module AnalysisProps.

Import BaselineProps TrendProps ReportProps CorrelationProps SignalProps.

#[local] Arguments ngt : simpl never.

Lemma classifyStability_confidence (v b : num) (t : Trend) :
  confidence (classifyStability v b t) = confidence_of (type (classifyStability v b t)).
Proof.
  unfold classifyStability.
  destruct (_ && _); [reflexivity|]. destruct (_ || _); [reflexivity|].
  destruct (ngt _ _); reflexivity.
Qed.

(** For every pair of numbers, finite or not: a baseline of [0] or [NaN]
    classifies as a baseline of [1] does; an increasing trend classifies
    as "increasing" whatever the ratio; the type "stable" is given only
    under a stable trend; and the confidence is fixed by the type. *)
Theorem classifyStability_any_number (v b : num) (t : Trend) :
  (truthy b = false -> classifyStability v b t = classifyStability v (Fin 1) t) /\
  (t = trend_increasing ->
   classifyStability v b t = {| type := increasing; confidence := 0.8 |}) /\
  (type (classifyStability v b t) = stable -> t = trend_stable) /\
  confidence (classifyStability v b t) = confidence_of (type (classifyStability v b t)).
Proof.
  repeat split.
  - intro H. unfold classifyStability, nor. rewrite H. reflexivity.
  - intros ->. unfold classifyStability.
    rewrite andb_false_r, orb_true_r. reflexivity.
  - unfold classifyStability. destruct t; [reflexivity| |].
    + rewrite andb_false_r, orb_true_r. discriminate.
    + rewrite andb_false_r. destruct (_ || _); [discriminate|].
      destruct (ngt _ _); discriminate.
  - apply classifyStability_confidence.
Qed.

Lemma since_idempotent (cutoff : Z) (sessions : list Session) :
  since cutoff (since cutoff sessions) = since cutoff sessions.
Proof.
  unfold since. induction sessions as [|s ss IH]; [reflexivity|].
  cbn [filter]. destruct (cutoff <=? timestamp s)%Z eqn:E; [|exact IH].
  cbn [filter]. rewrite E. now f_equal.
Qed.

(** [detectTrend] looks at the sessions of the window only: dropping the
    older ones from the history does not change the trend. *)
Theorem detectTrend_window_only (now days : Z) (sessions : list Session) :
  detectTrend now sessions days = detectTrend now (since (cutoff_of now days) sessions) days.
Proof.
  unfold detectTrend. cbv zeta. rewrite since_idempotent.
  rewrite !sort_length.
  pose proof (filter_length_le (fun s => (cutoff_of now days <=? timestamp s)%Z) sessions) as L.
  fold (since (cutoff_of now days) sessions) in L.
  destruct (Nat.ltb_spec (length sessions) 3) as [A|A];
    destruct (Nat.ltb_spec (length (since (cutoff_of now days) sessions)) 3) as [B|B];
    try reflexivity; lia.
Qed.

(** [generateTrendAnalysis] returns a report exactly when the history is
    empty or holds a session of the last 7 days; otherwise it throws. *)
Theorem generateTrendAnalysis_returns_iff (sqrt : Q -> Q) (now : Z) (sessions : list Session) :
  (exists report, generateTrendAnalysis sqrt now sessions = Return report) <->
  (sessions = [] \/ exists s, In s sessions /\ (now - 604800000 <= timestamp s)%Z).
Proof.
  destruct sessions as [|s0 ss].
  - split; [now left|]. intros _. eexists. reflexivity.
  - set (sessions := s0 :: ss).
    destruct (recentSessions now sessions) as [|latest rest] eqn:Hrec.
    + split.
      * intros (report & H).
        rewrite (generateTrendAnalysis_stale sqrt now) in H;
          [discriminate|discriminate|exact Hrec].
      * intros [H|(s & Hs & Ht)]; [discriminate|].
        apply (proj1 (recentSessions_nil now sessions)) with (s := s) in Hrec; [lia|exact Hs].
    + split.
      * intros _. right.
        destruct (latest_is_most_recent now sessions Hrec) as [Hin _].
        apply filter_In in Hin. destruct Hin as [Hin Ht]. apply Z.leb_le in Ht.
        now exists latest.
      * intros _.
        destruct (generateTrendAnalysis_latest sqrt now sessions Hrec) as (c & su & an & E).
        eexists. exact E.
Qed.

(** The report in full when the window holds a session. *)
Lemma generateTrendAnalysis_report (sqrt : Q -> Q) (now : Z) (sessions : list Session)
    (latest : Session) (rest : list Session) (report : TrendAnalysis) :
  recentSessions now sessions = latest :: rest ->
  generateTrendAnalysis sqrt now sessions = Return report ->
  stabilityScore report
  = nround (raw_score (ndiv (variability_of latest) (nor (calculateBaseline sessions) (Fin 1)))) /\
  classification report
  = classifyStability (variability_of latest) (calculateBaseline sessions)
                      (detectTrend now sessions 7) /\
  (length (anomalies report) <= 1)%nat.
Proof.
  unfold recentSessions. rewrite <- since_week. intros Hrec H.
  unfold generateTrendAnalysis in H.
  destruct sessions as [|s0 ss]; [discriminate|].
  replace (Nat.eqb (length (s0 :: ss)) 0) with false in H by reflexivity.
  cbv zeta in H. rewrite Hrec in H. cbn [nth_error] in H.
  injection H as <-. cbn [stabilityScore classification anomalies].
  repeat split. destruct (ngt _ _); cbn; lia.
Qed.

Lemma baseline_ratio_finite (v : Q) (sessions : list Session) :
  sessions <> [] ->
  exists b' : Q,
    ndiv (Fin v) (nor (calculateBaseline sessions) (Fin 1)) = Fin (v / b') /\
    ~ b' == 0 /\
    (~ median (map (fun s => variability (stats s)) sessions) == 0 ->
     b' = median (map (fun s => variability (stats s)) sessions)).
Proof.
  intro Hne. rewrite (calculateBaseline_median_of Hne).
  set (b := median _). unfold nor, truthy.
  destruct (Qeq_bool b 0) eqn:E; cbn [negb].
  - exists 1. split; [reflexivity|]. split; [discriminate|].
    intro N. apply Qeq_bool_iff in E. contradiction.
  - apply Qeq_bool_false in E. exists b. split; [now apply ndiv_finite|]. now split.
Qed.

Lemma round_of_clamped (y : Q) : 0 <= y <= 100 -> (0 <= Qround_half_up y <= 100)%Z.
Proof.
  intros [L U]. unfold Qround_half_up. split.
  - change 0%Z with (Qfloor (0 + (1 # 2))). apply Qfloor_resp_le. lra.
  - change 100%Z with (Qfloor (100 + (1 # 2))). apply Qfloor_resp_le. lra.
Qed.

Lemma clamp_range (x : Q) : 0 <= clamp 0 100 x <= 100.
Proof.
  unfold clamp. destruct (Qlt_le_dec x 0); [lra|]. destruct (Qlt_le_dec 100 x); lra.
Qed.

(** Every report that [generateTrendAnalysis] returns has an integer
    score between 0 and 100, a confidence that is 0.5 for the empty
    history and otherwise the one of its type, at most one anomaly
    sentence and at most two correlations. *)
Theorem report_invariants (sqrt : Q -> Q) (now : Z) (sessions : list Session)
    (report : TrendAnalysis) :
  generateTrendAnalysis sqrt now sessions = Return report ->
  (exists score : Z, stabilityScore report = of_Z score /\ (0 <= score <= 100)%Z) /\
  (sessions = [] -> confidence (classification report) = 0.5) /\
  (sessions <> [] ->
   confidence (classification report) = confidence_of (type (classification report))) /\
  (length (anomalies report) <= 1)%nat /\
  (length (correlations report) <= 2)%nat.
Proof.
  intro H.
  assert (Hcorr : (length (correlations report) <= 2)%nat).
  { rewrite (correlations_of_report _ _ _ H), length_app.
    assert (L : forall flag name subject,
               (length (correlation_of flag name subject sessions) <= 1)%nat).
    { intros flag name subject. unfold correlation_of. cbv zeta.
      destruct (_ && _); [|cbn; lia]. destruct (ngt _ _); cbn; lia. }
    pose proof (L caffeine "Caffeine"%string "Sessions with caffeine"%string).
    pose proof (L stress "Stress"%string "Sessions marked as stressful"%string). lia. }
  destruct sessions as [|s0 ss].
  - cbv in H. injection H as <-. cbn.
    repeat split; try lia; try congruence. exists 50%Z. split; [reflexivity|lia].
  - set (sessions := s0 :: ss) in *.
    destruct (recentSessions now sessions) as [|latest rest] eqn:Hrec.
    { rewrite (generateTrendAnalysis_stale sqrt now) in H;
        [discriminate|discriminate|exact Hrec]. }
    destruct (generateTrendAnalysis_report sqrt now sessions Hrec H) as (Hs & Hc & Ha).
    split; [|split; [|split; [|split]]].
    + unfold variability_of in Hs.
      destruct (@baseline_ratio_finite (variability (stats latest)) sessions)
        as (b' & Hr & _); [discriminate|].
      rewrite Hr in Hs.
      destruct (raw_score_clamp (variability (stats latest) / b')) as (y & Hy & Hyc).
      rewrite Hy in Hs. cbn [nround] in Hs.
      exists (Qround_half_up y). split; [exact Hs|].
      apply round_of_clamped. rewrite Hyc. apply clamp_range.
    + discriminate.
    + intros _. rewrite Hc.
      apply classifyStability_confidence.
    + exact Ha.
    + exact Hcorr.
Qed.

(** The baseline lies between any bounds of the variabilities: it is
    never negative when no variability is. *)
Theorem calculateBaseline_within_range (sessions : list Session) (a b : Q) :
  sessions <> [] ->
  (forall s, In s sessions -> a <= variability (stats s) <= b) ->
  exists m : Q, calculateBaseline sessions = Fin m /\ a <= m <= b.
Proof.
  intros Hne Hb. rewrite (calculateBaseline_median_of Hne).
  eexists. split; [reflexivity|].
  set (vs := map (fun s => variability (stats s)) sessions).
  assert (Hvs : forall v, In v (Qsort vs) -> a <= v <= b).
  { intros v Hv. apply (Permutation_in _ (Qsort_perm vs)) in Hv.
    unfold vs in Hv. apply in_map_iff in Hv. destruct Hv as (s & <- & Hs). now apply Hb. }
  assert (Hlen : length (Qsort vs) = length vs) by apply sort_length.
  assert (Hpos : (0 < length vs)%nat).
  { unfold vs. rewrite length_map. destruct sessions; [congruence|cbn; lia]. }
  assert (Hhalf : (length vs / 2 < length vs)%nat) by (apply Nat.div_lt; lia).
  assert (Hnth : forall i, (i < length vs)%nat -> a <= nth i (Qsort vs) 0 <= b).
  { intros i Hi. apply Hvs, nth_In. lia. }
  unfold median. fold vs. destruct (Nat.even (length vs)).
  - pose proof (Hnth (length vs / 2 - 1)%nat ltac:(lia)).
    pose proof (Hnth (length vs / 2)%nat Hhalf).
    split; [apply Qle_shift_div_l|apply Qle_shift_div_r]; lra.
  - now apply Hnth.
Qed.

(** The score saturates: it is 100 when no session of the window has a
    variability above a positive baseline, and 0 when every session of
    the window has at least three times the baseline. *)
Theorem stabilityScore_saturates (sqrt : Q -> Q) (now : Z) (sessions : list Session)
    (b : Q) (report : TrendAnalysis) :
  generateTrendAnalysis sqrt now sessions = Return report ->
  sessions <> [] ->
  calculateBaseline sessions = Fin b -> 0 < b ->
  let recent := filter (fun s => (now - 604800000 <=? timestamp s)%Z) sessions in
  ((forall s, In s recent -> variability (stats s) <= b) -> stabilityScore report = Fin 100) /\
  ((forall s, In s recent -> 3 * b <= variability (stats s)) -> stabilityScore report = Fin 0).
Proof.
  intros H Hne Hb Hpos recent.
  destruct (recentSessions now sessions) as [|latest rest] eqn:Hrec.
  { rewrite (generateTrendAnalysis_stale sqrt now) in H; [discriminate|exact Hne|exact Hrec]. }
  destruct (generateTrendAnalysis_report sqrt now sessions Hrec H) as (Hs & _ & _).
  destruct (latest_is_most_recent now sessions Hrec) as [Hin _]. fold recent in Hin.
  rewrite Hb in Hs. unfold variability_of, nor, truthy in Hs.
  assert (E : Qeq_bool b 0 = false) by (apply Qeq_bool_false; lra).
  rewrite E in Hs. cbn [negb] in Hs. rewrite ndiv_finite in Hs by lra.
  set (v := variability (stats latest)) in *.
  destruct (raw_score_clamp (v / b)) as (y & Hy & Hyc).
  rewrite Hy in Hs. cbn [nround] in Hs. rewrite Hs. unfold of_Z.
  split; intro Hall; specialize (Hall latest Hin); fold v in Hall.
  - assert (R : v / b <= 1) by (apply Qle_shift_div_r; lra).
    replace (Qround_half_up y) with 100%Z; [reflexivity|].
    symmetry. transitivity (Qround_half_up 100); [|reflexivity].
    apply Qround_half_up_comp. rewrite Hyc. unfold clamp.
    destruct (Qlt_le_dec _ 0); [lra|]. destruct (Qlt_le_dec 100 _); lra.
  - assert (R : 3 <= v / b) by (apply Qle_shift_div_l; lra).
    replace (Qround_half_up y) with 0%Z; [reflexivity|].
    symmetry. transitivity (Qround_half_up 0); [|reflexivity].
    apply Qround_half_up_comp. rewrite Hyc. unfold clamp.
    destruct (Qlt_le_dec _ 0); [lra|]. destruct (Qlt_le_dec 100 _); lra.
Qed.

End AnalysisProps.

(* ================================================================= *)
(** ** Grouping by day and the rolling average *)

Module GroupingProps.

Import Grouping CorrelationProps SmoothingProps.

#[local] Unset Implicit Arguments.
#[local] Arguments ngt : simpl never.

Lemma map_has_get (k : string) (m : DayMap) :
  map_has k m = match map_get k m with Some _ => true | None => false end.
Proof.
  induction m as [|[k' l] m IH]; [reflexivity|].
  cbn [map_has map_get]. destruct (String.eqb k k'); [reflexivity|exact IH].
Qed.

Lemma map_get_In (k : string) (g : list Session) (m : DayMap) :
  map_get k m = Some g -> In (k, g) m.
Proof.
  induction m as [|[k' l] m IH]; [discriminate|].
  cbn [map_get]. destruct (String.eqb_spec k k') as [->|N].
  - intros [= ->]. now left.
  - intro H. right. now apply IH.
Qed.

Lemma In_map_get (k : string) (g : list Session) (m : DayMap) :
  NoDup (map_keys m) -> In (k, g) m -> map_get k m = Some g.
Proof.
  unfold map_keys. induction m as [|[k' l] m IH]; [intros _ []|].
  cbn [map fst map_get]. intros Hnd [E|H].
  - injection E as -> ->. now rewrite String.eqb_refl.
  - inversion Hnd as [|? ? Hnot Hnd']; subst.
    destruct (String.eqb_spec k k') as [->|N]; [|now apply IH].
    exfalso. apply Hnot. apply in_map_iff. now exists (k', g).
Qed.

Lemma map_get_push_same (k : string) (s : Session) (m : DayMap) :
  map_get k (map_push k s m) = option_map (fun l => l ++ [s]) (map_get k m).
Proof.
  induction m as [|[k' l] m IH]; [reflexivity|].
  cbn [map_push map_get]. destruct (String.eqb k k') eqn:E; cbn [map_get]; rewrite E;
    [reflexivity|exact IH].
Qed.

Lemma map_get_push_other (k k' : string) (s : Session) (m : DayMap) :
  k' <> k -> map_get k' (map_push k s m) = map_get k' m.
Proof.
  intro N. induction m as [|[k0 l] m IH]; [reflexivity|].
  cbn [map_push]. destruct (String.eqb_spec k k0) as [->|N0]; cbn [map_get].
  - destruct (String.eqb_spec k' k0); [contradiction|reflexivity].
  - destruct (String.eqb k' k0); [reflexivity|exact IH].
Qed.

Lemma map_keys_push (k : string) (s : Session) (m : DayMap) :
  map_keys (map_push k s m) = map_keys m.
Proof.
  unfold map_keys. induction m as [|[k' l] m IH]; [reflexivity|].
  cbn [map_push]. destruct (String.eqb k k'); cbn [map fst]; [reflexivity|now f_equal].
Qed.

Lemma map_get_app_new (k k' : string) (m : DayMap) :
  map_get k' (m ++ [(k, [])])
  = match map_get k' m with
    | Some g => Some g
    | None => if String.eqb k' k then Some [] else None
    end.
Proof.
  induction m as [|[k0 l] m IH]; [reflexivity|].
  cbn [app map_get]. destruct (String.eqb k' k0); [reflexivity|exact IH].
Qed.

Lemma concat_push (k : string) (s : Session) (m : DayMap) :
  map_has k m = true ->
  Permutation (concat (map snd (map_push k s m))) (s :: concat (map snd m)).
Proof.
  induction m as [|[k' l] m IH]; [discriminate|].
  cbn [map_has map_push]. destruct (String.eqb k k') eqn:E; cbn [orb map snd concat].
  - intros _. rewrite <- app_assoc. cbn [app].
    symmetry. apply Permutation_middle.
  - intro H. rewrite (IH H). symmetry. apply Permutation_middle.
Qed.

Section WithCalendar.

Variable dayKey : Z -> string.

Lemma groupSessionsByDay_snoc (l : list Session) (s : Session) :
  groupSessionsByDay dayKey (l ++ [s]) = group_step dayKey (groupSessionsByDay dayKey l) s.
Proof.
  unfold groupSessionsByDay. now rewrite fold_left_app.
Qed.

Lemma map_get_step (m : DayMap) (s : Session) (k : string) :
  map_get k (group_step dayKey m s)
  = if String.eqb (dayKey (timestamp s)) k
    then Some (match map_get k m with Some g => g ++ [s] | None => [s] end)
    else map_get k m.
Proof.
  unfold group_step. cbv zeta. set (key := dayKey (timestamp s)).
  destruct (String.eqb_spec key k) as [<-|N].
  - rewrite map_get_push_same, map_has_get.
    destruct (map_get key m) eqn:G; [now rewrite G|].
    unfold map_set_empty. rewrite map_get_app_new, G, String.eqb_refl. reflexivity.
  - rewrite map_get_push_other by congruence.
    destruct (map_has key m); [reflexivity|].
    unfold map_set_empty. rewrite map_get_app_new.
    destruct (map_get k m); [reflexivity|].
    destruct (String.eqb_spec k key); [congruence|reflexivity].
Qed.

Lemma grouped_invariant (l : list Session) :
  let grouped := groupSessionsByDay dayKey l in
  NoDup (map_keys grouped) /\
  (forall k, map_get k grouped
             = match on_day dayKey k l with [] => None | g => Some g end) /\
  Permutation (concat (map snd grouped)) l.
Proof.
  induction l as [|s l IH] using rev_ind; [repeat split; [constructor|constructor]|].
  rewrite groupSessionsByDay_snoc. cbv zeta in *.
  set (m := groupSessionsByDay dayKey l) in *.
  destruct IH as (Hnd & Hget & Hperm).
  set (key := dayKey (timestamp s)).
  split; [|split].
  - unfold group_step. cbv zeta. fold key. rewrite map_keys_push.
    destruct (map_has key m) eqn:Hh; [exact Hnd|].
    unfold map_set_empty, map_keys. rewrite map_app. cbn [map fst].
    apply NoDup_app; [exact Hnd|repeat constructor; intros []|].
    intros k Hk [<-|[]]. apply in_map_iff in Hk. destruct Hk as ([k0 g] & Ek & Hin).
    cbn in Ek. subst k0. rewrite map_has_get in Hh.
    rewrite (In_map_get _ _ _ Hnd Hin) in Hh. discriminate.
  - intro k. rewrite map_get_step, Hget. unfold on_day. rewrite filter_app. cbn [filter].
    fold key. destruct (String.eqb key k).
    + destruct (filter _ l); reflexivity.
    + rewrite app_nil_r. reflexivity.
  - unfold group_step. cbv zeta. fold key.
    destruct (map_has key m) eqn:Hh.
    + rewrite (concat_push _ s _ Hh), Hperm. apply Permutation_cons_append.
    + assert (Hh' : map_has key (map_set_empty key m) = true).
      { rewrite map_has_get. unfold map_set_empty. rewrite map_get_app_new.
        destruct (map_get key m); [reflexivity|]. now rewrite String.eqb_refl. }
      rewrite (concat_push _ s _ Hh'). unfold map_set_empty.
      rewrite map_app, concat_app. cbn [map snd concat]. rewrite !app_nil_r.
      rewrite Hperm. apply Permutation_cons_append.
Qed.

(** [groupSessionsByDay] partitions the history by day: the keys are
    distinct, the group of a key holds exactly the sessions of that day in
    their order in the history and is never empty, every session is in
    the group of its day, and the groups together are a rearrangement of
    the history. *)
Theorem groupSessionsByDay_partition (sessions : list Session) :
  let grouped := groupSessionsByDay dayKey sessions in
  NoDup (map_keys grouped) /\
  (forall k g, In (k, g) grouped -> g = on_day dayKey k sessions /\ g <> []) /\
  (forall s, In s sessions ->
     In (dayKey (timestamp s), on_day dayKey (dayKey (timestamp s)) sessions) grouped) /\
  Permutation (concat (map snd grouped)) sessions.
Proof.
  destruct (grouped_invariant sessions) as (Hnd & Hget & Hperm). cbv zeta.
  split; [exact Hnd|]. split; [|split; [|exact Hperm]].
  - intros k g Hin. apply (In_map_get _ _ _ Hnd) in Hin. rewrite Hget in Hin.
    destruct (on_day dayKey k sessions); [discriminate|]. injection Hin as <-.
    split; [reflexivity|discriminate].
  - intros s Hs. apply map_get_In. rewrite Hget.
    assert (Hin : In s (on_day dayKey (dayKey (timestamp s)) sessions)).
    { apply filter_In. split; [exact Hs|apply String.eqb_refl]. }
    destruct (on_day dayKey (dayKey (timestamp s)) sessions); [destruct Hin|reflexivity].
Qed.

Lemma sorted_days (keys : list string) :
  Sorted (fun a b => String.leb a b = true) (sort string_compare keys).
Proof.
  apply sort_sorted; intros a b; unfold ngt, string_compare, String.leb;
    destruct (String.compare a b) eqn:E; cbn; try reflexivity; try discriminate.
  intros _. rewrite String.compare_antisym, E. reflexivity.
Qed.

Lemma flat_map_singletons {A B : Type} (f : nat -> list (A * B)) (l : list A) (d : A)
    (start count : nat) :
  (forall i, (start <= i < start + count)%nat -> exists b, f i = [(nth i l d, b)]) ->
  map fst (flat_map f (seq start count)) = map (fun i => nth i l d) (seq start count).
Proof.
  revert start. induction count as [|count IH]; intros start H; [reflexivity|].
  cbn [seq flat_map map]. destruct (H start ltac:(lia)) as (b & ->).
  cbn [app map fst]. f_equal. apply IH. intros i Hi. apply H. lia.
Qed.

(** With a window of at least one day, [calculateRollingAverage] yields
    one entry for each day that has a session, in ascending order of the
    day keys, and every average is a finite number; with a window of no
    day it yields nothing. *)
Theorem calculateRollingAverage_days (sessions : list Session) (windowDays : Z) :
  let grouped := groupSessionsByDay dayKey sessions in
  let rolling := calculateRollingAverage dayKey sessions windowDays in
  ((1 <= windowDays)%Z ->
   Permutation (map fst rolling) (map_keys grouped) /\
   Sorted (fun a b => String.leb a b = true) (map fst rolling) /\
   forall entry, In entry rolling -> exists q : Q, snd entry = Fin q) /\
  ((windowDays <= 0)%Z -> rolling = []).
Proof.
  intros grouped rolling. unfold rolling, calculateRollingAverage. cbv zeta. fold grouped.
  set (days := sort string_compare (map_keys grouped)).
  destruct (grouped_invariant sessions) as (Hnd & Hget & _). cbv zeta in Hnd, Hget.
  fold grouped in Hnd, Hget.
  assert (Hperm : Permutation days (map_keys grouped)) by (symmetry; apply sort_perm).
  split.
  - intro Hw.
    assert (Hentry : forall i, (i < length days)%nat ->
              exists q, rolling_entry grouped days windowDays i
                        = [(nth i days EmptyString, Fin q)]).
    { intros i Hi. unfold rolling_entry. cbv zeta.
      set (ws := if (windowDays <=? Z.of_nat i)%Z
                 then (Z.of_nat i - windowDays + 1)%Z else 0%Z).
      assert (Hws : (0 <= ws <= Z.of_nat i)%Z)
        by (unfold ws; destruct (windowDays <=? Z.of_nat i)%Z eqn:E; lia).
      rewrite (slice_seq EmptyString) by lia.
      set (window := flat_map _ _).
      assert (Hwin : window <> []).
      { assert (Hday : In (nth i days EmptyString) (map_keys grouped))
          by (apply (Permutation_in _ Hperm), nth_In, Hi).
        unfold map_keys in Hday. apply in_map_iff in Hday.
        destruct Hday as ([k g] & Ek & Hin). cbn in Ek. subst k.
        pose proof (In_map_get _ _ _ Hnd Hin) as G.
        assert (Hg : g <> []).
        { rewrite Hget in G. destruct (on_day dayKey _ sessions); [discriminate|].
          injection G as <-. discriminate. }
        destruct g as [|s g]; [congruence|].
        assert (In s window).
        { unfold window. apply in_flat_map. exists (nth i days EmptyString). split.
          - apply in_map_iff. exists i. split; [reflexivity|]. apply in_seq. lia.
          - rewrite G. now left. }
        intro E. rewrite E in H. destruct H. }
      destruct window as [|s0 w0] eqn:Ew; [congruence|]. rewrite <- Ew in *.
      replace (Nat.ltb 0 (length window)) with true by (rewrite Ew; reflexivity).
      rewrite (average_variability_finite Hwin). eexists. reflexivity. }
    assert (Hfst : map fst (flat_map (rolling_entry grouped days windowDays)
                                     (seq 0 (length days))) = days).
    { rewrite (flat_map_singletons _ days EmptyString 0 (length days)).
      - rewrite <- (firstn_seq EmptyString) by lia. apply firstn_all.
      - intros i Hi. destruct (Hentry i ltac:(lia)) as (q & ->). now eexists. }
    rewrite Hfst. split; [exact Hperm|]. split; [apply sorted_days|].
    intros entry Hin. apply in_flat_map in Hin. destruct Hin as (i & Hi & Hin).
    apply in_seq in Hi. destruct (Hentry i ltac:(lia)) as (q & E). rewrite E in Hin.
    destruct Hin as [<-|[]]. now exists q.
  - intro Hw.
    assert (Hnone : forall i, (i < length days)%nat ->
              rolling_entry grouped days windowDays i = []).
    { intros i Hi. unfold rolling_entry. cbv zeta.
      replace (windowDays <=? Z.of_nat i)%Z with true by (symmetry; apply Z.leb_le; lia).
      assert (Hs : slice days (Z.of_nat i - windowDays + 1) (Z.of_nat i + 1) = []).
      { unfold slice, rel_index.
        destruct (Z.of_nat i - windowDays + 1 <? 0)%Z eqn:E1; [lia|].
        destruct (Z.of_nat i + 1 <? 0)%Z eqn:E2; [lia|].
        replace (Z.to_nat _) with 0%nat by lia. reflexivity. }
      rewrite Hs. reflexivity. }
    generalize (seq 0 (length days)) (fun i => proj1 (in_seq (length days) 0 i)).
    intros l Hl. induction l as [|i l IH]; [reflexivity|].
    cbn [flat_map]. rewrite Hnone by (specialize (Hl i (or_introl eq_refl)); lia).
    apply IH. intros j Hj. apply Hl. now right.
Qed.

End WithCalendar.

End GroupingProps.

(* ================================================================= *)
(** ** The session store *)

Module SessionStoreProps.

Import Storage SessionStore SettingsProps.

#[local] Unset Implicit Arguments.

Lemma valid_session_is_valid (item : json) :
  item <> JNull -> valid_session item = Return (is_valid item).
Proof.
  intro H. unfold is_valid.
  destruct item; try congruence; cbn [valid_session];
    match goal with |- Return ?b = _ => destruct b end; reflexivity.
Qed.

Lemma filter_valid_spec (items : list json) :
  (~ In JNull items -> filter_valid items = Return (filter is_valid items)) /\
  (In JNull items -> exists e, filter_valid items = Throw e).
Proof.
  induction items as [|item rest [IHok IHnull]]; [split; [reflexivity|intros []]|].
  split.
  - intro H. cbn [filter_valid filter].
    assert (Hitem : item <> JNull) by (intro E; apply H; now left).
    assert (Hrest : ~ In JNull rest) by (intro E; apply H; now right).
    rewrite (IHok Hrest), (valid_session_is_valid item Hitem). reflexivity.
  - intros [->|H]; [eexists; reflexivity|].
    destruct (IHnull H) as (e & E). cbn [filter_valid]. rewrite E.
    destruct (valid_session item) as [keep|e']; eexists; reflexivity.
Qed.

Lemma filter_valid_sound (items kept : list json) :
  filter_valid items = Return kept -> kept = filter is_valid items /\ ~ In JNull items.
Proof.
  intro H. destruct (filter_valid_spec items) as [Hok Hnull].
  assert (N : ~ In JNull items).
  { intro Hin. destruct (Hnull Hin) as (e & E). congruence. }
  split; [|exact N]. rewrite (Hok N) in H. now injection H.
Qed.

Lemma filter_valid_all (items : list json) :
  Forall (fun s => is_valid s = true) items -> filter_valid items = Return items.
Proof.
  intro H. destruct (filter_valid_spec items) as [Hok _].
  rewrite Hok.
  - f_equal. clear Hok. induction H as [|s l Hs Hl IH]; [reflexivity|].
    cbn [filter]. rewrite Hs. now f_equal.
  - intro Hin. rewrite Forall_forall in H. specialize (H JNull Hin). discriminate.
Qed.

Lemma obj_get_last {V : Type} (k : string) (v : V) (o : object V) :
  obj_get k (o ++ [(k, v)]) = Some v.
Proof.
  rewrite obj_get_app. cbn [obj_get]. now rewrite String.eqb_refl.
Qed.

Lemma obj_get_last_other {V : Type} (k k' : string) (v : V) (o : object V) :
  k' <> k -> obj_get k' (o ++ [(k, v)]) = obj_get k' o.
Proof.
  intro N. rewrite obj_get_app. cbn [obj_get].
  destruct (String.eqb_spec k' k); [contradiction|reflexivity].
Qed.

Lemma obj_get_deleted {V : Type} (k : string) (o : object V) :
  obj_get k (filter (fun kv => negb (String.eqb k (fst kv))) o) = None.
Proof.
  induction o as [|[k' v] o IH]; [reflexivity|].
  cbn [filter fst]. destruct (String.eqb k k') eqn:E; cbn [negb]; [exact IH|].
  cbn [obj_get]. now rewrite IH, E.
Qed.

Section WithEnvironment.

Variable P : Type.
Variable getItem : P -> string -> completion (option string).
Variable setItem : P -> string -> string -> completion P.
Variable JSON_stringify : json -> completion string.
Variable JSON_parse : string -> completion json.

#[local, warnings="-notation-for-abbreviation"] Notation loadAll := (@loadAllSessions P getItem JSON_parse).
#[local, warnings="-notation-for-abbreviation"] Notation save := (@saveSession P getItem setItem JSON_stringify JSON_parse).
#[local, warnings="-notation-for-abbreviation"] Notation write := (@write_item P setItem).


Lemma loadAll_by_text (st : Store) (p : P) :
  loadAll st p
  = (match seen getItem SESSIONS_KEY st p with
     | None => []
     | Some text =>
         match JSON_parse text with
         | Return (JArr items) =>
             match filter_valid items with Return sessions => sessions | Throw _ => [] end
         | _ => []
         end
     end,
     snd (read_item (getItem p) SESSIONS_KEY st)).
Proof.
  unfold loadAllSessions, seen.
  destruct (read_item (getItem p) SESSIONS_KEY st) as [data st']. cbn [fst snd].
  destruct (or_null data) as [text|]; [|reflexivity].
  destruct (JSON_parse text) as [[| | | |items|]|e]; try reflexivity.
  destruct (filter_valid items); reflexivity.
Qed.

Lemma loadAll_valid (st : Store) (p : P) :
  Forall (fun s => is_valid s = true) (fst (loadAll st p)).
Proof.
  rewrite loadAll_by_text. cbn [fst].
  destruct (seen getItem SESSIONS_KEY st p) as [text|]; [|constructor].
  destruct (JSON_parse text) as [[| | | |items|]|e]; try constructor.
  destruct (filter_valid items) as [kept|e] eqn:F; [|constructor].
  apply filter_valid_sound in F. destruct F as [-> _].
  apply Forall_forall. intros s Hs. apply filter_In in Hs. tauto.
Qed.



Lemma or_null_nonempty (data : string) : data <> EmptyString -> or_null (Some data) = Some data.
Proof.
  intro H. destruct data; [congruence|reflexivity].
Qed.

(** After a write of [data], a read of the same key sees [data], given
    that a write accepted by the primary store is read back from it. *)
Lemma write_then_seen (key data : string) (st : Store) (p : P) :
  data <> EmptyString ->
  (forall p', setItem p key data = Return p' -> getItem p' key = Return (Some data)) ->
  seen getItem key (fst (write key data st p)) (snd (write key data st p)) = Some data.
Proof.
  intros Hne Hback. unfold write_item, seen, read_item.
  destruct st as [avail mem]. cbn [isAsyncStorageAvailable].
  destruct avail.
  - destruct (setItem p key data) as [p'|e] eqn:E; cbn [fst snd].
    + cbn [isAsyncStorageAvailable]. rewrite (Hback p' eq_refl). cbn [fst].
      now apply or_null_nonempty.
    + cbn [memory_set unavailable isAsyncStorageAvailable memoryStorage fst].
      rewrite obj_get_last, !or_null_nonempty by exact Hne. reflexivity.
  - cbn [fst snd memory_set isAsyncStorageAvailable memoryStorage].
    rewrite obj_get_last, !or_null_nonempty by exact Hne. reflexivity.
Qed.

Lemma loadAll_of_seen (st : Store) (p : P) (data : string) (items : list json) :
  seen getItem SESSIONS_KEY st p = Some data ->
  JSON_parse data = Return (JArr items) ->
  Forall (fun s => is_valid s = true) items ->
  fst (loadAll st p) = items.
Proof.
  intros Hs Hp Hv. rewrite loadAll_by_text, Hs, Hp, (filter_valid_all items Hv). reflexivity.
Qed.

Lemma Forall_filter {A : Type} (P0 : A -> Prop) (f : A -> bool) (l : list A) :
  Forall P0 l -> Forall P0 (filter f l).
Proof.
  intro H. apply Forall_forall. intros a Ha. apply filter_In in Ha.
  rewrite Forall_forall in H. now apply H.
Qed.

(** *** Saving a session *)

(** A saved session is the last of the sessions loaded afterwards, behind
    the valid ones that were there: when the primary store is in use and
    accepts the write, and when the store works from memory. *)
Theorem saveSession_then_load (session : json) (st : Store) (p p' : P) (data : string) :
  let old := fst (loadAll st p) in
  let st1 := snd (loadAll st p) in
  is_valid session = true ->
  JSON_stringify (JArr (old ++ [session])) = Return data ->
  data <> EmptyString ->
  JSON_parse data = Return (JArr (old ++ [session])) ->
  (isAsyncStorageAvailable st1 = true ->
   setItem p SESSIONS_KEY data = Return p' /\ getItem p' SESSIONS_KEY = Return (Some data)) ->
  (isAsyncStorageAvailable st1 = false -> p' = p) ->
  exists st',
    save session st p = (Return tt, st', p') /\
    fst (loadAll st' p') = old ++ [session].
Proof.
  intros old st1 Hv Hs Hne Hp Hprim Hmem.
  assert (Hall : Forall (fun s => is_valid s = true) (old ++ [session])).
  { apply Forall_app. split; [apply loadAll_valid|]. now repeat constructor. }
  unfold saveSession. destruct (loadAll st p) as [old0 st0] eqn:L.
  cbn [fst snd] in old, st1. subst old st1. rewrite Hs.
  destruct (isAsyncStorageAvailable st0) eqn:A.
  - destruct (Hprim eq_refl) as [Hset Hget]. rewrite Hset.
    exists st0. split; [reflexivity|].
    apply (loadAll_of_seen _ _ data); [|exact Hp|exact Hall].
    unfold seen, read_item. rewrite A, Hget. now apply or_null_nonempty.
  - rewrite (Hmem eq_refl). eexists. split; [reflexivity|].
    apply (loadAll_of_seen _ _ data); [|exact Hp|exact Hall].
    unfold seen, read_item, memory_set. cbn [isAsyncStorageAvailable memoryStorage].
    rewrite A. cbn [fst]. rewrite obj_get_last, !or_null_nonempty by exact Hne. reflexivity.
Qed.

(** When the primary store answers reads but rejects the write,
    [saveSession] still completes without an error: it leaves the text in
    memory and the primary store marked available, so that the sessions
    loaded afterwards are those loaded before, without the new one. *)
Theorem saveSession_rejected_write_is_silent (session : json) (st : Store) (p : P)
    (stored : option string) (data error : string) :
  isAsyncStorageAvailable st = true ->
  getItem p SESSIONS_KEY = Return stored ->
  JSON_stringify (JArr (fst (loadAll st p) ++ [session])) = Return data ->
  setItem p SESSIONS_KEY data = Throw error ->
  save session st p = (Return tt, memory_set SESSIONS_KEY data st, p) /\
  isAsyncStorageAvailable (memory_set SESSIONS_KEY data st) = true /\
  obj_get SESSIONS_KEY (memoryStorage (memory_set SESSIONS_KEY data st)) = Some data /\
  loadAll (memory_set SESSIONS_KEY data st) p = (fst (loadAll st p), memory_set SESSIONS_KEY data st).
Proof.
  intros A G Hs Hset.
  assert (Hread : forall st0, isAsyncStorageAvailable st0 = true ->
            read_item (getItem p) SESSIONS_KEY st0 = (stored, st0)).
  { intros st0 A0. unfold read_item. now rewrite A0, G. }
  assert (Hload : forall st0, isAsyncStorageAvailable st0 = true ->
            loadAll st0 p = (fst (loadAll st p), st0)).
  { intros st0 A0. rewrite (loadAll_by_text st0), (loadAll_by_text st). cbn [fst].
    unfold seen. rewrite (Hread st0 A0), (Hread st A). reflexivity. }
  split; [|split; [exact A|split; [apply obj_get_last|apply Hload; exact A]]].
  unfold saveSession, saveSession_fallback.
  rewrite (Hload st A). rewrite Hs, A, Hset.
  rewrite (Hload st A), Hs. reflexivity.
Qed.

(** *** Deleting sessions *)

(** After [deleteSessions], the sessions loaded are the earlier ones
    without those whose id is among the given ones, in their order:
    through the primary store, or through memory when the primary store
    is not in use or rejects the write. *)
Theorem deleteSessions_then_load (sessionIds : list string) (st : Store) (p : P)
    (data : string) :
  let old := fst (loadAll st p) in
  let kept := filter (fun s => negb (id_among sessionIds s)) old in
  JSON_stringify (JArr kept) = Return data ->
  data <> EmptyString ->
  JSON_parse data = Return (JArr kept) ->
  (forall p', setItem p SESSIONS_KEY data = Return p' ->
              getItem p' SESSIONS_KEY = Return (Some data)) ->
  let outcome := @deleteSessions P getItem setItem JSON_stringify JSON_parse sessionIds st p in
  fst (fst outcome) = Return tt /\
  fst (loadAll (snd (fst outcome)) (snd outcome)) = kept /\
  (forall s, In s kept <-> In s old /\ id_among sessionIds s = false).
Proof.
  intros old kept Hs Hne Hp Hback outcome.
  assert (Hkept : forall s, In s kept <-> In s old /\ id_among sessionIds s = false).
  { intro s. unfold kept. rewrite filter_In, negb_true_iff. reflexivity. }
  assert (Hall : Forall (fun s => is_valid s = true) kept)
    by (apply Forall_filter, loadAll_valid).
  unfold outcome, deleteSessions. destruct (loadAll st p) as [old0 st0] eqn:L.
  cbn [fst] in old. subst old. fold kept. rewrite Hs.
  pose proof (write_then_seen SESSIONS_KEY data st0 p Hne Hback) as Hseen.
  destruct (write SESSIONS_KEY data st0 p) as [st' p'] eqn:W. cbn [fst snd] in *.
  split; [reflexivity|]. split; [|exact Hkept].
  now apply (loadAll_of_seen _ _ data).
Qed.

(** [deleteSession] is [deleteSessions] with the one id. *)
Theorem deleteSession_as_deleteSessions (sessionId : string) (st : Store) (p : P) :
  @deleteSession P getItem setItem JSON_stringify JSON_parse sessionId st p
  = @deleteSessions P getItem setItem JSON_stringify JSON_parse [sessionId] st p.
Proof.
  unfold deleteSession, deleteSessions. destruct (loadAll st p) as [old st0].
  replace (filter (fun s => negb (id_among [sessionId] s)) old)
    with (filter (fun s => negb (has_id sessionId s)) old); [reflexivity|].
  apply filter_ext. intro s. unfold id_among. cbn [existsb]. now rewrite orb_false_r.
Qed.

(** *** Settings *)

(** Settings that were saved are loaded again, spread over the defaults:
    through the primary store, or through memory when the primary store
    is not in use or rejects the write. *)
Theorem saveSettings_then_loadSettings (settings : json) (st : Store) (p : P)
    (data : string) :
  JSON_stringify settings = Return data ->
  data <> EmptyString ->
  JSON_parse data = Return settings ->
  (forall p', setItem p SETTINGS_KEY data = Return p' ->
              getItem p' SETTINGS_KEY = Return (Some data)) ->
  let outcome := @saveSettings P setItem JSON_stringify settings st p in
  fst (fst outcome) = Return tt /\
  fst (loadSettings (getItem (snd outcome)) JSON_parse (snd (fst outcome)))
  = spread DEFAULT_SETTINGS settings /\
  forall k v, property k settings = Some v ->
    obj_get k (fst (loadSettings (getItem (snd outcome)) JSON_parse (snd (fst outcome))))
    = Some v.
Proof.
  intros Hs Hne Hp Hback outcome. unfold outcome, saveSettings. rewrite Hs.
  pose proof (write_then_seen SETTINGS_KEY data st p Hne Hback) as Hseen.
  destruct (write SETTINGS_KEY data st p) as [st' p'] eqn:W. cbn [fst snd] in *.
  assert (Hload : fst (loadSettings (getItem p') JSON_parse st')
                  = spread DEFAULT_SETTINGS settings).
  { unfold loadSettings. unfold seen in Hseen.
    destruct (read_item (getItem p') SETTINGS_KEY st') as [d st'']. cbn [fst] in Hseen.
    rewrite Hseen, Hp. reflexivity. }
  split; [reflexivity|]. split; [exact Hload|].
  intros k v Hk. rewrite Hload. unfold spread, property in *.
  rewrite obj_get_app, Hk. reflexivity.
Qed.

(** *** Failures of the primary store *)

(** No failure of the primary store makes a storage operation throw: as
    long as [JSON.stringify] returns, [saveSession], [deleteSession],
    [deleteSessions] and [saveSettings] complete, whatever the store
    answers. *)
Theorem store_failures_are_absorbed (st : Store) (p : P) :
  (forall v, exists data, JSON_stringify v = Return data) ->
  (forall session, fst (fst (save session st p)) = Return tt) /\
  (forall sessionId,
      fst (fst (@deleteSession P getItem setItem JSON_stringify JSON_parse sessionId st p))
      = Return tt) /\
  (forall sessionIds,
      fst (fst (@deleteSessions P getItem setItem JSON_stringify JSON_parse sessionIds st p))
      = Return tt) /\
  (forall settings,
      fst (fst (@saveSettings P setItem JSON_stringify settings st p)) = Return tt).
Proof.
  intro Htotal. repeat split.
  - intro session. unfold saveSession, saveSession_fallback.
    destruct (loadAll st p) as [old st0].
    destruct (Htotal (JArr (old ++ [session]))) as (data & ->).
    destruct (isAsyncStorageAvailable st0); [|reflexivity].
    destruct (setItem p SESSIONS_KEY data); [reflexivity|].
    destruct (loadAll st0 p) as [old1 st1].
    destruct (Htotal (JArr (old1 ++ [session]))) as (data1 & ->). reflexivity.
  - intro sessionId. unfold deleteSession. destruct (loadAll st p) as [old st0].
    destruct (Htotal (JArr (filter (fun s => negb (has_id sessionId s)) old))) as (data & ->).
    now destruct (write SESSIONS_KEY data st0 p).
  - intro sessionIds. unfold deleteSessions. destruct (loadAll st p) as [old st0].
    destruct (Htotal (JArr (filter (fun s => negb (id_among sessionIds s)) old)))
      as (data & ->).
    now destruct (write SESSIONS_KEY data st0 p).
  - intro settings. unfold saveSettings.
    destruct (Htotal settings) as (data & ->).
    now destruct (write SETTINGS_KEY data st p).
Qed.

(** *** Clearing *)

Variable removeItem : P -> string -> completion P.

(** [clearAllSessions] never throws, and the sessions loaded afterwards
    are none, given that a removal accepted by the primary store leaves
    nothing to read under the key. *)
Theorem clearAllSessions_then_load (st : Store) (p : P) :
  (forall p', removeItem p SESSIONS_KEY = Return p' ->
              getItem p' SESSIONS_KEY = Return None) ->
  let outcome := @clearAllSessions P removeItem st p in
  fst (fst outcome) = Return tt /\
  fst (loadAll (snd (fst outcome)) (snd outcome)) = [].
Proof.
  intros Hback outcome. unfold outcome, clearAllSessions.
  destruct st as [avail mem]. cbn [isAsyncStorageAvailable].
  destruct avail.
  - destruct (removeItem p SESSIONS_KEY) as [p'|e] eqn:R; cbn [fst snd];
      (split; [reflexivity|]); rewrite loadAll_by_text; unfold seen, read_item; cbn [fst].
    + cbn [isAsyncStorageAvailable]. rewrite (Hback p' eq_refl). reflexivity.
    + cbn [memory_delete unavailable isAsyncStorageAvailable memoryStorage fst].
      rewrite obj_get_deleted. reflexivity.
  - cbn [fst snd]. split; [reflexivity|].
    rewrite loadAll_by_text. unfold seen, read_item.
    cbn [memory_delete isAsyncStorageAvailable memoryStorage fst].
    rewrite obj_get_deleted. reflexivity.
Qed.

End WithEnvironment.

End SessionStoreProps.

(* ================================================================= *)
(** ** Stopping a recording *)

Module StopProps.

Import Recording.

#[local] Unset Implicit Arguments.

Section WithEnvironment.

Variable sqrt : Q -> Q.
Variable duration : num.
Variable context : option RecordingContext.

Lemma stopRecording_begin_session (now : Z) (random : string) (h : Hooks) :
  readingsRef h <> [] ->
  exists session,
    snd (stopRecording_begin sqrt duration context now random h) = Some session /\
    readingsRef (fst (stopRecording_begin sqrt duration context now random h)) = readingsRef h /\
    error (fst (stopRecording_begin sqrt duration context now random h)) = error h /\
    isRecording (fst (stopRecording_begin sqrt duration context now random h)) = false /\
    x (accelerometer session) = map (fun r => vx (reading_accelerometer r)) (readingsRef h) /\
    y (accelerometer session) = map (fun r => vy (reading_accelerometer r)) (readingsRef h) /\
    z (accelerometer session) = map (fun r => vz (reading_accelerometer r)) (readingsRef h) /\
    x (gyroscope session) = map (fun r => vx (reading_gyroscope r)) (readingsRef h) /\
    y (gyroscope session) = map (fun r => vy (reading_gyroscope r)) (readingsRef h) /\
    z (gyroscope session) = map (fun r => vz (reading_gyroscope r)) (readingsRef h) /\
    magnitude session = calculateMagnitudeArray sqrt (accelerometer session) /\
    stats session = calculateStats sqrt (magnitude session).
Proof.
  intro Hne. unfold stopRecording_begin, getReadings. cbn [readingsRef].
  destruct (readingsRef h) as [|r rs] eqn:E; [congruence|].
  replace (Nat.eqb (length (r :: rs)) 0) with false by reflexivity.
  eexists. cbn [fst snd readingsRef error isRecording].
  split; [reflexivity|].
  cbn [accelerometer gyroscope x y z magnitude stats].
  repeat split.
Qed.

Lemma render_keeps (h : Hooks) :
  isRecording (render h) = isRecording h /\
  error (render h) = error h /\
  startTimeRef (render h) = startTimeRef h /\
  (readingsRef h = [] -> readingsRef (render h) = []).
Proof.
  unfold render. destruct (Bool.eqb (enabled h) (isRecording h)); [tauto|].
  destruct (negb (isRecording h)); cbn; tauto.
Qed.

Lemma stopRecording_end_saved (session : RecordingSession num) (h : Hooks) :
  snd (stopRecording_end true session h) = Some session /\
  readingsRef (fst (stopRecording_end true session h)) = [] /\
  startTimeRef (fst (stopRecording_end true session h)) = None /\
  isRecording (fst (stopRecording_end true session h)) = isRecording h /\
  error (fst (stopRecording_end true session h)) = error h.
Proof.
  cbn. tauto.
Qed.

(** [stopRecording] returns a session exactly when the buffer holds a
    reading and the save succeeds.  The session then has one sample per
    buffered reading on each of the six axes and in the magnitude
    series, its magnitude and statistics are those computed from its
    accelerometer axes, and afterwards the buffer is empty, the start
    time is forgotten and no error has been set. *)
Theorem stopRecording_returns_session (render_first saved : bool) (now : Z)
    (random : string) (h : Hooks) :
  let outcome := stopRecording sqrt duration context render_first saved now random h in
  let n := length (readingsRef h) in
  ((exists session, snd outcome = Some session) <-> (readingsRef h <> [] /\ saved = true)) /\
  (forall session, snd outcome = Some session ->
     length (x (accelerometer session)) = n /\ length (y (accelerometer session)) = n /\
     length (z (accelerometer session)) = n /\ length (x (gyroscope session)) = n /\
     length (y (gyroscope session)) = n /\ length (z (gyroscope session)) = n /\
     length (magnitude session) = n /\
     magnitude session = calculateMagnitudeArray sqrt (accelerometer session) /\
     stats session = calculateStats sqrt (magnitude session) /\
     readingsRef (fst outcome) = [] /\
     startTimeRef (fst outcome) = None /\
     isRecording (fst outcome) = false /\
     error (fst outcome) = error h).
Proof.
  cbv zeta. unfold stopRecording.
  destruct (readingsRef h) as [|r rs] eqn:E.
  - assert (B : stopRecording_begin sqrt duration context now random h
                = (fst (stopRecording_begin sqrt duration context now random h), None)).
    { unfold stopRecording_begin, getReadings. cbn [readingsRef]. rewrite E. reflexivity. }
    rewrite B. cbn [snd]. split.
    + split; [intros (s & Hs); discriminate|intros [Hne _]; congruence].
    + intros s Hs. discriminate.
  - destruct (stopRecording_begin_session now random h) as
      (session & Hs & Hbuf & Herr & Hrec & Hax & Hay & Haz & Hgx & Hgy & Hgz & Hm & Hst);
      [rewrite E; discriminate|].
    destruct (stopRecording_begin sqrt duration context now random h) as [h1 res] eqn:B.
    cbn [fst snd] in Hs, Hbuf, Herr, Hrec. subst res.
    assert (Hlen : length (magnitude session) = length (r :: rs)).
    { rewrite Hm. unfold calculateMagnitudeArray. cbv zeta.
      rewrite length_map, length_seq, Hax, Hay, Haz, !length_map, E.
      rewrite !Nat.min_id. reflexivity. }
    destruct saved.
    + assert (Hfinal :
        let o := if render_first then stopRecording_end true session (render h1)
                 else let (h2, result) := stopRecording_end true session h1 in
                      (render h2, result) in
        snd o = Some session /\ readingsRef (fst o) = [] /\ startTimeRef (fst o) = None /\
        isRecording (fst o) = false /\ error (fst o) = error h).
      { cbv zeta. destruct render_first.
        - destruct (stopRecording_end_saved session (render h1)) as (A1 & A2 & A3 & A4 & A5).
          destruct (render_keeps h1) as (R1 & R2 & _).
          repeat split; congruence.
        - destruct (stopRecording_end_saved session h1) as (A1 & A2 & A3 & A4 & A5).
          destruct (stopRecording_end true session h1) as [h2 result].
          cbn [fst snd] in *.
          destruct (render_keeps h2) as (R1 & R2 & R3 & R4).
          repeat split; try congruence. now apply R4. }
      cbv zeta in Hfinal. destruct Hfinal as (F1 & F2 & F3 & F4 & F5).
      split.
      * split; [intros _; split; [discriminate|reflexivity]|intros _; now exists session].
      * intros s Hs. rewrite F1 in Hs. injection Hs as <-.
        rewrite Hax, Hay, Haz, Hgx, Hgy, Hgz, !length_map, E.
        repeat split; assumption.
    + split; [split; [|intros [_ F]; discriminate]|].
      * intros (s & Hs). destruct render_first; cbn in Hs; discriminate.
      * intros s Hs. destruct render_first; cbn in Hs; discriminate.
Qed.

End WithEnvironment.

End StopProps.

(* ================================================================= *)
(** ** The further properties on concrete inputs *)

Module MoreWitnesses.

Import Storage SessionStore Recording Examples StoreExamples.
Import SignalProps AnalysisProps GroupingProps SessionStoreProps StopProps.

(** A window of 1 over 1, 5, 3 changes nothing. *)
Lemma smoothData_narrow_window_witness :
  length (smoothData (map Fin [1; 5; 3]) 1) = length [1; 5; 3].
Proof.
  apply (proj1 (@smoothData_narrow_window [1; 5; 3] 1
                  ltac:(vm_compute; discriminate) ltac:(vm_compute; reflexivity))).
Defined.

(** The report on the caffeine history. *)
Lemma report_invariants_witness :
  (length (correlations caffeine_report) <= 2)%nat.
Proof.
  apply (@report_invariants sqrt_approx today caffeine_history caffeine_report
           ltac:(vm_compute; reflexivity)).
Defined.

(** The baseline of the variabilities 1, 2, 3, 4 lies between 1 and 4. *)
Lemma calculateBaseline_within_range_witness :
  exists m : Q, calculateBaseline four_sessions = Fin m /\ 1 <= m <= 4.
Proof.
  apply (@calculateBaseline_within_range four_sessions 1 4 ltac:(discriminate)).
  intros s Hs. simpl in Hs.
  repeat (destruct Hs as [<-|Hs]; [split; vm_compute; discriminate|]). destruct Hs.
Defined.

(** One session of today at its own baseline scores 100. *)
Lemma stabilityScore_saturates_witness :
  exists report,
    generateTrendAnalysis sqrt_approx today fresh_history = Return report /\
    stabilityScore report = Fin 100.
Proof.
  eexists. split; [vm_compute; reflexivity|].
  apply (proj1 (@stabilityScore_saturates sqrt_approx today fresh_history 10 _
                  ltac:(vm_compute; reflexivity)
                  ltac:(discriminate) ltac:(vm_compute; reflexivity)
                  ltac:(vm_compute; reflexivity))).
  intros s Hs. simpl in Hs. destruct Hs as [<-|[]]. vm_compute. discriminate.
Defined.

(** Saving the record b into a store that holds the record a. *)
Lemma saveSession_then_load_witness :
  exists st',
    saveSession kv_get kv_set stringify_table parse_table (record "b") primary_store holds_a
    = (Return tt, st', holds_a ++ [(SESSIONS_KEY, "[a,b]"%string)]) /\
    fst (loadAllSessions kv_get parse_table st' (holds_a ++ [(SESSIONS_KEY, "[a,b]"%string)]))
    = [record "a"; record "b"].
Proof.
  apply (@saveSession_then_load kv kv_get kv_set stringify_table parse_table (record "b")
           primary_store holds_a (holds_a ++ [(SESSIONS_KEY, "[a,b]"%string)]) "[a,b]"%string);
    vm_compute; try reflexivity; try discriminate.
  intros _. split; reflexivity.
Defined.

(** The same save into a store that rejects the write. *)
Lemma saveSession_rejected_write_is_silent_witness :
  saveSession kv_get kv_set_rejected stringify_table parse_table (record "b") primary_store
              holds_a
  = (Return tt, memory_set SESSIONS_KEY "[a,b]" primary_store, holds_a) /\
  loadAllSessions kv_get parse_table (memory_set SESSIONS_KEY "[a,b]" primary_store) holds_a
  = ([record "a"], memory_set SESSIONS_KEY "[a,b]" primary_store).
Proof.
  destruct (@saveSession_rejected_write_is_silent kv kv_get kv_set_rejected stringify_table
              parse_table (record "b") primary_store holds_a (Some "[a]"%string)
              "[a,b]"%string "write rejected"%string
              eq_refl eq_refl eq_refl eq_refl) as (H1 & _ & _ & H2).
  split; [exact H1|exact H2].
Defined.

(** Deleting the record b from a store that holds a and b. *)
Lemma deleteSessions_then_load_witness :
  fst (loadAllSessions kv_get parse_table
         (snd (fst (deleteSessions kv_get kv_set stringify_table parse_table ["b"%string]
                                   primary_store holds_a_b)))
         (snd (deleteSessions kv_get kv_set stringify_table parse_table ["b"%string]
                              primary_store holds_a_b)))
  = [record "a"].
Proof.
  apply (proj1 (proj2 (@deleteSessions_then_load kv kv_get kv_set stringify_table parse_table
                         ["b"%string] primary_store holds_a_b "[a]"%string
                         eq_refl ltac:(discriminate) eq_refl
                         ltac:(intros p' H; vm_compute in H; injection H as <-;
                               reflexivity)))).
Defined.

(** Clearing a store that holds a and b. *)
Lemma clearAllSessions_then_load_witness :
  fst (loadAllSessions kv_get parse_table
         (snd (fst (clearAllSessions kv_remove primary_store holds_a_b)))
         (snd (clearAllSessions kv_remove primary_store holds_a_b)))
  = [].
Proof.
  apply (proj2 (@clearAllSessions_then_load kv kv_get parse_table kv_remove primary_store
                  holds_a_b
                  ltac:(intros p' H; vm_compute in H; injection H as <-; reflexivity))).
Defined.

(** Saving settings with a high sampling rate and a light theme. *)
Lemma saveSettings_then_loadSettings_witness :
  obj_get "theme"
    (fst (loadSettings
            (kv_get (snd (saveSettings kv_set stringify_table dark_high primary_store [])))
            parse_table
            (snd (fst (saveSettings kv_set stringify_table dark_high primary_store [])))))
  = Some (JStr "light").
Proof.
  apply (proj2 (proj2 (@saveSettings_then_loadSettings kv kv_get kv_set stringify_table
                         parse_table dark_high primary_store [] "{high,light}"%string
                         eq_refl ltac:(discriminate) eq_refl
                         ltac:(intros p' H; vm_compute in H; injection H as <-;
                               reflexivity)))).
  reflexivity.
Defined.

(** A store that rejects every write does not make a save throw. *)
Lemma store_failures_are_absorbed_witness :
  fst (fst (saveSession kv_get kv_set_rejected stringify_table parse_table (record "b")
                        primary_store holds_a))
  = Return tt.
Proof.
  apply (proj1 (@store_failures_are_absorbed kv kv_get kv_set_rejected stringify_table
                  parse_table primary_store holds_a
                  ltac:(intro v; eexists; reflexivity))).
Defined.

End MoreWitnesses.
